(** * otio-aaf-adapter: a shallow embedding of the AAF reader passes,
      the precheck validator and the adapter hooks.

    Sources embedded here:
    - [src/otio_aaf_adapter/adapters/advanced_authoring_format.py]
    - [src/otio_aaf_adapter/adapters/aaf_adapter/aaf_writer.py]
    - [src/otio_aaf_adapter/adapters/aaf_adapter/hooks.py]

    Python exceptions are values of [PyError]; a function that can raise
    returns a [result].  Python floats are idealised as exact rationals
    ([Q]); the builtin [float()] parser is a parameter. *)

From Stdlib Require Import ZArith QArith Qfield Qabs Lqa Bool Lia Ascii String.
From stdpp Require Import gmap strings list pretty.

Set Warnings "-register-all".

Local Open Scope string_scope.
Local Open Scope list_scope.

(** ** Python exceptions and results *)

Module Py.

Inductive PyError :=
| AAFAdapterError (msg : string)
| AAFValidationError (msg : string)
| NotSupportedError (msg : string)
| CannotComputeAvailableRangeError
| CannotTrimTransitionsError
| TypeError
| AttributeError
| ValueError
| KeyError
| IndexError
| ZeroDivisionError
| RecursionError.

Inductive result (A : Type) :=
| Ok (a : A)
| Raise (e : PyError).
Arguments Ok {A} a.
Arguments Raise {A} e.

Definition bind {A B} (r : result A) (k : A → result B) : result B :=
  match r with
  | Ok a => k a
  | Raise e => Raise e
  end.

Definition is_ok {A} (r : result A) : bool :=
  match r with Ok _ => true | Raise _ => false end.

End Py.
Import Py.

#[global] Instance result_ret : MRet result := fun _ a => Ok a.
#[global] Instance result_bind : MBind result := fun _ _ k r => Py.bind r k.

(** ** hooks.py *)

Module Hooks.

Definition HOOK_PRE_READ_TRANSCRIBE : string := "otio_aaf_pre_read_transcribe".
Definition HOOK_POST_READ_TRANSCRIBE : string := "otio_aaf_post_read_transcribe".
Definition HOOK_PRE_WRITE_TRANSCRIBE : string := "otio_aaf_pre_write_transcribe".
Definition HOOK_POST_WRITE_TRANSCRIBE : string := "otio_aaf_post_write_transcribe".

Section hooks.
(** The timeline and the open container handle are opaque here. *)
Context {Timeline AAFFile : Type}.

Inductive kwarg :=
| KwStr (s : string)
| KwBool (b : bool)
| KwHandle (h : AAFFile).

(** A hook script receives the timeline (or [None]) and the argument map. *)
Definition hook_script : Type :=
  option Timeline → gmap string kwarg → result (option Timeline).

(** [otio.hooks]: the active manifest maps a hook name to its scripts.
    [otio.hooks.names()] lists the names, [otio.hooks.run] threads the
    timeline through every script attached to the name. *)
Definition hooks_names (m : gmap string (list hook_script)) : gset string :=
  dom m.

Fixpoint run_scripts (hs : list hook_script) (tl : option Timeline)
         (extra_args : gmap string kwarg) : result (option Timeline) :=
  match hs with
  | [] => Ok tl
  | h :: hs' => tl' ← h tl extra_args ; run_scripts hs' tl' extra_args
  end.

Definition hooks_run (m : gmap string (list hook_script)) (hook : string)
           (tl : option Timeline) (extra_args : gmap string kwarg)
  : result (option Timeline) :=
  match m !! hook with
  | Some hs => run_scripts hs tl extra_args
  | None => Raise KeyError
  end.

Definition run_pre_write_transcribe_hook (m : gmap string (list hook_script))
           (timeline : option Timeline) (write_filepath : string)
           (aaf_handle : AAFFile) (embed_essence : bool)
           (extra_kwargs : gmap string kwarg) : result (option Timeline) :=
  if decide (HOOK_PRE_WRITE_TRANSCRIBE ∈ hooks_names m) then
    let extra_kwargs :=
      <["embed_essence" := KwBool embed_essence]>
        (<["aaf_handle" := KwHandle aaf_handle]>
           (<["write_filepath" := KwStr write_filepath]> extra_kwargs)) in
    hooks_run m HOOK_PRE_WRITE_TRANSCRIBE timeline extra_kwargs
  else Ok timeline.

Definition run_post_write_transcribe_hook (m : gmap string (list hook_script))
           (timeline : option Timeline) (write_filepath : string)
           (aaf_handle : AAFFile) (embed_essence : bool)
           (extra_kwargs : gmap string kwarg) : result (option Timeline) :=
  if decide (HOOK_POST_WRITE_TRANSCRIBE ∈ hooks_names m) then
    let extra_kwargs :=
      <["embed_essence" := KwBool embed_essence]>
        (<["aaf_handle" := KwHandle aaf_handle]>
           (<["write_filepath" := KwStr write_filepath]> extra_kwargs)) in
    hooks_run m HOOK_POST_WRITE_TRANSCRIBE timeline extra_kwargs
  else Ok timeline.

(** Returns nothing in Python; the result only records a raised error. *)
Definition run_pre_read_transcribe_hook (m : gmap string (list hook_script))
           (read_filepath : string) (aaf_handle : AAFFile)
           (extra_kwargs : gmap string kwarg) : result unit :=
  if decide (HOOK_PRE_WRITE_TRANSCRIBE ∈ hooks_names m) then
    let extra_kwargs :=
      <["aaf_handle" := KwHandle aaf_handle]>
        (<["read_filepath" := KwStr read_filepath]> extra_kwargs) in
    _ ← hooks_run m HOOK_PRE_READ_TRANSCRIBE None extra_kwargs ; Ok tt
  else Ok tt.

Definition run_post_read_transcribe_hook (m : gmap string (list hook_script))
           (timeline : option Timeline) (read_filepath : string)
           (aaf_handle : AAFFile)
           (extra_kwargs : gmap string kwarg) : result (option Timeline) :=
  if decide (HOOK_POST_WRITE_TRANSCRIBE ∈ hooks_names m) then
    let extra_kwargs :=
      <["aaf_handle" := KwHandle aaf_handle]>
        (<["read_filepath" := KwStr read_filepath]> extra_kwargs) in
    hooks_run m HOOK_POST_WRITE_TRANSCRIBE timeline extra_kwargs
  else Ok timeline.

End hooks.

(** Concrete manifests used below: timelines are numbers, a script that
    was run leaves its mark by bumping the number. *)
Definition bump (n : nat) : @hook_script nat unit :=
  fun tl _ => Ok (Nat.add n <$> tl).

Definition only_post_read : gmap string (list (@hook_script nat unit)) :=
  {[ HOOK_POST_READ_TRANSCRIBE := [bump 1] ]}.

Definition only_post_write : gmap string (list (@hook_script nat unit)) :=
  {[ HOOK_POST_WRITE_TRANSCRIBE := [bump 10] ]}.

End Hooks.

(** ** Python values: metadata bags *)

Module PyData.

(** What [_transcribe_property] can produce: strings, integers, nested
    dictionaries and lists.  A dictionary is an association list in insertion
    order with unique keys. *)
Inductive PyVal :=
| PNone
| PBool (b : bool)
| PInt (z : Z)
| PStr (s : string)
| PFrac (q : Q)
| PList (l : list PyVal)
| PDict (d : list (string * PyVal)).

Definition dict : Type := list (string * PyVal).

Fixpoint dict_get (d : dict) (k : string) : option PyVal :=
  match d with
  | [] => None
  | (k', v) :: d' => if decide (k' = k) then Some v else dict_get d' k
  end.

(** [d[k] = v] *)
Fixpoint dict_set (d : dict) (k : string) (v : PyVal) : dict :=
  match d with
  | [] => [(k, v)]
  | (k', v') :: d' =>
      if decide (k' = k) then (k, v) :: d' else (k', v') :: dict_set d' k v
  end.

(** [d.update(d2)] *)
Definition dict_update (d d2 : dict) : dict :=
  foldl (λ acc kv, dict_set acc kv.1 kv.2) d d2.

(** [d.get(k, {})] followed by a use as a dictionary. *)
Definition get_dict (d : dict) (k : string) : dict :=
  match dict_get d k with
  | Some (PDict d') => d'
  | _ => []
  end.

(** Python truthiness. *)
Definition truthy (v : PyVal) : bool :=
  match v with
  | PNone => false
  | PBool b => b
  | PInt z => negb (z =? 0)%Z
  | PStr s => negb (String.eqb s "")
  | PFrac q => negb (Qeq_bool q 0)
  | PList l => match l with [] => false | _ => true end
  | PDict d => match d with [] => false | _ => true end
  end.

Definition opt_truthy (o : option PyVal) : bool :=
  match o with Some v => truthy v | None => false end.

(** [str(n)] for an integer. *)
Definition str_of_Z (z : Z) : string := pretty z.

Definition digit_of_ascii (c : ascii) : option Z :=
  let n := Z.of_nat (nat_of_ascii c) in
  if ((48 <=? n) && (n <=? 57))%Z then Some (n - 48)%Z else None.

Fixpoint digits_value (s : string) (acc : Z) : option Z :=
  match s with
  | EmptyString => Some acc
  | String c s' =>
      match digit_of_ascii c with
      | Some d => digits_value s' (10 * acc + d)%Z
      | None => None
      end
  end.

(** [int(s)] on a plain decimal literal with an optional sign; anything
    else is a [ValueError]. *)
Definition int_of_string (s : string) : result Z :=
  match s with
  | EmptyString => Raise ValueError
  | String "-" (String c r) =>
      match digits_value (String c r) 0 with
      | Some z => Ok (- z)%Z
      | None => Raise ValueError
      end
  | String "+" (String c r) =>
      match digits_value (String c r) 0 with
      | Some z => Ok z
      | None => Raise ValueError
      end
  | _ => match digits_value s 0 with
         | Some z => Ok z
         | None => Raise ValueError
         end
  end.

(** [int(v)] *)
Definition py_int (v : PyVal) : result Z :=
  match v with
  | PInt z => Ok z
  | PBool b => Ok (if b then 1 else 0)%Z
  | PStr s => int_of_string s
  | _ => Raise TypeError
  end.

(** [s.split(sep)] for a one-character separator. *)
Fixpoint split_on (sep : ascii) (s : string) : list string :=
  match s with
  | EmptyString => [EmptyString]
  | String c s' =>
      if decide (c = sep) then EmptyString :: split_on sep s'
      else match split_on sep s' with
           | [] => [String c EmptyString]
           | w :: ws => String c w :: ws
           end
  end.

(** [sep in s] *)
Fixpoint contains_char (sep : ascii) (s : string) : bool :=
  match s with
  | EmptyString => false
  | String c s' => if decide (c = sep) then true else contains_char sep s'
  end.

End PyData.
Import PyData.

(** ** The composition tree (OpenTimelineIO schema objects) *)

Module Otio.

Record RationalTime := mkRT { rt_value : Q; rt_rate : Q }.
Record TimeRange := mkTR { start_time : RationalTime; duration : RationalTime }.

(** [RationalTime(value, rate)] with a rate that may still be [None]. *)
Definition RationalTime_ (value : Z) (rate : option Q) : result RationalTime :=
  match rate with
  | Some r => Ok (mkRT (inject_Z value) r)
  | None => Raise TypeError
  end.

Record Marker := mkMarker {
  m_name : string;
  marked_range : TimeRange;
  color : string;
  m_metadata : dict }.

Inductive EffectSchema :=
| SEffect
| STimeEffect
| SLinearTimeWarp (time_scalar : Q)
| SFreezeFrame.

Record Effect := mkEffect {
  e_schema : EffectSchema;
  e_name : option string;
  effect_name : string;
  e_metadata : dict }.


(** What every [otio.core.Item] carries. *)
Record ItemData := mkItem {
  name : string;
  metadata : dict;
  source_range : option TimeRange;
  effects : list Effect;
  markers : list Marker;
  enabled : bool }.

Definition new_item : ItemData :=
  mkItem "" [] None [] [] true.

Record TransitionData := mkTransition {
  t_name : string;
  t_metadata : dict;
  in_offset : RationalTime;
  out_offset : RationalTime }.

Inductive Composable :=
| Clip (i : ItemData) (available_range : option TimeRange)
| Gap (i : ItemData)
| Transition (t : TransitionData)
| Track (i : ItemData) (kind : string) (children : list Composable)
| Stack (i : ItemData) (children : list Composable).

Record Timeline := mkTimeline {
  tl_name : string;
  tl_metadata : dict;
  global_start_time : option RationalTime;
  tracks_item : ItemData;          (* the root Stack [tl.tracks] ... *)
  tracks : list Composable }.      (* ... and its children *)

(** Anything [_transcribe] or [_simplify] may hand around. *)
Inductive Thing :=
| TNone
| TMarker (m : Marker)
| TComposable (c : Composable)
| TTimeline (tl : Timeline)
| TCollection (c_name : string) (c_metadata : dict) (children : list Thing).

Definition TrackKind_Video : string := "Video".
Definition TrackKind_Audio : string := "Audio".

Definition item_of (c : Composable) : option ItemData :=
  match c with
  | Clip i _ | Gap i | Track i _ _ | Stack i _ => Some i
  | Transition _ => None
  end.

Definition children_of (c : Composable) : option (list Composable) :=
  match c with
  | Track _ _ cs | Stack _ cs => Some cs
  | _ => None
  end.

Definition is_track (c : Composable) : bool :=
  match c with Track _ _ _ => true | _ => false end.
Definition is_stack (c : Composable) : bool :=
  match c with Stack _ _ => true | _ => false end.
Definition is_transition (c : Composable) : bool :=
  match c with Transition _ => true | _ => false end.
Definition is_gap (c : Composable) : bool :=
  match c with Gap _ => true | _ => false end.

Definition c_name (c : Composable) : string :=
  match c with
  | Clip i _ | Gap i | Track i _ _ | Stack i _ => name i
  | Transition t => t_name t
  end.

Definition c_metadata (c : Composable) : dict :=
  match c with
  | Clip i _ | Gap i | Track i _ _ | Stack i _ => metadata i
  | Transition t => t_metadata t
  end.

Definition with_item (f : ItemData → ItemData) (c : Composable) : Composable :=
  match c with
  | Clip i a => Clip (f i) a
  | Gap i => Gap (f i)
  | Track i k cs => Track (f i) k cs
  | Stack i cs => Stack (f i) cs
  | Transition t => Transition t
  end.

Definition set_name (n : string) (i : ItemData) : ItemData :=
  mkItem n (metadata i) (source_range i) (effects i) (markers i) (enabled i).
Definition set_metadata (m : dict) (i : ItemData) : ItemData :=
  mkItem (name i) m (source_range i) (effects i) (markers i) (enabled i).
Definition set_source_range (r : option TimeRange) (i : ItemData) : ItemData :=
  mkItem (name i) (metadata i) r (effects i) (markers i) (enabled i).
Definition set_effects (es : list Effect) (i : ItemData) : ItemData :=
  mkItem (name i) (metadata i) (source_range i) es (markers i) (enabled i).
Definition set_markers (ms : list Marker) (i : ItemData) : ItemData :=
  mkItem (name i) (metadata i) (source_range i) (effects i) ms (enabled i).
Definition set_enabled (b : bool) (i : ItemData) : ItemData :=
  mkItem (name i) (metadata i) (source_range i) (effects i) (markers i) b.

End Otio.
Import Otio.

(** ** The tree schema's own algorithms *)

(** An item of a composition tree, named by the child indices that lead to
    it from the root. *)
Definition Path : Type := list nat.

Fixpoint get_at (c : Composable) (p : Path) : option Composable :=
  match p with
  | [] => Some c
  | i :: p' =>
      match children_of c with
      | Some cs => match cs !! i with
                   | Some child => get_at child p'
                   | None => None
                   end
      | None => None
      end
  end.

Definition with_children (cs : list Composable) (c : Composable) : Composable :=
  match c with
  | Track i k _ => Track i k cs
  | Stack i _ => Stack i cs
  | _ => c
  end.

(** Replace the item at a path; a path that leads nowhere is an error. *)
Fixpoint update_at (f : Composable → result Composable) (c : Composable)
         (p : Path) : result Composable :=
  match p with
  | [] => f c
  | i :: p' =>
      match children_of c with
      | Some cs =>
          match cs !! i with
          | Some child =>
              child ← update_at f child p';
              Ok (with_children (<[i := child]> cs) c)
          | None => Raise IndexError
          end
      | None => Raise AttributeError
      end
  end.

(** OpenTimelineIO's range arithmetic and tree queries are not part of the
    adapter; the passes below are written against this interface. *)
Class OtioLib := {
  (** [a + b] on [RationalTime] *)
  rt_add : RationalTime → RationalTime → RationalTime;
  (** [TimeRange.contains(RationalTime)] *)
  range_contains : TimeRange → RationalTime → bool;
  (** [Item.trimmed_range()] *)
  trimmed_range : Composable → result TimeRange;
  (** [Item.available_range()] *)
  available_range : Composable → result TimeRange;
  (** [otio.algorithms.track_trimmed_to_range] *)
  track_trimmed_to_range : Composable → TimeRange → result Composable;
  (** [composition.child_at_time(t)], in the tree rooted at the first
      argument *)
  child_at_time : Composable → Path → RationalTime → result (option Path);
  (** [item.transformed_time(t, to_item)] *)
  transformed_time :
    Composable → Path → RationalTime → Path → result RationalTime;
  (** [item.range_in_parent()] *)
  range_in_parent : Composable → Path → result TimeRange;
  (** trimming works on a deep copy of the track *)
  track_trimmed_is_track c r c' :
    track_trimmed_to_range c r = Ok c' → is_track c = true → is_track c' = true
}.

(** ** The mob / slot / component graph (pyaaf2 objects) *)

Module AAF.

Definition MobID : Type := string.

Record ControlPoint := mkCP { cp_time : Q; cp_value : Q }.

Inductive AAFParameter :=
| ConstantValue (p_name : string)
| VaryingValue (p_name : string) (PointList : list ControlPoint).

Definition param_name (p : AAFParameter) : string :=
  match p with
  | ConstantValue n | VaryingValue n _ => n
  end.

(** What the reader asks of an OperationGroup itself. *)
Record OpGroupData := mkOG {
  og_length : Z;
  og_Name : option string;              (* [item.get("Name", "")] *)
  og_parameters : list AAFParameter }.

(** Data every object answers: its name, its class name, and the property
    bag that [_transcribe_aaf_object_properties] makes of it. *)
Record Common := mkCommon {
  raw_name : option string;
  class_name : string;
  props : dict }.

Inductive SlotKind := EventMobSlot | StaticMobSlot.

Inductive AAFObj :=
| ContentStorage (o : Common) (compositionmobs : list AAFObj)
| SourceMob (o : Common)
| MasterMob (o : Common) (mob_id : MobID)
            (slots : list (AAFObj * result Composable))
| CompositionMob (o : Common) (mob_id : MobID) (slots : list AAFObj)
| SourceClip (o : Common) (media_kind : string) (length start : Z)
             (mob : option MobID) (slot_id : Z)
| Transition_ (o : Common) (media_kind : string) (length : Z)
              (OperationGroup_ : option AAFObj)
| Filler (o : Common) (media_kind : string) (length : Z)
| NestedScope (o : Common) (media_kind : string) (length : Z)
              (slots : list AAFObj)
| Sequence (o : Common) (media_kind : string) (length : Z)
           (components : list AAFObj)
| OperationGroup (o : Common) (media_kind : string) (og : OpGroupData)
                 (InputSegments : option (list AAFObj))
| TimelineMobSlot (o : Common) (media_kind : string) (edit_rate : Q)
                  (SlotID : Z) (PhysicalTrackNumber : option Z)
                  (segment : AAFObj)
| MobSlot (k : SlotKind) (o : Common) (media_kind : string) (edit_rate : Q)
          (PhysicalTrackNumber : option Z) (segment : AAFObj)
| Timecode (o : Common) (media_kind : string) (length start : Z)
| Pulldown (o : Common) (media_kind : string) (length : Z)
| EdgeCode (o : Common) (media_kind : string) (length : Z)
| ScopeReference (o : Common) (media_kind : string) (length : Z)
| DescriptiveMarker (o : Common) (media_kind : string) (length : option Z)
                    (marker_color : string)
| Selector (o : Common) (media_kind : string) (length : Z)
           (Selected : AAFObj) (Alternates : option (list AAFObj))
| PyList (items : list AAFObj)
| OtherObject (o : Common).

End AAF.
Import AAF.

(** ** What the adapter asks of its environment *)

(** The builtin [float(s)] on a string; floats are read as exact rationals. *)
Class PyFloat := { py_float : string → result Q }.

(** ** Time-warp classification *)

Module TimeWarp.

Section timewarp.
Context `{PyFloat}.

(** [_get_parameter]: a dictionary comprehension keyed by name (the last
    parameter of a name wins), then [get]. *)
Definition _get_parameter (item : OpGroupData) (parameter_name : string)
  : option AAFParameter :=
  foldl (λ values value, <[param_name value := value]> values)
        (∅ : gmap string AAFParameter) (og_parameters item) !! parameter_name.

Definition new_effect (s : EffectSchema) (effect_name : string) : Effect :=
  mkEffect s (Some "") effect_name [].

Definition _transcribe_fancy_timewarp (item : OpGroupData) (parameters : dict)
  : Effect :=
  mkEffect STimeEffect (Some (default "" (og_Name item)))
           "Unknown Time Warp Effect" [].

(** Python float division. *)
Definition fdiv (a b : Q) : result Q :=
  if Qeq_bool b 0 then Raise ZeroDivisionError else Ok (a / b)%Q.

(** [effect.time_scalar = x] followed by the freeze-frame test. *)
Definition finish_linear (time_scalar : Q) : Effect :=
  if Qeq_bool time_scalar 0
  then new_effect SFreezeFrame "FreezeFrame"
  else new_effect (SLinearTimeWarp time_scalar) "LinearTimeWarp".

Definition _transcribe_linear_timewarp (item : OpGroupData) (parameters : dict)
  : result Effect :=
  let speed_offset_map := _get_parameter item "PARAM_SPEED_OFFSET_MAP_U" in
  (* [speed_offset_map.get("PointList") if speed_offset_map else []] *)
  points ← match speed_offset_map with
            | None => Ok []
            | Some (VaryingValue _ pl) => Ok pl
            | Some (ConstantValue _) => Raise TypeError (* [len(None)] *)
            end;
  match points with
  | _ :: _ :: _ :: _ => Ok (_transcribe_fancy_timewarp item parameters)
  | [p0; p1] =>
      time_scalar ← fdiv (cp_value p1 - cp_value p0) (cp_time p1 - cp_time p0);
      Ok (finish_linear time_scalar)
  | _ =>
      match dict_get parameters "SpeedRatio" with
      | Some (PStr ratio) =>
          if decide (ratio = str_of_Z (og_length item)) then
            Ok (finish_linear 0)
          else if contains_char "/" ratio then
            match split_on "/" ratio with
            | [n; d] =>
                numerator ← py_float n;
                denominator ← py_float d;
                time_scalar ← fdiv denominator numerator;
                Ok (finish_linear time_scalar)
            | _ => Raise ValueError
            end
          else
            r ← py_float ratio;
            time_scalar ← fdiv 1 r;
            Ok (finish_linear time_scalar)
      | _ => Raise TypeError      (* ['/' in ratio] on a non-string *)
      end
  end.

End timewarp.

End TimeWarp.

(** A reader for plain decimal literals ([12], [-3], [0.25]), used to run
    the classification on concrete ratios. *)
Module DecimalFloat.

Definition unsigned_decimal (s : string) : result Q :=
  match split_on "." s with
  | [i] =>
      match s, digits_value i 0 with
      | String _ _, Some z => Ok (inject_Z z)
      | _, _ => Raise ValueError
      end
  | [i; f] =>
      match String.append i f, digits_value i 0, digits_value f 0 with
      | String _ _, Some zi, Some zf =>
          Ok (inject_Z zi + inject_Z zf / inject_Z (10 ^ Z.of_nat (String.length f)))%Q
      | _, _, _ => Raise ValueError
      end
  | _ => Raise ValueError
  end.

Definition decimal (s : string) : result Q :=
  match s with
  | String "-" r => q ← unsigned_decimal r; Ok (- q)%Q
  | String "+" r => unsigned_decimal r
  | _ => unsigned_decimal s
  end.

#[global] Instance decimal_float : PyFloat := {| py_float := decimal |}.

End DecimalFloat.

Module TimeWarpExamples.
Import TimeWarp.



(** An operation group without a speed graph, 100 edit units long. *)
Definition plain_speed_change : OpGroupData :=
  mkOG 100 (Some "Motion Control") [ConstantValue "SpeedRatio"].

Definition stored_ratio (r : string) : dict := [("SpeedRatio", PStr r)].

(** Fewer than two control points on the speed-offset parameter (or no such
    parameter): the branch that falls back to the stored ratio. *)
Definition no_usable_points (item : OpGroupData) : Prop :=
  _get_parameter item "PARAM_SPEED_OFFSET_MAP_U" = None
  ∨ ∃ n pl, _get_parameter item "PARAM_SPEED_OFFSET_MAP_U"
              = Some (VaryingValue n pl) ∧ (length pl < 2)%nat.

End TimeWarpExamples.

(** ** aaf_writer.py: the precheck validator *)

Module Validate.

(** Python objects as [__check] sees them: values, dictionaries, and
    instances with attributes and zero-argument methods. *)
Inductive Obj :=
| ONone
| ONum (q : Q)
| OStr (s : string)
| ODict (d : list (string * Obj))
| OInst (cls : string) (attrs : list (string * Obj))
        (methods : list (string * result Obj)).

Fixpoint assoc {A} (l : list (string * A)) (k : string) : option A :=
  match l with
  | [] => None
  | (k', v) :: l' => if decide (k' = k) then Some v else assoc l' k
  end.

Definition getattr (o : Obj) (a : string) : result Obj :=
  match o with
  | OInst _ attrs _ =>
      match assoc attrs a with Some v => Ok v | None => Raise AttributeError end
  | _ => Raise AttributeError
  end.

Definition call_method (o : Obj) (m : string) : result Obj :=
  match o with
  | OInst _ _ methods =>
      match assoc methods m with Some r => r | None => Raise AttributeError end
  | _ => Raise AttributeError
  end.

Definition getitem (o : Obj) (k : string) : result Obj :=
  match o with
  | ODict d => match assoc d k with Some v => Ok v | None => Raise KeyError end
  | _ => Raise TypeError
  end.

Definition type_name (o : Obj) : string :=
  match o with
  | ONone => "NoneType"
  | ONum _ => "float"
  | OStr _ => "str"
  | ODict _ => "dict"
  | OInst cls _ _ => cls
  end.

Definition isinstance (o : Obj) (cls : string) : bool :=
  match o with
  | OInst c _ _ => String.eqb c cls
  | _ => false
  end.

(** [a != b] on the values the rate checks compare. *)
Definition obj_neq (a b : Obj) : bool :=
  match a, b with
  | ONone, ONone => false
  | ONum x, ONum y => negb (Qeq_bool x y)
  | OStr x, OStr y => negb (String.eqb x y)
  | _, _ => true
  end.

(** [re.split] of the token path on a dot or an opening bracket. *)
Fixpoint split_tokens (s : string) : list string :=
  match s with
  | EmptyString => [EmptyString]
  | String c s' =>
      if decide (c = "."%char ∨ c = "["%char) then EmptyString :: split_tokens s'
      else match split_tokens s' with
           | [] => [String c EmptyString]
           | w :: ws => String c w :: ws
           end
  end.

Definition bracket_or_quote (c : ascii) : bool :=
  bool_decide (c = "["%char ∨ c = "]"%char ∨ c = "'"%char ∨ c = "034"%char).

Fixpoint lstrip (s : string) : string :=
  match s with
  | String c s' => if bracket_or_quote c then lstrip s' else s
  | EmptyString => EmptyString
  end.

Fixpoint rstrip (s : string) : string :=
  match s with
  | EmptyString => EmptyString
  | String c s' =>
      match rstrip s' with
      | EmptyString => if bracket_or_quote c then EmptyString
                       else String c EmptyString
      | r => String c r
      end
  end.

(** [token.strip] of brackets and both kinds of quotes. *)
Definition strip (s : string) : string := rstrip (lstrip s).

Fixpoint ends_with_call (s : string) : bool :=
  match s with
  | String "(" (String ")" EmptyString) => true
  | String _ s' => ends_with_call s'
  | EmptyString => false
  end.

(** [token.replace("()", "")] *)
Fixpoint remove_calls (s : string) : string :=
  match s with
  | String "(" (String ")" s') => remove_calls s'
  | String c s' => String c (remove_calls s')
  | EmptyString => EmptyString
  end.

Definition step_token (value : Obj) (token : string) : result Obj :=
  if ends_with_call token then call_method value (remove_calls token)
  else if contains_char "]" token then getitem value (strip token)
  else getattr value token.

Fixpoint walk (value : Obj) (tokens : list string) : result Obj :=
  match tokens with
  | [] => Ok value
  | t :: ts => v ← step_token value t; walk v ts
  end.

Definition exn_text (e : PyError) : string :=
  match e with
  | AttributeError => "object has no such attribute"
  | KeyError => "key not found"
  | TypeError => "object is not subscriptable"
  | _ => "error"
  end.

Definition obj_name (o : Obj) : string :=
  match getattr o "name" with Ok (OStr n) => n | _ => "" end.

Definition show (o : Obj) : string :=
  match o with
  | OStr s => s
  | ONone => "None"
  | _ => type_name o
  end.

Definition origin (o : Obj) (tokenpath : string) : string :=
  obj_name o +:+ "<class '" +:+ type_name o +:+ "'> "
    +:+ type_name o +:+ "." +:+ tokenpath.

(** The private helper class [__check]. *)
Record check := mkCheck {
  orig : Obj;
  value : Obj;                      (* [ONone] once the path failed *)
  errors : list string;
  tokenpath : string }.

Definition __check (obj : Obj) (tokenpath : string) : check :=
  match walk obj (split_tokens tokenpath) with
  | Ok v => mkCheck obj v [] tokenpath
  | Raise e =>
      mkCheck obj ONone
              [origin obj tokenpath +:+ " does not exist, " +:+ exn_text e]
              tokenpath
  end.

Definition equals (c : check) (val : Obj) : check :=
  match value c with
  | ONone => c
  | v =>
      if obj_neq v val then
        mkCheck (orig c) (value c)
                (errors c ++
                   [origin (orig c) (tokenpath c) +:+ " not equal to "
                      +:+ show val +:+ " (expected) != " +:+ show v
                      +:+ " (actual)"])
                (tokenpath c)
      else c
  end.

Definition _is_considered_gap (thing : Obj) : result bool :=
  if isinstance thing "Gap" then Ok true
  else if isinstance thing "Clip" then
    match getattr thing "media_reference" with
    | Ok ref =>
        if isinstance ref "GeneratorReference" then
          match getattr ref "generator_kind" with
          | Ok (OStr "Slug") => Ok true
          | Ok k =>
              Raise (NotSupportedError
                       ("AAF adapter does not support generator references of kind '"
                          +:+ show k +:+ "'"))
          | Raise e => Raise e
          end
        else Ok false
    | Raise e => Raise e
    end
  else Ok false.

Definition gap_checks (child edit_rate : Obj) : list check :=
  [equals (__check child "duration().rate") edit_rate].

Definition clip_checks (child edit_rate : Obj) : list check :=
  [equals (__check child "duration().rate") edit_rate;
   equals (__check child "media_reference.available_range.duration.rate")
          edit_rate;
   equals (__check child "media_reference.available_range.start_time.rate")
          edit_rate].

Definition transition_checks (child edit_rate : Obj) : list check :=
  [equals (__check child "duration().rate") edit_rate;
   __check child "metadata['AAF']['PointList']";
   __check child
     "metadata['AAF']['OperationGroup']['Operation']['DataDefinition']['Name']";
   __check child "metadata['AAF']['OperationGroup']['Operation']['Description']";
   __check child "metadata['AAF']['OperationGroup']['Operation']['Name']";
   __check child "metadata['AAF']['CutPoint']"].

(** The body of the loop for one child. *)
Definition child_checks (child edit_rate : Obj) : result (list check) :=
  gap ← _is_considered_gap child;
  let checks := if gap : bool then gap_checks child edit_rate else [] in
  let checks := if isinstance child "Clip"
                then clip_checks child edit_rate else checks in
  let checks := if isinstance child "Transition"
                then transition_checks child edit_rate else checks in
  Ok checks.

Fixpoint loop (children : list Obj) (edit_rate : Obj) (all_checks : list check)
  : result (list check) :=
  match children with
  | [] => Ok all_checks
  | child :: rest =>
      checks ← child_checks child edit_rate;
      loop rest edit_rate (all_checks ++ checks)
  end.

Definition newline : string := String "010" EmptyString.

(** [timeline.find_children()] is given with the timeline. *)
Definition validate_metadata (timeline : Obj) (find_children : list Obj)
  : result unit :=
  let all_checks := [__check timeline "duration().rate"] in
  let edit_rate := value (__check timeline "duration().rate") in
  all_checks ← loop find_children edit_rate all_checks;
  if existsb (λ c, match errors c with [] => false | _ => true end) all_checks
  then Raise (AAFValidationError
                (newline +:+ String.concat newline (flat_map errors all_checks)))
  else Ok tt.

(** [filter(bool, str(e).split("\n"))]: the lines of a message. *)
Definition lines (msg : string) : list string :=
  filter (λ l, l ≠ EmptyString) (split_on "010" msg).

End Validate.

Module ValidateExamples.
Import Validate.

Definition rt (rate : Q) : Obj :=
  OInst "RationalTime" [("value", ONum 10); ("rate", ONum rate)] [].

Definition tr (rate : Q) : Obj :=
  OInst "TimeRange" [("start_time", rt rate); ("duration", rt rate)] [].

Definition clip (name : string) (rate : Q) (available_range : Obj) : Obj :=
  OInst "Clip"
        [("name", OStr name);
         ("media_reference",
           OInst "ExternalReference" [("available_range", available_range)] []);
         ("metadata", ODict [])]
        [("duration", Ok (rt rate))].

Definition generator_clip (name kind : string) : Obj :=
  OInst "Clip"
        [("name", OStr name);
         ("media_reference",
           OInst "GeneratorReference"
                 [("generator_kind", OStr kind); ("available_range", tr 24)] []);
         ("metadata", ODict [])]
        [("duration", Ok (rt 24))].

Definition gap (rate : Q) : Obj :=
  OInst "Gap" [("name", OStr "")] [("duration", Ok (rt rate))].

Definition operation : Obj :=
  ODict [("DataDefinition", ODict [("Name", OStr "Picture")]);
         ("Description", OStr "");
         ("Name", OStr "VideoDissolve")].

Definition transition (aaf : list (string * Obj)) : Obj :=
  OInst "Transition"
        [("name", OStr "dissolve"); ("metadata", ODict [("AAF", ODict aaf)])]
        [("duration", Ok (rt 24))].

Definition transition_ok : Obj :=
  transition [("PointList", ODict []);
              ("OperationGroup", ODict [("Operation", operation)]);
              ("CutPoint", ONum 12)].

Definition transition_no_cutpoint : Obj :=
  transition [("PointList", ODict []);
              ("OperationGroup", ODict [("Operation", operation)])].

Definition track : Obj := OInst "Track" [("name", OStr "V1")] [].

Definition timeline24 : Obj :=
  OInst "Timeline" [("name", OStr "tl")] [("duration", Ok (rt 24))].

(** Four defects: a clip at the wrong rate, a clip without an available
    range (two failing paths), a transition without its cut point. *)
Definition four_defects : list Obj :=
  [track; clip "A" 25 (tr 24); gap 24; clip "B" 24 ONone;
   transition_no_cutpoint; transition_ok].

Definition no_defects : list Obj :=
  [track; clip "A" 24 (tr 24); gap 24; transition_ok;
   generator_clip "slug" "Slug"].

(** A rate defect next to a clip on colour bars. *)
Definition defect_and_bars : list Obj :=
  [track; clip "A" 25 (tr 24); generator_clip "bars" "SMPTEBars"].

(** The checks a child owes by its kind. *)
Definition required_checks (child edit_rate : Obj) : list check :=
  if isinstance child "Transition" then transition_checks child edit_rate
  else if isinstance child "Clip" then clip_checks child edit_rate
  else if isinstance child "Gap" then gap_checks child edit_rate
  else [].

(** Every violation of a timeline, in traversal order. *)
Definition all_errors (timeline : Obj) (children : list Obj) : list string :=
  let c := __check timeline "duration().rate" in
  errors c ++
  flat_map (λ child, flat_map errors (required_checks child (value c))) children.

(** No clip on a generator other than a slug. *)
Definition supported (child : Obj) : Prop :=
  ∃ b, _is_considered_gap child = Ok b.

Definition clean_line (l : string) : Prop :=
  contains_char "010" l = false.

End ValidateExamples.

(** ** The structural simplifier *)

Module Simplify.

(** Where the object being simplified hangs: [thing.parent()] is [None], or
    it is a Stack that itself has no parent, or anything else. *)
Inductive Ctx := Detached | InRootStack | Inside.

#[global] Instance Ctx_eq_dec : EqDecision Ctx.
Proof. solve_decision. Defined.

Definition mapM {A B} (f : A → result B) : list A → result (list B) :=
  fix go l :=
    match l with
    | [] => Ok []
    | x :: l' => y ← f x; ys ← go l'; Ok (y :: ys)
    end.

Fixpoint size (c : Composable) : nat :=
  match c with
  | Track _ _ cs | Stack _ cs => S (list_sum (map size cs))
  | _ => 1
  end.

Definition _transcribe_media_kind (media_kind : string) : string :=
  if decide (media_kind = "Picture") then TrackKind_Video
  else if decide (media_kind = "SoundMasterTrack" ∨ media_kind = "Sound")
       then TrackKind_Audio
       else "AAF_" +:+ media_kind.

(** [str(v)] as used inside a format string. *)
Definition format_pyval (v : PyVal) : string :=
  match v with
  | PStr s => s
  | PInt z => str_of_Z z
  | PBool true => "True"
  | PBool false => "False"
  | PNone => "None"
  | _ => "?"
  end.

Definition _valuable_metadata (md : dict) : bool :=
  let metadata := get_dict md "AAF" in
  match dict_get metadata "ClassName" with
  | Some (PStr cn) =>
      bool_decide (cn = "CompositionMob")
      && opt_truthy (dict_get metadata "UserComments")
  | _ => false
  end.

Definition nonempty {A} (l : list A) : bool :=
  match l with [] => false | _ => true end.

Definition _has_effects (thing : Composable) : bool :=
  match item_of thing with
  | Some i => nonempty (effects i)
  | None => false
  end.

Definition is_time_warp (e : Effect) : bool :=
  opt_truthy
    (dict_get (get_dict (get_dict (e_metadata e) "AAF") "Operation")
              "IsTimeWarp").

Definition _has_time_effect (i : ItemData) : bool :=
  existsb is_time_warp (effects i).

(** [child.find_children(descended_from_type=Transition,
    shallow_search=True)] is non-empty. *)
Definition has_direct_transition (child : Composable) : result bool :=
  match children_of child with
  | Some cs => Ok (existsb is_transition cs)
  | None => Raise AttributeError
  end.

Fixpoint any_direct_transition (things : list Composable) : result bool :=
  match things with
  | [] => Ok false
  | child :: rest =>
      b ← has_direct_transition child;
      if b : bool then Ok true else any_direct_transition rest
  end.

Definition _has_transitions (thing : Composable) : result bool :=
  match thing with
  | Track _ _ _ => any_direct_transition [thing]
  | Stack _ cs => any_direct_transition cs
  | _ => Raise TypeError
  end.

Definition _track_item_can_flatten (thing : Composable) : result bool :=
  match thing with
  | Track i _ cs =>
      if _valuable_metadata (metadata i) then Ok false
      else if bool_decide (length cs = 1%nat) then Ok true
      else if _has_effects thing then Ok false
      else b ← _has_transitions thing; Ok (negb b)
  | _ => Ok false
  end.

Definition _stack_item_can_be_flatten (thing : Composable) : bool :=
  if _has_effects thing || _valuable_metadata (c_metadata thing) then false
  else match thing with
       | Stack _ _ => true
       | Track _ _ [child_stack] =>
           if negb (is_stack child_stack) then false
           else if _has_effects child_stack
                   || _valuable_metadata (c_metadata child_stack)
                then false else true
       | _ => false
       end.

Fixpoint _contains_something_valuable (thing : Composable) : bool :=
  match thing with
  | Transition _ => true
  | Clip i _ => true
  | Gap i =>
      if nonempty (effects i) || nonempty (markers i) then true
      else if _valuable_metadata (metadata i) then true
      else false
  | Track i _ cs | Stack i cs =>
      if nonempty (effects i) || nonempty (markers i) then true
      else if _valuable_metadata (metadata i) then true
      else existsb _contains_something_valuable cs
  end.

(** [_ensure_stack_tracks], for the children of a Stack. *)
Definition wrap_in_track (child : Composable) : Composable :=
  if is_track child then child
  else
    let kind :=
      match dict_get (get_dict (c_metadata child) "AAF") "MediaKind" with
      | Some media_kind =>
          if truthy media_kind
          then _transcribe_media_kind (format_pyval media_kind)
          else TrackKind_Video
      | None => TrackKind_Video
      end in
    Track (set_name (c_name child) new_item) kind [child].

Definition _ensure_stack_tracks (thing : Composable) : Composable :=
  match thing with
  | Stack i cs => Stack i (map wrap_in_track cs)
  | _ => thing
  end.

(** [TimeRange(duration=d)] *)
Definition TimeRange_of_duration (d : RationalTime) : TimeRange :=
  mkTR (mkRT 0 (rt_rate d)) d.

Section simplify.
Context `{OtioLib}.

Definition _trim_markers (thing : Composable) : result Composable :=
  match item_of thing with
  | None => Raise AttributeError
  | Some i =>
      match markers i, source_range i with
      | [], _ => Ok thing
      | _ :: _, None => Raise AttributeError
      | ms, Some sr =>
          Ok (with_item
                (set_markers
                   (List.filter
                      (λ m, range_contains sr (start_time (marked_range m)))
                      ms))
                thing)
      end
  end.

Definition _fix_time_effect_duration (thing : ItemData)
           (source_range_ : option TimeRange) : result ItemData :=
  match source_range_ with
  | None => Ok thing
  | Some sr =>
      match source_range thing with
      | None => Raise AttributeError
      | Some own =>
          Ok (set_source_range (Some (mkTR (start_time own) (duration sr)))
                               thing)
      end
  end.

(** The body of the Track loop once [child] is known to flatten: what is
    spliced in its place, and what the parent inherits. *)
Definition pull_up_track (child : Composable) (thing : ItemData)
  : result (list Composable * ItemData) :=
  child ← match item_of child ≫= source_range with
           | Some sr => track_trimmed_to_range child sr
           | None => Ok child
           end;
  match child with
  | Track ci _ children_of_child =>
      children_of_child ←
        match children_of_child with
        | [first_item] =>
            match item_of first_item with
            | None => Raise AttributeError
            | Some fi =>
                let fi := set_effects (effects fi ++ effects ci) fi in
                fi ← (if _has_time_effect fi
                      then _fix_time_effect_duration fi (source_range ci)
                      else Ok fi);
                Ok [with_item (λ _, fi) first_item]
            end
        | _ => Ok children_of_child
        end;
      Ok (children_of_child,
          set_enabled (enabled thing && enabled ci)
                      (set_markers (markers thing ++ markers ci) thing))
  | _ => Raise TypeError
  end.

(** The Track loop [while c >= 0]: [todo] is [thing[:c+1]] reversed,
    [done] is [thing[c+1:]]. *)
Fixpoint flatten_track_items (fuel : nat)
  : list Composable → list Composable → ItemData →
    result (list Composable * ItemData) :=
  fix loop (todo done : list Composable) (thing : ItemData) :=
    match todo with
    | [] => Ok (done, thing)
    | child :: todo' =>
        can ← _track_item_can_flatten child;
        if can : bool then
          match fuel with
          | O => Raise RecursionError
          | S fuel' =>
              '(children_of_child, thing) ← pull_up_track child thing;
              flatten_track_items fuel' (rev children_of_child ++ todo')
                                  done thing
          end
        else loop todo' (child :: done) thing
    end.

(** The Stack loop that looks for Stacks within Stacks. *)
Fixpoint flatten_stack_items (fuel : nat)
  : list Composable → list Composable → ItemData →
    result (list Composable * ItemData) :=
  fix loop (todo done : list Composable) (thing : ItemData) :=
    match todo with
    | [] => Ok (done, thing)
    | child :: todo' =>
        if _stack_item_can_be_flatten child then
          match fuel with
          | O => Raise RecursionError
          | S fuel' =>
              let child := match child with
                           | Track _ _ (inner :: _) => inner
                           | _ => child
                           end in
              match child with
              | Stack ci children_of_child =>
                  flatten_stack_items
                    fuel' (rev children_of_child ++ todo') done
                    (set_enabled (enabled thing && enabled ci)
                                 (set_markers (markers thing ++ markers ci)
                                              thing))
              | _ => Raise TypeError
              end
          end
        else loop todo' (child :: done) thing
    end.

(** Trimming the tracks of a Stack that has a source range. *)
Definition trim_stack_tracks (i : ItemData) (cs : list Composable)
  : result (list Composable * ItemData) :=
  match source_range i with
  | None => Ok (cs, i)
  | Some sr =>
      tr ← _has_transitions (Stack i cs);
      if tr : bool then Ok (cs, i)
      else
        cs ← mapM (λ child_track,
                     t ← track_trimmed_to_range child_track sr;
                     match t with
                     | Track ti k tcs =>
                         tcs ← mapM _trim_markers tcs; Ok (Track ti k tcs)
                     | Stack ti tcs =>
                         tcs ← mapM _trim_markers tcs; Ok (Stack ti tcs)
                     | _ => Raise TypeError
                     end) cs;
        Ok (cs, set_source_range
                  (Some (TimeRange_of_duration (duration sr))) i)
  end.

Definition _is_redundant_container (ctx : Ctx) (thing : Composable) : bool :=
  match thing with
  | Track i _ [child] =>
      if _valuable_metadata (metadata i) then false
      else
        let am_top_level_track := bool_decide (ctx = InRootStack) in
        negb am_top_level_track || is_track child
  | Stack i [child] =>
      if _valuable_metadata (metadata i) then false else true
  | _ => false
  end.

(** The replacement of a redundant container by a copy of its child. *)
Definition collapse (thing : ItemData) (child : Composable)
  : result Composable :=
  match item_of child with
  | None => Raise AttributeError
  | Some r =>
      let r := if enabled thing then r else set_enabled false r in
      let r := set_markers (markers r ++ markers thing) r in
      let r := set_effects (effects r ++ effects thing) r in
      match source_range thing with
      | None => Ok (with_item (λ _, r) child)
      | Some tsr =>
          match
            (own ← match source_range r with
                    | Some own => Ok own
                    | None => trimmed_range (with_item (λ _, r) child)
                    end;
             Ok (mkTR (rt_add (start_time own) (start_time tsr))
                      (duration tsr)))
          with
          | Ok sr => Ok (with_item (λ _, set_source_range (Some sr) r) child)
          | Raise CannotComputeAvailableRangeError =>
              Ok (with_item (λ _, set_source_range (Some tsr) r) child)
          | Raise e => Raise e
          end
      end
  end.

(** The tail of [_simplify] for a composition: what the object has become
    in place, and what is returned. *)
Definition finish (ctx : Ctx) (thing : Composable)
  : result (Composable * Composable) :=
  if _is_redundant_container ctx thing then
    match thing with
    | Track i _ [child] | Stack i [child] =>
        r ← collapse i child; Ok (thing, r)
    | _ => Ok (thing, thing)
    end
  else
    let thing := if is_stack thing && bool_decide (ctx = Detached)
                 then _ensure_stack_tracks thing else thing in
    Ok (thing, thing).

Definition child_ctx (ctx : Ctx) : Ctx :=
  match ctx with Detached => InRootStack | _ => Inside end.

(** [_simplify] on a composable: the pair of the object as mutated in place
    and of the returned object. *)
Fixpoint simplify_composable (ctx : Ctx) (thing : Composable)
  : result (Composable * Composable) :=
  match thing with
  | Clip _ _ | Gap _ | Transition _ => Ok (thing, thing)
  | Track _ _ [] | Stack _ [] => Ok (thing, thing)
  | Track i k cs =>
      cs ← mapM (λ child, r ← simplify_composable Inside child; Ok r.2) cs;
      '(cs, i) ← flatten_track_items (list_sum (map size cs)) (rev cs) [] i;
      finish ctx (Track i k cs)
  | Stack i cs =>
      cs ← mapM (λ child,
                   r ← simplify_composable (child_ctx ctx) child; Ok r.2) cs;
      let cs := List.filter _contains_something_valuable cs in
      '(cs, i) ← flatten_stack_items (list_sum (map size cs)) (rev cs) [] i;
      let cs := map wrap_in_track cs in
      '(cs, i) ← trim_stack_tracks i cs;
      finish ctx (Stack i cs)
  end.

Fixpoint _simplify (thing : Thing) : result Thing :=
  match thing with
  | TNone => Ok TNone
  | TMarker _ => Ok thing
  | TCollection _ _ [] => Ok thing
  | TCollection _ _ [only] => _simplify only
  | TCollection n md cs => cs ← mapM _simplify cs; Ok (TCollection n md cs)
  | TTimeline tl =>
      r ← simplify_composable Detached (Stack (tracks_item tl) (tracks tl));
      match (if is_stack r.2 then r.2 else r.1) with
      | Stack i cs =>
          Ok (TTimeline (mkTimeline (tl_name tl) (tl_metadata tl)
                                    (global_start_time tl) i cs))
      | _ => Raise TypeError
      end
  | TComposable c => r ← simplify_composable Detached c; Ok (TComposable r.2)
  end.

End simplify.

End Simplify.

(** ** The marker reattachment pass *)

Module Markers.

Definition Q_same (a b : Q) : bool :=
  (Qnum a =? Qnum b)%Z && (Qden a =? Qden b)%positive.

(** The same value, field by field (Python compares the objects by
    identity; distinct markers of a list are assumed to differ). *)
Fixpoint PyVal_same (a b : PyVal) : bool :=
  match a, b with
  | PNone, PNone => true
  | PBool x, PBool y => Bool.eqb x y
  | PInt x, PInt y => (x =? y)%Z
  | PStr x, PStr y => String.eqb x y
  | PFrac x, PFrac y => Q_same x y
  | PList l, PList l' =>
      (fix go l l' :=
         match l, l' with
         | [], [] => true
         | x :: l, y :: l' => PyVal_same x y && go l l'
         | _, _ => false
         end) l l'
  | PDict d, PDict d' =>
      (fix go d d' :=
         match d, d' with
         | [], [] => true
         | (k, x) :: d, (k', y) :: d' =>
             String.eqb k k' && PyVal_same x y && go d d'
         | _, _ => false
         end) d d'
  | _, _ => false
  end.

Definition RationalTime_same (a b : RationalTime) : bool :=
  Q_same (rt_value a) (rt_value b) && Q_same (rt_rate a) (rt_rate b).

Definition Marker_same (a b : Marker) : bool :=
  String.eqb (m_name a) (m_name b)
  && RationalTime_same (start_time (marked_range a)) (start_time (marked_range b))
  && RationalTime_same (duration (marked_range a)) (duration (marked_range b))
  && String.eqb (color a) (color b)
  && PyVal_same (PDict (m_metadata a)) (PDict (m_metadata b)).

(** [markers.remove(marker)]: the first equal element goes. *)
Fixpoint list_remove (marker : Marker) (l : list Marker) : result (list Marker) :=
  match l with
  | [] => Raise ValueError
  | m :: l' =>
      if Marker_same m marker then Ok l'
      else l'' ← list_remove marker l'; Ok (m :: l'')
  end.

Definition markers_of (c : Composable) : list Marker :=
  match item_of c with Some i => markers i | None => [] end.

Definition remove_marker (marker : Marker) (c : Composable) : result Composable :=
  match item_of c with
  | Some i =>
      ms ← list_remove marker (markers i); Ok (with_item (set_markers ms) c)
  | None => Raise AttributeError
  end.

Definition append_marker (marker : Marker) (c : Composable) : result Composable :=
  match item_of c with
  | Some i => Ok (with_item (set_markers (markers i ++ [marker])) c)
  | None => Raise AttributeError
  end.

(** [find_children(descended_from_type=Track)]: the tracks below [c], depth
    first, each before its own descendants. *)
Fixpoint find_tracks (c : Composable) (here : Path) : list Path :=
  match c with
  | Track _ _ cs | Stack _ cs =>
      (fix go (cs : list Composable) (i : nat) : list Path :=
         match cs with
         | [] => []
         | child :: cs' =>
             (if is_track child then [here ++ [i]] else [])
               ++ find_tracks child (here ++ [i])
               ++ go cs' (S i)
         end) cs 0%nat
  | _ => []
  end.

(** A raw metadata value as one half of a [tracks_map] key. *)
Definition as_key (v : option PyVal) : option Z :=
  match v with
  | Some (PInt z) => Some z
  | Some (PBool b) => Some (if b then 1 else 0)%Z
  | Some (PFrac q) =>
      if (Qden (Qred q) =? 1)%positive then Some (Qnum (Qred q)) else None
  | _ => None
  end.

Definition is_none (v : option PyVal) : bool :=
  match v with
  | None | Some PNone => true
  | _ => false
  end.

Fixpoint depth (c : Composable) : nat :=
  match c with
  | Track _ _ cs | Stack _ cs => S (foldr Nat.max 0%nat (map depth cs))
  | _ => 0%nat
  end.

Section markers.
Context `{OtioLib}.

(** The loop that builds [tracks_map]. *)
Fixpoint build_tracks_map (root : Composable) (tracks : list Path)
         (tracks_map : gmap (Z * Z) Path) : result (gmap (Z * Z) Path) :=
  match tracks with
  | [] => Ok tracks_map
  | track :: rest =>
      let metadata :=
        get_dict (default [] (c_metadata <$> get_at root track)) "AAF" in
      let slot_id := dict_get metadata "SlotID" in
      let track_number := dict_get metadata "PhysicalTrackNumber" in
      if is_none slot_id || is_none track_number
      then build_tracks_map root rest tracks_map
      else
        s ← py_int (default PNone slot_id);
        n ← py_int (default PNone track_number);
        build_tracks_map root rest (<[(s, n) := track]> tracks_map)
  end.

(** Same as [child_at_time] but passes through transitions. *)
Fixpoint _find_child_at_time (fuel : nat) (root : Composable)
         (target_track : Path) (start_time : RationalTime)
  : result (option Path) :=
  match fuel with
  | O => Raise RecursionError
  | S fuel' =>
      target_item ← child_at_time root target_track start_time;
      match target_item with
      | None => Ok None
      | Some q =>
          match get_at root q, reverse q with
          | Some (Transition _), index :: parent_rev =>
              let parent := reverse parent_rev in
              siblings ← match get_at root parent ≫= children_of with
                          | Some cs => Ok cs
                          | None => Raise AttributeError
                          end;
              (* [parent[index - 1]]; index -1 is the last child *)
              let before :=
                parent ++ [match index with
                           | O => (length siblings - 1)%nat
                           | S i => i
                           end] in
              start_local ←
                transformed_time root target_track start_time parent;
              rip ← range_in_parent root before;
              target_item ←
                (if range_contains rip start_local then Ok before
                 else if decide (S index < length siblings)%nat
                      then Ok (parent ++ [S index])
                      else Raise IndexError);
              match get_at root target_item ≫= children_of with
              | Some _ =>
                  start_local ←
                    transformed_time root parent start_time target_item;
                  _find_child_at_time fuel' root target_item start_local
              | None => Ok (Some target_item)
              end
          | _, _ => Ok (Some q)
          end
      end
  end.

Definition set_marked_start (t : RationalTime) (m : Marker) : Marker :=
  mkMarker (m_name m) (mkTR t (duration (marked_range m))) (color m)
           (m_metadata m).

Definition can_have_markers (root : Composable) (p : Path) : bool :=
  match get_at root p ≫= item_of with Some _ => true | None => false end.

(** The part of the loop body under [try]: the item to attach to and the
    marker with its range moved into that item's space. *)
Definition resolve_target (root : Composable) (current_track target_track : Path)
           (marker : Marker) : result (Path * Marker) :=
  target_item ←
    _find_child_at_time (S (depth root)) root target_track
                        (start_time (marked_range marker));
  let target_item :=
    match target_item with
    | Some p => if can_have_markers root p then p else target_track
    | None => target_track
    end in
  marked_start_local ←
    transformed_time root current_track (start_time (marked_range marker))
                     target_item;
  Ok (target_item, set_marked_start marked_start_local marker).

(** [tracks_map.get((slot_id, track_number))] for the marker's recorded
    attachment. *)
Definition target_track_of (tracks_map : gmap (Z * Z) Path) (marker : Marker)
  : option Path :=
  let metadata := get_dict (m_metadata marker) "AAF" in
  let slot_id := dict_get metadata "AttachedSlotID" in
  let track_number := dict_get metadata "AttachedPhysicalTrackNumber" in
  s ← as_key slot_id; n ← as_key track_number; tracks_map !! (s, n).

(** The body of the loop over the markers of [current_track]. *)
Definition attach_one (tracks_map : gmap (Z * Z) Path) (current_track : Path)
           (marker : Marker) (root : Composable) : result Composable :=
  let target_track := target_track_of tracks_map marker in
  root ← update_at (remove_marker marker) root current_track;
  '(target_item, marker) ←
    match target_track with
    | None =>
        (* add it directly to the timeline stack *)
        let target_item : Path := [] in
        marked_start_local ←
          transformed_time root current_track
                           (start_time (marked_range marker)) target_item;
        Ok (target_item, set_marked_start marked_start_local marker)
    | Some target_track =>
        match resolve_target root current_track target_track marker with
        | Raise CannotComputeAvailableRangeError => Ok (target_track, marker)
        | r => r
        end
    end;
  update_at (append_marker marker) root target_item.

Fixpoint attach_all (tracks_map : gmap (Z * Z) Path) (current_track : Path)
         (snapshot : list Marker) (root : Composable) : result Composable :=
  match snapshot with
  | [] => Ok root
  | marker :: rest =>
      root ← attach_one tracks_map current_track marker root;
      attach_all tracks_map current_track rest root
  end.

Fixpoint attach_tracks (tracks_map : gmap (Z * Z) Path) (tracks : list Path)
         (root : Composable) : result Composable :=
  match tracks with
  | [] => Ok root
  | current_track :: rest =>
      let snapshot := default [] (markers_of <$> get_at root current_track) in
      root ← attach_all tracks_map current_track snapshot root;
      attach_tracks tracks_map rest root
  end.

Definition root_of (tl : Timeline) : Composable :=
  Stack (tracks_item tl) (tracks tl).

Definition attach_timeline (timeline : Timeline) : result Timeline :=
  let root := root_of timeline in
  let tracks := find_tracks root [] in
  tracks_map ← build_tracks_map root tracks ∅;
  root ← attach_tracks tracks_map tracks root;
  match root with
  | Stack i cs =>
      Ok (mkTimeline (tl_name timeline) (tl_metadata timeline)
                     (global_start_time timeline) i cs)
  | _ => Raise TypeError
  end.

(** [_attach_markers]: every timeline of the collection is processed. *)
Fixpoint _attach_markers (collection : Thing) : result Thing :=
  match collection with
  | TTimeline tl => tl ← attach_timeline tl; Ok (TTimeline tl)
  | TCollection n md cs =>
      cs ← Simplify.mapM
             (λ child, match child with
                       | TTimeline _ | TCollection _ _ _ =>
                           _attach_markers child
                       | _ => Ok child
                       end) cs;
      Ok (TCollection n md cs)
  | TComposable (Track _ _ _) | TComposable (Stack _ _) => Ok collection
  | _ => Raise AttributeError
  end.

End markers.

End Markers.

(** ** The graph reader *)

Module Reader.

(** The read pass threads the mob cache [_MOB_TIMELINE_CACHE]; an exception
    abandons the pass. *)
Definition M (A : Type) : Type :=
  gmap MobID Timeline → result (A * gmap MobID Timeline).

Definition ret {A} (a : A) : M A := λ st, Ok (a, st).
Definition bindM {A B} (m : M A) (k : A → M B) : M B :=
  λ st, match m st with
        | Ok (a, st') => k a st'
        | Raise e => Raise e
        end.
Definition lift {A} (r : result A) : M A :=
  λ st, match r with Ok a => Ok (a, st) | Raise e => Raise e end.
Definition raise {A} (e : PyError) : M A := λ _, Raise e.
Definition cache_get (mob_id : MobID) : M (option Timeline) :=
  λ st, Ok (st !! mob_id, st).
Definition cache_put (mob_id : MobID) (tl : Timeline) : M unit :=
  λ st, Ok (tt, <[mob_id := tl]> st).

#[global] Instance M_ret : MRet M := @ret.
#[global] Instance M_bind : MBind M := λ A B k m, bindM m k.

(** [for ... in xs] with an accumulator, the position of each element at
    hand. *)
Definition foldM {A B} (f : B → nat → A → M B) : list A → nat → B → M B :=
  fix go l i s :=
    match l with
    | [] => ret s
    | x :: l' => bindM (f s i x) (go l' (S i))
    end.

Definition common (item : AAFObj) : option Common :=
  match item with
  | ContentStorage o _ | SourceMob o | MasterMob o _ _ | CompositionMob o _ _
  | SourceClip o _ _ _ _ _ | Transition_ o _ _ _ | Filler o _ _
  | NestedScope o _ _ _ | Sequence o _ _ _ | OperationGroup o _ _ _
  | TimelineMobSlot o _ _ _ _ _ | MobSlot _ o _ _ _ _ | Timecode o _ _ _
  | Pulldown o _ _ | EdgeCode o _ _ | ScopeReference o _ _
  | DescriptiveMarker o _ _ _ | Selector o _ _ _ _ | OtherObject o => Some o
  | PyList _ => None
  end.

(** [hasattr(item, 'media_kind')] and its value. *)
Definition media_kind_of (item : AAFObj) : option string :=
  match item with
  | SourceClip _ k _ _ _ _ | Transition_ _ k _ _ | Filler _ k _
  | NestedScope _ k _ _ | Sequence _ k _ _ | OperationGroup _ k _ _
  | TimelineMobSlot _ k _ _ _ _ | MobSlot _ _ k _ _ _ | Timecode _ k _ _
  | Pulldown _ k _ | EdgeCode _ k _ | ScopeReference _ k _
  | DescriptiveMarker _ k _ _ | Selector _ k _ _ _ => Some k
  | _ => None
  end.

(** [hasattr(item, "edit_rate")] and its value. *)
Definition edit_rate_of (item : AAFObj) : option Q :=
  match item with
  | TimelineMobSlot _ _ r _ _ _ | MobSlot _ _ _ r _ _ => Some r
  | _ => None
  end.

(** [item.length] for a Component, as the metadata value. *)
Definition length_of (item : AAFObj) : option PyVal :=
  match item with
  | SourceClip _ _ l _ _ _ | Transition_ _ _ l _ | Filler _ _ l
  | NestedScope _ _ l _ | Sequence _ _ l _ | Timecode _ _ l _
  | Pulldown _ _ l | EdgeCode _ _ l | ScopeReference _ _ l
  | Selector _ _ l _ _ => Some (PInt l)
  | OperationGroup _ _ og _ => Some (PInt (og_length og))
  | DescriptiveMarker _ _ (Some l) _ => Some (PInt l)
  | DescriptiveMarker _ _ None _ => Some PNone
  | _ => None
  end.

Definition _get_class_name (item : AAFObj) : string :=
  match common item with
  | Some o => class_name o
  | None => "list"
  end.

Definition name_or (o : option Common) (fallback : string) : string :=
  match o ≫= raw_name with
  | Some n => if String.eqb n "" then fallback else n
  | None => fallback
  end.

Definition thing_name (t : Thing) : string :=
  match t with
  | TNone => ""
  | TMarker m => m_name m
  | TComposable c => c_name c
  | TTimeline tl => tl_name tl
  | TCollection n _ _ => n
  end.

Definition set_transition_name (n : string) (t : TransitionData) : TransitionData :=
  mkTransition n (t_metadata t) (in_offset t) (out_offset t).
Definition set_transition_metadata (md : dict) (t : TransitionData)
  : TransitionData :=
  mkTransition (t_name t) md (in_offset t) (out_offset t).

Definition set_thing_name (n : string) (t : Thing) : Thing :=
  match t with
  | TNone => TNone
  | TMarker m => TMarker (mkMarker n (marked_range m) (color m) (m_metadata m))
  | TComposable (Transition x) => TComposable (Transition (set_transition_name n x))
  | TComposable c => TComposable (with_item (set_name n) c)
  | TTimeline tl =>
      TTimeline (mkTimeline n (tl_metadata tl) (global_start_time tl)
                            (tracks_item tl) (tracks tl))
  | TCollection _ md cs => TCollection n md cs
  end.

Definition thing_metadata (t : Thing) : dict :=
  match t with
  | TNone => []
  | TMarker m => m_metadata m
  | TComposable c => c_metadata c
  | TTimeline tl => tl_metadata tl
  | TCollection _ md _ => md
  end.

Definition set_thing_metadata (md : dict) (t : Thing) : Thing :=
  match t with
  | TNone => TNone
  | TMarker m => TMarker (mkMarker (m_name m) (marked_range m) (color m) md)
  | TComposable (Transition x) =>
      TComposable (Transition (set_transition_metadata md x))
  | TComposable c => TComposable (with_item (set_metadata md) c)
  | TTimeline tl =>
      TTimeline (mkTimeline (tl_name tl) md (global_start_time tl)
                            (tracks_item tl) (tracks tl))
  | TCollection n _ cs => TCollection n md cs
  end.

(** [a == b] on metadata values (a missing key reads as [None]). *)
Definition numeric (v : PyVal) : option Q :=
  match v with
  | PInt z => Some (inject_Z z)
  | PBool b => Some (if b then 1 else 0)%Q
  | PFrac q => Some q
  | _ => None
  end.

Definition py_eq (a b : option PyVal) : bool :=
  let a := default PNone a in
  let b := default PNone b in
  match numeric a, numeric b with
  | Some x, Some y => Qeq_bool x y
  | None, None => Markers.PyVal_same a b
  | _, _ => false
  end.

(** [_add_child] into a composition. *)
Definition _add_child (parent : ItemData * list Composable) (child : Thing)
  : result (ItemData * list Composable) :=
  match child with
  | TNone => Ok parent
  | TMarker m => Ok (set_markers (markers parent.1 ++ [m]) parent.1, parent.2)
  | TComposable c => Ok (parent.1, parent.2 ++ [c])
  | _ => Raise TypeError
  end.

(** [_add_child] into a SerializableCollection. *)
Definition _add_child_collection (parent : list Thing) (child : Thing)
  : result (list Thing) :=
  match child with
  | TNone => Ok parent
  | TMarker _ => Raise AttributeError
  | _ => Ok (parent ++ [child])
  end.

(** [bool(child)] for a transcribed object. *)
Definition thing_truthy (t : Thing) : bool :=
  match t with
  | TNone => false
  | TComposable (Track _ _ []) | TComposable (Stack _ []) => false
  | TCollection _ _ [] => false
  | _ => true
  end.

Definition gap_of_length (length : Z) (edit_rate : option Q) : result Thing :=
  zero ← RationalTime_ 0 edit_rate;
  duration ← RationalTime_ length edit_rate;
  Ok (TComposable (Gap (set_source_range (Some (mkTR zero duration)) new_item))).

(** The first component of the slot that is a Timecode
    ([_resolve_single_slot_component]). *)
Definition slot_timecode (slot : AAFObj) : option (Z * Z) :=
  let segment := match slot with
                 | TimelineMobSlot _ _ _ _ _ seg | MobSlot _ _ _ _ _ seg => Some seg
                 | _ => None
                 end in
  let components := match segment with
                    | Some (Sequence _ _ _ cs) => cs
                    | Some seg => [seg]
                    | None => []
                    end in
  head (omap (λ c, match c with
                   | Timecode _ _ length start => Some (start, length)
                   | _ => None
                   end) components).

Definition slot_track_number (slot : AAFObj) : option Z :=
  match slot with
  | TimelineMobSlot _ _ _ _ n _ | MobSlot _ _ _ _ n _ => n
  | _ => None
  end.

Fixpoint _get_mob_start_tc (slots : list AAFObj) : option TimeRange :=
  match slots with
  | [] => None
  | slot :: rest =>
      match slot_timecode slot, slot_track_number slot, edit_rate_of slot with
      | Some (start, length), Some 1%Z, Some edit_rate =>
          Some (mkTR (mkRT (inject_Z start) edit_rate)
                     (mkRT (inject_Z length) edit_rate))
      | _, _, _ => _get_mob_start_tc rest
      end
  end.

Definition is_timeline_slot (item : AAFObj) : bool :=
  match item with TimelineMobSlot _ _ _ _ _ _ => true | _ => false end.
Definition is_event_slot (item : AAFObj) : bool :=
  match item with MobSlot EventMobSlot _ _ _ _ _ => true | _ => false end.

(** The tail of [_transcribe]: name, metadata, length check, track kind. *)
Definition postprocess (item : AAFObj) (result_ : Thing) (metadata : dict)
  : result Thing :=
  match result_ with
  | TNone => Ok TNone
  | _ =>
      result_ ←
        (if String.eqb (thing_name result_) "" then
           match dict_get metadata "Name" with
           | Some (PStr n) => Ok (set_thing_name n result_)
           | Some _ => Raise TypeError
           | None => Ok result_
           end
         else Ok result_);
      let result_ :=
        match dict_get (thing_metadata result_) "AAF" with
        | Some _ => result_
        | None =>
            set_thing_metadata
              (dict_set (thing_metadata result_) "AAF" (PDict metadata)) result_
        end in
      _ ← match result_ with
           | TComposable c =>
               match item_of c, dict_get metadata "Length" with
               | Some i, Some length =>
                   match source_range i with
                   | Some sr =>
                       if truthy length
                          && negb (match numeric length with
                                   | Some l => Qeq_bool (rt_value (duration sr)) l
                                   | None => false
                                   end)
                       then Raise (AAFAdapterError "Wrong duration?")
                       else Ok tt
                   | None => Ok tt
                   end
               | _, _ => Ok tt
               end
           | _ => Ok tt
           end;
      Ok (match result_, media_kind_of item with
          | TComposable (Track i _ cs), Some k =>
              TComposable (Track i (Simplify._transcribe_media_kind k) cs)
          | _, _ => result_
          end)
  end.

Section reader.
Context `{OtioLib} `{PyFloat}.

(** The mobs of the file, by mob id ([source_clip.mob] looks here). *)
Variable mobs : gmap MobID AAFObj.

Definition _get_name (item : AAFObj) : string :=
  match item with
  | SourceClip _ _ _ _ mob _ =>
      match mob ≫= (mobs !!.) with
      | Some m => name_or (common m) "Untitled SourceClip"
      | None => "SourceClip Missing Mob"
      end
  | _ => name_or (common item) (_get_class_name item)
  end.

(** The standard properties gathered before the class dispatch. *)
Definition initial_metadata (item : AAFObj) : dict :=
  let metadata := [("Name", PStr (_get_name item))] in
  let metadata := match common item with
                  | Some o => dict_update metadata (props o)
                  | None => metadata
                  end in
  let metadata := match media_kind_of item with
                  | Some k => dict_set metadata "MediaKind" (PStr k)
                  | None => metadata
                  end in
  match length_of item with
  | Some l => dict_set metadata "Length" l
  | None => metadata
  end.

Definition effects_of_thing (t : Thing) : result (list Effect) :=
  match t with
  | TComposable c =>
      match item_of c with
      | Some i => Ok (effects i)
      | None => Raise AttributeError
      end
  | _ => Raise AttributeError
  end.

Definition append_point (metadata : dict) (cp : ControlPoint) : result dict :=
  let point := PDict [("Value", PFrac (cp_value cp)); ("Time", PFrac (cp_time cp))] in
  match dict_get metadata "PointList" with
  | None => Ok (dict_set metadata "PointList" (PList [point]))
  | Some (PList l) => Ok (dict_set metadata "PointList" (PList (l ++ [point])))
  | Some _ => Raise AttributeError
  end.

Fixpoint append_points (metadata : dict) (cps : list ControlPoint)
  : result dict :=
  match cps with
  | [] => Ok metadata
  | cp :: rest => metadata ← append_point metadata cp; append_points metadata rest
  end.

Fixpoint first_varying (ps : list AAFParameter) : option (list ControlPoint) :=
  match ps with
  | [] => None
  | VaryingValue _ pl :: _ => Some pl
  | _ :: rest => first_varying rest
  end.

(** The Transition branch once its operation group has been transcribed
    ([op_group] is [None] when the transition has none). *)
Definition transcribe_transition (length : Z) (op_group_item : option AAFObj)
           (op_group : option Thing) (edit_rate : option Q) (metadata : dict)
  : result (Thing * dict) :=
  metadata ← match op_group with
              | None => Ok metadata
              | Some g =>
                  es ← effects_of_thing g;
                  match es with
                  | e :: _ =>
                      Ok (dict_set metadata "OperationGroup"
                                   (PDict (get_dict (e_metadata e) "AAF")))
                  | [] => Ok metadata
                  end
              end;
  parameters ← match op_group_item with
                | Some (OperationGroup _ _ og _) => Ok (og_parameters og)
                | _ => Raise AttributeError
                end;
  metadata ← match first_varying parameters with
              | Some pl => append_points metadata pl
              | None => Ok metadata
              end;
  in_offset ← py_int (default (PStr "0") (dict_get metadata "CutPoint"));
  let out_offset := (length - in_offset)%Z in
  in_rt ← RationalTime_ in_offset edit_rate;
  out_rt ← RationalTime_ out_offset edit_rate;
  Ok (TComposable (Transition (mkTransition "" [] in_rt out_rt)), metadata).

(** The effect of an operation group. *)
Definition operation_effect (item : OpGroupData) (operation parameters : dict)
           (op_name : string) : result Effect :=
  effect ←
    (if opt_truthy (dict_get operation "IsTimeWarp") then
       if String.eqb op_name "Motion Control" then
         match TimeWarp._get_parameter item "SpeedRatio" with
         | Some _ => TimeWarp._transcribe_linear_timewarp item parameters
         | None => Ok (TimeWarp._transcribe_fancy_timewarp item parameters)
         end
       else Ok (mkEffect STimeEffect (Some op_name) "" [])
     else Ok (mkEffect SEffect (Some op_name) "" []));
  Ok (mkEffect (e_schema effect) (e_name effect) (effect_name effect)
               [("AAF", PDict [("Operation", PDict operation);
                               ("Parameters", PDict parameters)])]).

Definition slot_id_matches (slot_id : Z) (track : Composable) : bool :=
  py_eq (dict_get (get_dict (c_metadata track) "AAF") "SlotID")
        (Some (PInt slot_id)).

(** The markers of the other tracks that point at the referenced slot,
    gathered on a track of their own.  The loop also leaves the AAF
    metadata of the last marker it looked at in [metadata]. *)
Definition marker_track_step (slot_id : Z) (slot_track outer : Composable)
           (track_number : option PyVal)
           (acc : option Composable * dict) (marker : Marker)
  : result (option Composable * dict) :=
  let metadata := get_dict (m_metadata marker) "AAF" in
  let attached_slot_id := dict_get metadata "AttachedSlotID" in
  let attached_track_number := dict_get metadata "AttachedPhysicalTrackNumber" in
  if py_eq track_number attached_track_number
     && py_eq (Some (PInt slot_id)) attached_slot_id
  then
    marker_track ←
      match acc.1 with
      | Some marker_track => Ok marker_track
      | None =>
          match outer with
          | Track oi kind _ =>
              gap_range ← available_range slot_track;
              Ok (Track (set_name (name oi) new_item) kind
                        [Gap (set_source_range (Some gap_range) new_item)])
          | _ => Raise AttributeError
          end
      end;
    Ok (Some (with_item (λ i, set_markers (markers i ++ [marker]) i)
                        marker_track), metadata)
  else Ok (acc.1, metadata).

Fixpoint fold_result {A B} (f : B → A → result B) (l : list A) (b : B)
  : result B :=
  match l with
  | [] => Ok b
  | x :: l' => b ← f b x; fold_result f l' b
  end.

Definition marker_track_of (slot_id : Z) (slot_track : Composable)
           (mob_tracks : list Composable) (metadata : dict)
  : result (option Composable * dict) :=
  let track_number :=
    dict_get (get_dict (c_metadata slot_track) "AAF") "PhysicalTrackNumber" in
  fold_result
    (λ acc track,
       if slot_id_matches slot_id track then Ok acc
       else
         match children_of track with
         | None => Raise AttributeError
         | Some _ =>
             let sub_tracks :=
               track :: omap (get_at track) (Markers.find_tracks track []) in
             fold_result
               (λ acc current_track,
                  fold_result
                    (marker_track_step slot_id slot_track track track_number)
                    (Markers.markers_of current_track) acc)
               sub_tracks acc
         end)
    mob_tracks (None, metadata).

(** The SourceClip branch once the referenced mob has been transcribed. *)
Definition transcribe_source_clip (media_kind : string) (length start slot_id : Z)
           (mob : option AAFObj) (mob_timeline : option Timeline)
           (edit_rate : option Q) (metadata : dict) : result (Thing * dict) :=
  duration ← RationalTime_ length edit_rate;
  start_rt ← RationalTime_ start edit_rate;
  let source_range_ := mkTR start_rt duration in
  let slot_track :=
    mob_timeline ≫= λ tl, head (List.filter (slot_id_matches slot_id) (tracks tl)) in
  match mob, mob_timeline, slot_track with
  | Some (CompositionMob _ _ _), Some tl, Some slot_track =>
      if negb (is_track slot_track) then Raise (AAFAdapterError "assertion")
      else
        aaf ← match dict_get (tl_metadata tl) "AAF" with
               | Some (PDict d) => Ok d
               | Some _ => Raise TypeError
               | None => Raise KeyError
               end;
        let item :=
          mkItem (tl_name tl)
                 [("AAF", PDict (dict_set aaf "MediaKind" (PStr media_kind)))]
                 (Some source_range_) [] [] true in
        '(marker_track, metadata) ←
          marker_track_of slot_id slot_track (tracks tl) metadata;
        Ok (TComposable
              (Stack item (slot_track :: match marker_track with
                                         | Some t => [t]
                                         | None => []
                                         end)), metadata)
  | Some _, Some _, Some slot_track =>
      Ok (TComposable (with_item (set_source_range (Some source_range_))
                                 slot_track), metadata)
  | _, _, _ =>
      zero ← RationalTime_ 0 edit_rate;
      Ok (TComposable (Gap (set_source_range (Some (mkTR zero duration))
                                             new_item)), metadata)
  end.

Definition last_parent (parents : list (AAFObj * nat)) : result (AAFObj * nat) :=
  match last parents with
  | Some p => Ok p
  | None => Raise IndexError
  end.

(** The metadata a Sequence adds when it sits inside a Sequence or a
    NestedScope. *)
Definition sequence_metadata (parents : list (AAFObj * nat)) (metadata : dict)
  : result dict :=
  parent ← last_parent parents;
  match parent.1 with
  | Sequence _ _ _ _ | NestedScope _ _ _ _ =>
      match last (List.filter (λ p, is_timeline_slot p.1) parents) with
      | None => Raise IndexError
      | Some (TimelineMobSlot _ _ _ slot_id _ _, _) =>
          let metadata :=
            match parent.1 with
            | NestedScope _ _ _ _ =>
                dict_set metadata "PhysicalTrackNumber"
                         (PInt (Z.of_nat parent.2 + 1))
            | _ => metadata
            end in
          Ok (dict_set metadata "SlotID" (PInt slot_id))
      | Some _ => Ok metadata
      end
  | _ => Ok metadata
  end.

Definition from_frames (frame : PyVal) (edit_rate : option Q)
  : result RationalTime :=
  f ← py_int frame; RationalTime_ f edit_rate.

Definition transcribe_descriptive_marker (marker_color : string)
           (parents : list (AAFObj * nat)) (edit_rate : option Q)
           (metadata : dict) : result (Thing * dict) :=
  match last (List.filter (λ p, is_event_slot p.1) parents) with
  | None => Ok (TNone, metadata)
  | Some (event_mob, _) =>
      name ← match dict_get metadata "Comment" with
              | Some (PStr n) => Ok n
              | Some _ => Raise TypeError
              | None => Raise KeyError
              end;
      slot ← match dict_get metadata "DescribedSlots" with
              | Some (PList (v :: _)) => py_int v
              | Some (PList []) => Raise IndexError
              | Some _ => Raise TypeError
              | None => Raise KeyError
              end;
      let metadata := dict_set metadata "AttachedSlotID" (PInt slot) in
      number ← match slot_track_number event_mob with
                | Some n => Ok n
                | None => Raise TypeError
                end;
      let metadata :=
        dict_set metadata "AttachedPhysicalTrackNumber" (PInt number) in
      position ← match dict_get metadata "Position" with
                  | Some v => Ok v
                  | None => Raise KeyError
                  end;
      let length := match dict_get metadata "Length" with
                    | Some PNone | None => PInt 1
                    | Some l => l
                    end in
      start ← from_frames position edit_rate;
      duration ← from_frames length edit_rate;
      Ok (TMarker (mkMarker name (mkTR start duration) marker_color []),
          metadata)
  end.

Definition set_disabled (t : Thing) : result Thing :=
  match t with
  | TComposable c =>
      match item_of c with
      | Some _ => Ok (TComposable (with_item (set_enabled false) c))
      | None => Raise AttributeError
      end
  | _ => Raise AttributeError
  end.

Definition is_filler_or_scope_reference (item : AAFObj) : bool :=
  match item with
  | Filler _ _ _ | ScopeReference _ _ _ => true
  | _ => false
  end.

(** The class dispatch of [_transcribe]; [rec] is [_transcribe] itself. *)
Definition dispatch
           (rec : AAFObj → list (AAFObj * nat) → option Q → M Thing)
           (item : AAFObj) (parents : list (AAFObj * nat))
           (edit_rate : option Q) (metadata : dict) : M (Thing * dict) :=
  match item with
  | ContentStorage _ compositionmobs =>
      children ←
        foldM (λ acc i mob,
                 child ← rec mob (parents ++ [(item, i)]) edit_rate;
                 lift (_add_child_collection acc child))
              compositionmobs 0%nat [];
      mret (TCollection "" [] children, metadata)
  | SourceMob _ =>
      raise (AAFAdapterError "AAF parsing error: unexpected SourceMob")
  | MasterMob o mob_id slots =>
      cached ← cache_get mob_id;
      match cached with
      | Some tl => mret (TTimeline tl, metadata)
      | None =>
          (* [_transcribe_master_mob] *)
          name ← lift (match raw_name o with
                       | Some n => Ok n
                       | None => Raise TypeError
                       end);
          tracks ←
            foldM (λ acc i slot,
                     match slot.1 with
                     | MobSlot EventMobSlot _ _ rate _ _ =>
                         slot_track ←
                           rec slot.1 (parents ++ [(item, i)]) (Some rate);
                         match slot_track with
                         | TComposable c => mret (acc ++ [c])
                         | _ => raise TypeError
                         end
                     | TimelineMobSlot _ _ _ _ _ _ =>
                         slot_track ← lift slot.2; mret (acc ++ [slot_track])
                     | MobSlot _ _ _ _ _ _ => mret acc
                     | _ => raise AttributeError
                     end)
                  slots 0%nat [];
          tl ← lift (Markers.attach_timeline
                       (mkTimeline name [] None new_item tracks));
          _ ← cache_put mob_id tl;
          mret (TTimeline tl, metadata)
      end
  | CompositionMob _ mob_id slots =>
      cached ← cache_get mob_id;
      match cached with
      | Some tl => mret (TTimeline tl, metadata)
      | None =>
          tracks ←
            foldM (λ acc i slot,
                     track ← rec slot (parents ++ [(item, i)]) edit_rate;
                     lift (_add_child acc track))
                  slots 0%nat (new_item, []);
          let tl := mkTimeline "" [] (start_time <$> _get_mob_start_tc slots)
                               tracks.1 tracks.2 in
          _ ← cache_put mob_id tl;
          mret (TTimeline tl, metadata)
      end
  | SourceClip _ media_kind length start mob_id slot_id =>
      let mob := mob_id ≫= (mobs !!.) in
      _ ← lift (RationalTime_ length edit_rate);
      _ ← lift (RationalTime_ start edit_rate);
      mob_timeline ←
        match mob with
        | Some (MasterMob _ _ _ as m) | Some (CompositionMob _ _ _ as m) =>
            t ← rec m [] edit_rate;
            match t with
            | TTimeline tl => mret (Some tl)
            | _ => raise AttributeError
            end
        | _ => mret None
        end;
      lift (transcribe_source_clip media_kind length start slot_id mob
                                   mob_timeline edit_rate metadata)
  | Transition_ _ _ length op_group_item =>
      op_group ←
        match op_group_item with
        | Some g => t ← rec g (parents ++ [(item, 0%nat)]) edit_rate;
                    mret (Some t)
        | None => mret None
        end;
      lift (transcribe_transition length op_group_item op_group edit_rate
                                  metadata)
  | Filler _ _ length =>
      g ← lift (gap_of_length length edit_rate); mret (g, metadata)
  | NestedScope _ _ _ slots =>
      r ← foldM (λ acc i slot,
                   child ← rec slot (parents ++ [(item, i)]) edit_rate;
                   lift (_add_child acc child))
                slots 0%nat (new_item, []);
      mret (TComposable (Stack r.1 r.2), metadata)
  | Sequence _ _ _ components =>
      metadata ← lift (sequence_metadata parents metadata);
      r ← foldM (λ acc i component,
                   child ← rec component (parents ++ [(item, i)]) edit_rate;
                   lift (_add_child acc child))
                components 0%nat (new_item, []);
      mret (TComposable (Track r.1 TrackKind_Video r.2), metadata)
  | OperationGroup _ _ og input_segments =>
      (* [_transcribe_operation_group] *)
      let operation := get_dict metadata "Operation" in
      let parameters := get_dict metadata "Parameters" in
      op_name ← lift (match dict_get operation "Name" with
                      | Some (PStr n) => Ok n
                      | _ => Raise TypeError
                      end);
      length ← lift (match dict_get metadata "Length" with
                     | Some (PInt l) => Ok l
                     | _ => Raise TypeError
                     end);
      zero ← lift (RationalTime_ 0 edit_rate);
      duration ← lift (RationalTime_ length edit_rate);
      effect ← lift (operation_effect og operation parameters op_name);
      let result_ :=
        mkItem op_name [] (Some (mkTR zero duration)) [effect] [] true in
      r ← foldM (λ acc i segment,
                   child ← rec segment (parents ++ [(item, i)]) edit_rate;
                   if thing_truthy child then lift (_add_child acc child)
                   else mret acc)
                (default [] input_segments) 0%nat (result_, []);
      mret (TComposable (Stack r.1 r.2), metadata)
  | TimelineMobSlot _ _ _ _ _ segment | MobSlot _ _ _ _ _ segment =>
      child ← rec segment (parents ++ [(item, 0%nat)]) edit_rate;
      r ← lift (_add_child (new_item, []) child);
      mret (TComposable (Track r.1 TrackKind_Video r.2), metadata)
  | Timecode _ _ _ _ | Pulldown _ _ _ | EdgeCode _ _ _ =>
      mret (TNone, metadata)
  | ScopeReference _ _ length =>
      g ← lift (gap_of_length length edit_rate); mret (g, metadata)
  | DescriptiveMarker _ _ _ marker_color =>
      lift (transcribe_descriptive_marker marker_color parents edit_rate
                                          metadata)
  | Selector _ _ _ selected alternates =>
      if is_filler_or_scope_reference selected then
        match alternates with
        | None => raise TypeError          (* [len(None)] in the message *)
        | Some [alternate] =>
            result_ ← rec alternate (parents ++ [(item, 0%nat)]) edit_rate;
            result_ ← lift (set_disabled result_);
            mret (result_, metadata)
        | Some alts =>
            raise (AAFAdapterError
                     ("AAF Selector parsing error: object has unexpected number of alternates - "
                        +:+ pretty (length alts)))
        end
      else
        result_ ← rec selected (parents ++ [(item, 0%nat)]) edit_rate;
        match result_ with
        | TComposable (Gap _) =>
            raise (AAFAdapterError "AAF Selector parsing error")
        | _ =>
            alts ←
              match alternates with
              | None => mret PNone
              | Some alts =>
                  ts ← foldM (λ acc i alt,
                                t ← rec alt (parents ++ [(item, i)]) edit_rate;
                                mret (acc ++ [PStr (thing_name t)]))
                             alts 0%nat [];
                  mret (PList ts)
              end;
            mret (result_, dict_set metadata "alternates" alts)
        end
  | PyList items =>
      children ←
        foldM (λ acc i child,
                 t ← rec child (parents ++ [(item, i)]) edit_rate;
                 match t with
                 | TNone => raise TypeError
                 | _ => mret (acc ++ [t])
                 end)
              items 0%nat [];
      mret (TCollection "" [] children, metadata)
  | OtherObject _ => mret (TNone, metadata)
  end.

(** The cache entry and the returned timeline are one object: what the
    tail of [_transcribe] fills in is seen through the cache as well. *)
Definition sync_cache (item : AAFObj) (result_ : Thing) : M unit :=
  match item, result_ with
  | MasterMob _ mob_id _, TTimeline tl
  | CompositionMob _ mob_id _, TTimeline tl => cache_put mob_id tl
  | _, _ => mret tt
  end.

Fixpoint _transcribe (fuel : nat) (item : AAFObj)
         (parents : list (AAFObj * nat)) (edit_rate : option Q) : M Thing :=
  match fuel with
  | O => raise RecursionError
  | S fuel' =>
      let metadata := initial_metadata item in
      let edit_rate := match edit_rate_of item with
                       | Some r => Some r
                       | None => edit_rate
                       end in
      r ← dispatch (_transcribe fuel') item parents edit_rate metadata;
      result_ ← lift (postprocess item r.1 r.2);
      _ ← sync_cache item result_;
      mret result_
  end.

(** The loop over the slots of a composition mob, as [_transcribe] runs
    it with [fuel] left. *)
Definition slot_tracks (fuel : nat) (item : AAFObj) (slots : list AAFObj)
           (parents : list (AAFObj * nat)) (edit_rate : option Q)
  : M (ItemData * list Composable) :=
  foldM (λ acc i slot,
           track ← _transcribe fuel slot (parents ++ [(item, i)]) edit_rate;
           lift (_add_child acc track))
        slots 0%nat (new_item, []).

End reader.

(** The mobs that go through the cache, with their id. *)
Definition is_cached_mob (item : AAFObj) : option MobID :=
  match item with
  | MasterMob _ mob_id _ | CompositionMob _ mob_id _ => Some mob_id
  | _ => None
  end.

End Reader.

(** ** A small reference library for running examples

    A direct reading of the OpenTimelineIO algorithms the adapter calls, for
    trees whose items carry explicit ranges: tracks lay their items end to
    end, stacks start every child at zero.  The statements of Part II hold
    for every [OtioLib]; this one is used to evaluate concrete inputs. *)

Module SimpleOtio.

Definition seconds (t : RationalTime) : Q := (rt_value t / rt_rate t)%Q.

Definition rescaled (t : RationalTime) (rate : Q) : Q :=
  (rt_value t * rate / rt_rate t)%Q.

Definition simple_add (a b : RationalTime) : RationalTime :=
  if Qlt_le_dec (rt_rate a) (rt_rate b)
  then mkRT (Qred (rescaled a (rt_rate b) + rt_value b)) (rt_rate b)
  else mkRT (Qred (rescaled b (rt_rate a) + rt_value a)) (rt_rate a).

Definition simple_sub (a b : RationalTime) : RationalTime :=
  if Qlt_le_dec (rt_rate a) (rt_rate b)
  then mkRT (Qred (rescaled a (rt_rate b) - rt_value b)) (rt_rate b)
  else mkRT (Qred (rt_value a - rescaled b (rt_rate a))) (rt_rate a).

Definition lt (a b : RationalTime) : bool :=
  negb (Qle_bool (seconds b) (seconds a)).
Definition le (a b : RationalTime) : bool := Qle_bool (seconds a) (seconds b).

Definition end_time (r : TimeRange) : RationalTime :=
  simple_add (start_time r) (duration r).

Definition simple_contains (r : TimeRange) (t : RationalTime) : bool :=
  le (start_time r) t && lt t (end_time r).

Definition contains_range (r other : TimeRange) : bool :=
  le (start_time r) (start_time other) && le (end_time other) (end_time r).

Definition intersects (r other : TimeRange) : bool :=
  lt (start_time r) (end_time other) && lt (start_time other) (end_time r).

Definition zero : RationalTime := mkRT 0 1.

Definition sumM (f : Composable → result RationalTime)
  : list Composable → result RationalTime :=
  fix go l :=
    match l with
    | [] => Ok zero
    | c :: l' => d ← f c; ds ← go l'; Ok (simple_add d ds)
    end.

Definition maxM (f : Composable → result RationalTime)
  : list Composable → result RationalTime :=
  fix go l :=
    match l with
    | [] => Ok zero
    | c :: l' => d ← f c; ds ← go l'; Ok (if lt d ds then ds else d)
    end.

(** [item.duration()] *)
Fixpoint simple_duration (c : Composable) : result RationalTime :=
  match c with
  | Transition t => Ok (simple_add (in_offset t) (out_offset t))
  | Clip i a =>
      match source_range i, a with
      | Some r, _ | None, Some r => Ok (duration r)
      | None, None => Raise CannotComputeAvailableRangeError
      end
  | Gap i =>
      match source_range i with
      | Some r => Ok (duration r)
      | None => Ok zero
      end
  | Track i _ cs =>
      match source_range i with
      | Some r => Ok (duration r)
      | None =>
          sumM (λ c, if is_transition c then Ok zero else simple_duration c) cs
      end
  | Stack i cs =>
      match source_range i with
      | Some r => Ok (duration r)
      | None => maxM simple_duration cs
      end
  end.

Definition simple_available_range (c : Composable) : result TimeRange :=
  match c with
  | Clip _ (Some r) => Ok r
  | Clip _ None => Raise CannotComputeAvailableRangeError
  | Transition _ => Raise AttributeError
  | Gap i => d ← simple_duration c; Ok (mkTR (mkRT 0 (rt_rate d)) d)
  | Track i k cs =>
      d ← simple_duration (Track (set_source_range None i) k cs);
      Ok (mkTR (mkRT 0 (rt_rate d)) d)
  | Stack i cs =>
      d ← simple_duration (Stack (set_source_range None i) cs);
      Ok (mkTR (mkRT 0 (rt_rate d)) d)
  end.

Definition simple_trimmed_range (c : Composable) : result TimeRange :=
  match c with
  | Transition _ => Raise AttributeError
  | _ => match item_of c ≫= source_range with
         | Some r => Ok r
         | None => simple_available_range c
         end
  end.

(** [parent.range_of_child_at_index(index)] *)
Definition range_of_child (parent : Composable) (index : nat)
  : result TimeRange :=
  match parent with
  | Track _ _ cs =>
      match cs !! index with
      | None => Raise IndexError
      | Some child =>
          d ← simple_duration child;
          before ← sumM (λ c, if is_transition c then Ok zero
                              else simple_duration c) (take index cs);
          let before := mkRT (rescaled before (rt_rate d)) (rt_rate d) in
          match child with
          | Transition t => Ok (mkTR (simple_sub before (in_offset t)) d)
          | _ => Ok (mkTR before d)
          end
      end
  | Stack _ cs =>
      match cs !! index with
      | None => Raise IndexError
      | Some child => d ← simple_duration child;
                      Ok (mkTR (mkRT 0 (rt_rate d)) d)
      end
  | _ => Raise AttributeError
  end.

Definition simple_range_in_parent (root : Composable) (p : Path)
  : result TimeRange :=
  match reverse p with
  | [] => Raise AttributeError          (* no parent *)
  | index :: parent_rev =>
      match get_at root (reverse parent_rev) with
      | Some parent => range_of_child parent index
      | None => Raise AttributeError
      end
  end.

(** One step of [transformed_time], from the item at [p] to its parent... *)
Definition to_parent (root : Composable) (p : Path) (t : RationalTime)
  : result RationalTime :=
  match get_at root p with
  | None => Raise AttributeError
  | Some item =>
      own ← simple_trimmed_range item;
      rip ← simple_range_in_parent root p;
      Ok (simple_add (simple_sub t (start_time own)) (start_time rip))
  end.

(** ... and from the parent down into the item at [p]. *)
Definition from_parent (root : Composable) (p : Path) (t : RationalTime)
  : result RationalTime :=
  match get_at root p with
  | None => Raise AttributeError
  | Some item =>
      own ← simple_trimmed_range item;
      rip ← simple_range_in_parent root p;
      Ok (simple_sub (simple_add t (start_time own)) (start_time rip))
  end.

Fixpoint common_prefix (p q : Path) : Path :=
  match p, q with
  | i :: p', j :: q' => if decide (i = j) then i :: common_prefix p' q' else []
  | _, _ => []
  end.

(** Climb from [p] until only [keep] indices are left. *)
Fixpoint climb (root : Composable) (p_rev : Path) (keep : nat)
         (t : RationalTime) : result RationalTime :=
  match p_rev with
  | [] => Ok t
  | _ :: up =>
      if decide (length p_rev ≤ keep)%nat then Ok t
      else t ← to_parent root (reverse p_rev) t; climb root up keep t
  end.

Fixpoint descend (root : Composable) (here rest : Path) (t : RationalTime)
  : result RationalTime :=
  match rest with
  | [] => Ok t
  | i :: rest' =>
      t ← from_parent root (here ++ [i]) t; descend root (here ++ [i]) rest' t
  end.

Definition simple_transformed_time (root : Composable) (p : Path)
           (t : RationalTime) (q : Path) : result RationalTime :=
  let a := common_prefix p q in
  t ← climb root (reverse p) (length a) t;
  descend root a (drop (length a) q) t.

(** The first child of the composition whose range holds [t]. *)
Fixpoint first_at (parent : Composable) (t : RationalTime) (n index : nat)
  : result (option nat) :=
  match n with
  | O => Ok None
  | S n' =>
      r ← range_of_child parent index;
      if simple_contains r t
      then Ok (Some index) else first_at parent t n' (S index)
  end.

Fixpoint child_at (fuel : nat) (root : Composable) (p : Path)
         (t : RationalTime) : result (option Path) :=
  match fuel, get_at root p with
  | O, _ => Raise RecursionError
  | _, None => Raise AttributeError
  | S fuel', Some comp =>
      match children_of comp with
      | None => Raise AttributeError
      | Some cs =>
          found ← first_at comp t (length cs) 0;
          match found with
          | None => Ok None
          | Some i =>
              match cs !! i ≫= children_of with
              | None => Ok (Some (p ++ [i]))
              | Some _ =>
                  t' ← from_parent root (p ++ [i]) t;
                  child_at fuel' root (p ++ [i]) t'
              end
          end
      end
  end.

Definition simple_child_at_time (root : Composable) (p : Path)
           (t : RationalTime) : result (option Path) :=
  child_at (Simplify.size root) root p t.

(** [otio.algorithms.track_trimmed_to_range] *)
Definition trim_child (parent : Composable) (trim_range : TimeRange)
           (index : nat) (child : Composable) : result (list Composable) :=
  child_range ← range_of_child parent index;
  if negb (intersects trim_range child_range) then Ok []
  else if contains_range trim_range child_range then Ok [child]
  else if is_transition child then Raise CannotTrimTransitionsError
  else
    csr ← simple_trimmed_range child;
    let csr :=
      if lt (start_time child_range) (start_time trim_range) then
        let trim_amount :=
          simple_sub (start_time trim_range) (start_time child_range) in
        mkTR (simple_add (start_time csr) trim_amount)
             (simple_sub (duration csr) trim_amount)
      else csr in
    let csr :=
      if lt (end_time trim_range) (end_time child_range) then
        let trim_amount :=
          simple_sub (end_time child_range) (end_time trim_range) in
        mkTR (start_time csr) (simple_sub (duration csr) trim_amount)
      else csr in
    Ok [with_item (set_source_range (Some csr)) child].

Fixpoint trim_children (parent : Composable) (trim_range : TimeRange)
         (index : nat) (cs : list Composable) : result (list Composable) :=
  match cs with
  | [] => Ok []
  | c :: cs' =>
      kept ← trim_child parent trim_range index c;
      rest ← trim_children parent trim_range (S index) cs';
      Ok (kept ++ rest)
  end.

Definition simple_track_trimmed_to_range (in_track : Composable)
           (trim_range : TimeRange) : result Composable :=
  match in_track with
  | Track i k cs =>
      cs ← trim_children in_track trim_range 0 cs; Ok (Track i k cs)
  | _ => Raise AttributeError
  end.

#[global, refine] Instance simple_otio : OtioLib := {|
  rt_add := simple_add;
  range_contains := simple_contains;
  trimmed_range := simple_trimmed_range;
  available_range := simple_available_range;
  track_trimmed_to_range := simple_track_trimmed_to_range;
  child_at_time := simple_child_at_time;
  transformed_time := simple_transformed_time;
  range_in_parent := simple_range_in_parent |}.
Proof.
  intros [] r c'; cbn; try discriminate.
  destruct (trim_children _ _ _ _); cbn; [|discriminate].
  by intros [= <-].
Defined.

End SimpleOtio.

Module SimplifyExamples.
Import Simplify.

Definition clip (n : string) : Composable := Clip (set_name n new_item) None.
Definition gap : Composable := Gap new_item.
Definition track (cs : list Composable) : Composable :=
  Track new_item TrackKind_Video cs.
Definition stack (cs : list Composable) : Composable := Stack new_item cs.
Definition timeline (cs : list Composable) : Thing :=
  TTimeline (mkTimeline "" [] None new_item cs).

Definition note : Marker :=
  mkMarker "note" (mkTR (mkRT 0 24) (mkRT 1 24)) "RED" [].

Definition marked (c : Composable) : Composable :=
  with_item (set_markers [note]) c.

(** The two collapses of the test suite. *)
Definition track_stack_track : Thing :=
  timeline [track [stack [track [clip "c"]]]].
Definition track_stack_track_track : Thing :=
  timeline [track [stack [track [track [clip "c"]]]]].


Definition is_leaf (c : Composable) : bool :=
  match c with
  | Clip _ _ | Gap _ | Transition _ => true
  | _ => false
  end.

Definition flat_track (c : Composable) : bool :=
  match c with
  | Track _ _ cs => forallb is_leaf cs
  | _ => false
  end.

(** A timeline that is already flat: tracks of clips, gaps and transitions
    directly under a root stack without a source range. *)
Definition flat (tl : Timeline) : Prop :=
  source_range (tracks_item tl) = None ∧ forallb flat_track (tracks tl) = true.

Definition flat_example : Timeline :=
  mkTimeline "flat" [] None new_item
             [track [clip "a"; gap; clip "b"]; track [gap]; track []].

End SimplifyExamples.

(** Shapes used to state how far the simplifier is idempotent *)

Module SimplifyShapes.
Import Simplify SimplifyExamples.




Definition cross_fade : Composable :=
  Transition (mkTransition "x" [] (mkRT 1 24) (mkRT 1 24)).

(** A marker on a nested Track above an empty Stack. *)
Definition marked_track_over_empty_stack : Thing :=
  timeline [track [stack [stack [marked (track [stack []]); clip "a"];
                          clip "b"];
                   clip "c"]].

(** A Transition directly in a nested Stack. *)
Definition stacked_transition : Thing :=
  timeline [track [stack [cross_fade; clip "a"]; clip "c"]].

(** A container that carries nothing of its own: no source range, no
    effects, no markers, not disabled, and no metadata that
    [_valuable_metadata] protects. *)
Definition bare (i : ItemData) : bool :=
  match source_range i with None => true | Some _ => false end
  && negb (nonempty (effects i)) && negb (nonempty (markers i))
  && enabled i && negb (_valuable_metadata (metadata i)).



















End SimplifyShapes.

Module ReaderExamples.
Import Reader.

Definition obj (cls name : string) (ps : dict) : Common :=
  mkCommon (Some name) cls (("ClassName", PStr cls) :: ps).

(** A ten-frame dissolve cut after four frames. *)
Definition dissolve_group : AAFObj :=
  OperationGroup
    (obj "OperationGroup" ""
         [("Operation", PDict [("Name", PStr "VideoDissolve");
                               ("IsTimeWarp", PBool false)]);
          ("Parameters", PDict [])])
    "Picture"
    (mkOG 10 None [VaryingValue "Level" [mkCP 0 0; mkCP 1 1]]) None.

Definition dissolve : AAFObj :=
  Transition_ (obj "Transition" "" [("CutPoint", PInt 4)]) "Picture" 10
              (Some dissolve_group).

Definition filler (length : Z) : AAFObj :=
  Filler (obj "Filler" "" []) "Picture" length.

Definition clip_of (mob_id : MobID) (length : Z) : AAFObj :=
  SourceClip (obj "SourceClip" "" []) "Picture" length 0 (Some mob_id) 1.

Definition video_slot (segment : AAFObj) : AAFObj :=
  TimelineMobSlot
    (obj "TimelineMobSlot" "V1"
         [("SlotID", PInt 1); ("PhysicalTrackNumber", PInt 1)])
    "Picture" 24 1 (Some 1%Z) segment.

Definition sequence_of (components : list AAFObj) : AAFObj :=
  Sequence (obj "Sequence" "" []) "Picture" 100 components.

(** A composition with a dissolve between two fillers. *)
Definition edit : AAFObj :=
  CompositionMob (obj "CompositionMob" "edit" []) "edit-id"
                 [video_slot (sequence_of [filler 40; dissolve; filler 60])].

(** A composition whose only clip points back at the composition. *)
Definition loop_clip : AAFObj := clip_of "loop-id" 100.
Definition loop_slot : AAFObj := video_slot loop_clip.
Definition loop_mob : AAFObj :=
  CompositionMob (obj "CompositionMob" "loop" []) "loop-id" [loop_slot].

Definition loop_file : gmap MobID AAFObj := {[ "loop-id" := loop_mob ]}.

(** A muted item whose Selector lost its alternates. *)
Definition muted_without_alternates : AAFObj :=
  Selector (obj "Selector" "" []) "Picture" 40 (filler 40) None.

Definition muted (alternates : list AAFObj) : AAFObj :=
  Selector (obj "Selector" "" []) "Picture" 40 (filler 40) (Some alternates).

(** Transcription from an empty cache, the cache dropped. *)
Definition read `{OtioLib} `{PyFloat} (mobs : gmap MobID AAFObj) (fuel : nat)
           (item : AAFObj) (edit_rate : option Q) : result Thing :=
  match _transcribe mobs fuel item [] edit_rate ∅ with
  | Ok (t, _) => Ok t
  | Raise e => Raise e
  end.

End ReaderExamples.

Module MarkersExamples.
Import Markers.

(** All the markers of a tree. *)
Fixpoint count_markers (c : Composable) : nat :=
  (length (markers_of c) +
   match c with
   | Track _ _ cs | Stack _ cs => list_sum (map count_markers cs)
   | _ => 0
   end)%nat.

Definition at_frames (start length : Z) : TimeRange :=
  mkTR (mkRT (inject_Z start) 24) (mkRT (inject_Z length) 24).

Definition slot_metadata (slot_id track_number : Z) : dict :=
  [("AAF", PDict [("SlotID", PInt slot_id);
                  ("PhysicalTrackNumber", PInt track_number)])].

(** A marker recorded against a slot and a physical track number. *)
Definition marker_for (slot_id track_number start : Z) : Marker :=
  mkMarker "note" (at_frames start 1) "RED"
           [("AAF", PDict [("AttachedSlotID", PInt slot_id);
                           ("AttachedPhysicalTrackNumber", PInt track_number)])].

Definition filled (length : Z) : Composable :=
  Gap (set_source_range (Some (at_frames 0 length)) new_item).

Definition shot (name : string) (length : Z) : Composable :=
  Clip (set_source_range (Some (at_frames 0 length)) (set_name name new_item))
       None.

Definition cross_fade : Composable :=
  Transition (mkTransition "fade" [] (mkRT 0 24) (mkRT 600 24)).

(** The track an event slot becomes: it only carries markers. *)
Definition event_track (ms : list Marker) : Composable :=
  Track (mkItem "Events" (slot_metadata 1000 1) None [] ms true)
        "AAF_DescriptiveMetadata" [].

Definition picture_track (cs : list Composable) : Composable :=
  Track (mkItem "V1" (slot_metadata 2 3) None [] [] true) TrackKind_Video cs.

Definition marked_timeline (m : Marker) (cs : list Composable) : Timeline :=
  mkTimeline "tl" [] None new_item [picture_track cs; event_track [m]].

(** The marker points at a track that is not in the timeline. *)
Definition stray : Timeline :=
  marked_timeline (marker_for 7 7 518) [shot "a" 500; shot "b" 500].

(** The marker falls on a transition. *)
Definition over_transition : Timeline :=
  marked_timeline (marker_for 2 3 518) [cross_fade].

(** The marker falls on a clip. *)
Definition over_clip : Timeline :=
  marked_timeline (marker_for 2 3 518) [shot "a" 500; shot "b" 500].

Definition marker_starts (c : Composable) : list Q :=
  (λ m, rt_value (start_time (marked_range m))) <$> markers_of c.

End MarkersExamples.

(** * Part I, continued: further functions of the adapter *)

(** ** aaf_writer.py: the timecode rate of the composition *)

Module Timecode.

Definition supported_rates : list Q := [24; 25; 30; 60]%Q.

(** The [for] loop of [_nearest_timecode]; [min_diff] is [None] while it
    still is [float("inf")]. *)
Fixpoint nearest_loop (rate : Q) (rates : list Q)
         (nearest_rate : Q) (min_diff : option Q) : Q :=
  match rates with
  | [] => nearest_rate
  | valid_rate :: rest =>
      if Qeq_bool valid_rate rate then rate
      else
        let diff := Qabs (rate - valid_rate) in
        if match min_diff with
           | Some m => Qle_bool m diff
           | None => false
           end
        then nearest_loop rate rest nearest_rate min_diff
        else nearest_loop rate rest valid_rate (Some diff)
  end.

Definition _nearest_timecode (rate : Q) : Q :=
  nearest_loop rate supported_rates 0 None.

End Timecode.

(** ** Media URLs *)

Module Urls.

Definition backslash : ascii := "092"%char.

(** [s.replace(old, new)] for one-character strings. *)
Fixpoint replace_char (old new : ascii) (s : string) : string :=
  match s with
  | EmptyString => EmptyString
  | String c s' =>
      String (if decide (c = old) then new else c) (replace_char old new s')
  end.

(** [s.startswith(p)] *)
Fixpoint starts_with (p s : string) : bool :=
  match p, s with
  | EmptyString, _ => true
  | String a p', String b s' =>
      if decide (a = b) then starts_with p' s' else false
  | String _ _, EmptyString => false
  end.

Definition _transcribe_url (target_path : string) : string :=
  let target_path :=
    if starts_with "file://" target_path then target_path
    else "file://" +:+ target_path in
  replace_char backslash "/" target_path.

End Urls.

(** ** The transition pass *)

(** [a - b] on [RationalTime], the one operation of the library that the
    passes above do not need. *)
Class OtioTime := { rt_sub : RationalTime → RationalTime → RationalTime }.

Module FixTransitions.
Import Simplify.

Section fix_transitions.
Context `{OtioLib} `{OtioTime}.

(** [if child.source_range is None: child.source_range =
    child.trimmed_range()], and the range read back as [csr]. *)
Definition own_source_range (child : Composable) : result TimeRange :=
  match item_of child ≫= source_range with
  | Some sr => Ok sr
  | None => trimmed_range child
  end.

(** The item before us was a Transition. *)
Definition after_transition (pre_trans : TransitionData) (child : Composable)
  : result Composable :=
  csr ← own_source_range child;
  Ok (with_item
        (set_source_range
           (Some (mkTR (rt_add (start_time csr) (in_offset pre_trans))
                       (rt_sub (duration csr) (in_offset pre_trans)))))
        child).

(** The item after us is a Transition. *)
Definition before_transition (post_trans : TransitionData) (child : Composable)
  : result Composable :=
  csr ← own_source_range child;
  Ok (with_item
        (set_source_range
           (Some (mkTR (start_time csr)
                       (rt_sub (duration csr) (out_offset post_trans)))))
        child).

(** The body of the loop over the children of a Track: [prev] is
    [thing[c - 1]] when [c > 0], [next] is [thing[c + 1]] when
    [c < len(thing) - 1]. *)
Definition fix_item (prev : option Composable) (child : Composable)
           (next : option Composable) : result Composable :=
  match item_of child with
  | None => Ok child          (* the Transitions themselves *)
  | Some _ =>
      child ← match prev with
               | Some (Transition pre_trans) => after_transition pre_trans child
               | _ => Ok child
               end;
      match next with
      | Some (Transition post_trans) => before_transition post_trans child
      | _ => Ok child
      end
  end.

Fixpoint fix_track_items (prev : option Composable) (items : list Composable)
  : result (list Composable) :=
  match items with
  | [] => Ok []
  | child :: rest =>
      child ← fix_item prev child (head rest);
      rest ← fix_track_items (Some child) rest;
      Ok (child :: rest)
  end.

(** [_fix_transitions] on a composition; the recursion goes through the
    children as the loop has left them, [fuel] bounds its depth. *)
Fixpoint fix_composable (fuel : nat) (thing : Composable) : result Composable :=
  match fuel with
  | O => Raise RecursionError
  | S fuel' =>
      match thing with
      | Track i k cs =>
          cs ← fix_track_items None cs;
          cs ← mapM (fix_composable fuel') cs;
          Ok (Track i k cs)
      | Stack i cs =>
          cs ← mapM (fix_composable fuel') cs;
          Ok (Stack i cs)
      | _ => Ok thing
      end
  end.

Fixpoint _fix_transitions (thing : Thing) : result Thing :=
  match thing with
  | TTimeline tl =>
      let tracks_ := Stack (tracks_item tl) (tracks tl) in
      r ← fix_composable (S (Markers.depth tracks_)) tracks_;
      match r with
      | Stack i cs =>
          Ok (TTimeline (mkTimeline (tl_name tl) (tl_metadata tl)
                                    (global_start_time tl) i cs))
      | _ => Raise TypeError
      end
  | TComposable c =>
      c ← fix_composable (S (Markers.depth c)) c; Ok (TComposable c)
  | TCollection n md cs =>
      cs ← mapM _fix_transitions cs; Ok (TCollection n md cs)
  | _ => Ok thing
  end.

End fix_transitions.

(** A tree with every source range forgotten. *)
Fixpoint forget_ranges (c : Composable) : Composable :=
  match c with
  | Clip i a => Clip (set_source_range None i) a
  | Gap i => Gap (set_source_range None i)
  | Transition t => Transition t
  | Track i k cs => Track (set_source_range None i) k (map forget_ranges cs)
  | Stack i cs => Stack (set_source_range None i) (map forget_ranges cs)
  end.

Fixpoint no_transition (c : Composable) : bool :=
  match c with
  | Transition _ => false
  | Track _ _ cs | Stack _ cs => forallb no_transition cs
  | _ => true
  end.

End FixTransitions.

Module FixTransitionsExamples.
Import FixTransitions.

#[global] Instance simple_time : OtioTime :=
  {| rt_sub := SimpleOtio.simple_sub |}.

Definition frames (start length : Z) : TimeRange :=
  mkTR (mkRT (inject_Z start) 24) (mkRT (inject_Z length) 24).

Definition shot (n : string) (start length : Z) : Composable :=
  Clip (set_source_range (Some (frames start length)) (set_name n new_item))
       None.

Definition dissolve (in_frames out_frames : Z) : TransitionData :=
  mkTransition "dissolve" [] (mkRT (inject_Z in_frames) 24)
               (mkRT (inject_Z out_frames) 24).

(** Three shots joined by two dissolves. *)
Definition cut : list Composable :=
  [shot "a" 0 50; Transition (dissolve 4 6); shot "b" 10 40;
   Transition (dissolve 3 5); shot "c" 0 30].

Definition reel : Timeline :=
  mkTimeline "reel" [] None new_item [Track new_item TrackKind_Video cut].

Definition straight_cut : Timeline :=
  mkTimeline "straight" [] None new_item
    [Track new_item TrackKind_Video
           [shot "a" 0 50; Stack new_item [shot "b" 10 40]; Gap new_item]].

End FixTransitionsExamples.

(** ** aaf_writer.py: the mob ids of the clips *)

Module MobIds.

Inductive MediaReference :=
| ExternalReference (target_url : string) (metadata : dict)
| GeneratorReference (generator_kind : string) (metadata : dict)
| MissingReference (metadata : dict).

Definition ref_metadata (r : MediaReference) : dict :=
  match r with
  | ExternalReference _ md | GeneratorReference _ md | MissingReference md => md
  end.

(** What the writer reads of a Clip. *)
Record ClipData := mkClip {
  clip_name : string;
  clip_metadata : dict;
  media_reference : MediaReference }.

(** A mob id as a strategy finds it: a metadata value, or a [MobID] object
    read from a file or made up. *)
Inductive MobIdValue :=
| FromMetadata (v : PyVal)
| MobIDObject (urn : string).

(** [if mob_id:] *)
Definition id_truthy (mob_id : option MobIdValue) : bool :=
  match mob_id with
  | None => false
  | Some (FromMetadata v) => truthy v
  | Some (MobIDObject _) => true
  end.

(** [metadata.get("AAF", {}).get(key)] *)
Definition aaf_get (md : dict) (key : string) : result (option PyVal) :=
  match dict_get md "AAF" with
  | None => Ok None
  | Some (PDict aaf) => Ok (dict_get aaf key)
  | Some _ => Raise AttributeError
  end.

(** [s.endswith(suffix)] *)
Fixpoint ends_with (suffix s : string) : bool :=
  if String.eqb s suffix then true
  else match s with
       | EmptyString => false
       | String _ s' => ends_with suffix s'
       end.

(** [_is_considered_gap] on a Clip. *)
Definition _is_considered_gap (thing : ClipData) : result bool :=
  match media_reference thing with
  | GeneratorReference generator_kind _ =>
      if String.eqb generator_kind "Slug" then Ok true
      else Raise (NotSupportedError
                    ("AAF adapter does not support generator references of kind '"
                       +:+ generator_kind +:+ "'"))
  | _ => Ok false
  end.

Section gather.
(** The file system and the AAF files found there: [os.path.isfile], and
    the mob ids of the master mobs of the file at a path. *)
Variable isfile : string → bool.
Variable mastermob_ids : string → result (list string).
(** [aaf2.mobid.MobID.new()], for the clip at a position. *)
Variable new_mob_id : nat → string.
(** [str(clip)] *)
Variable clip_str : ClipData → string.

Definition strategy : Type := nat → ClipData → result (option MobIdValue).

Definition _from_clip_metadata (position : nat) (clip : ClipData)
  : result (option MobIdValue) :=
  v ← aaf_get (clip_metadata clip) "SourceID"; Ok (option_map FromMetadata v).

Definition _from_media_reference_metadata (position : nat) (clip : ClipData)
  : result (option MobIdValue) :=
  let metadata := ref_metadata (media_reference clip) in
  mob_id ← aaf_get metadata "MobID";
  if opt_truthy mob_id then Ok (option_map FromMetadata mob_id)
  else v ← aaf_get metadata "SourceID"; Ok (option_map FromMetadata v).

Definition _from_aaf_file (position : nat) (clip : ClipData)
  : result (option MobIdValue) :=
  match media_reference clip with
  | ExternalReference target_url _ =>
      if isfile target_url && ends_with "aaf" target_url then
        mastermobs ← mastermob_ids target_url;
        match mastermobs with
        | [mob_id] => Ok (Some (MobIDObject mob_id))
        | _ => Ok None
        end
      else Ok None
  | _ => Ok None
  end.

Definition _generate_empty_mobid (position : nat) (clip : ClipData)
  : result (option MobIdValue) :=
  Ok (Some (MobIDObject (new_mob_id position))).

Definition strategies (prefer_file_mob_id use_empty_mob_ids : bool)
  : list strategy :=
  let strategies :=
    if prefer_file_mob_id
    then [_from_aaf_file; _from_clip_metadata; _from_media_reference_metadata]
    else [_from_clip_metadata; _from_media_reference_metadata; _from_aaf_file] in
  if use_empty_mob_ids then strategies ++ [_generate_empty_mobid]
  else strategies.

(** [for strategy in strategies: ... break], [None] standing for the
    [else] of the loop. *)
Fixpoint first_mob_id (strategies : list strategy) (position : nat)
         (clip : ClipData) : result (option MobIdValue) :=
  match strategies with
  | [] => Ok None
  | strategy :: rest =>
      mob_id ← strategy position clip;
      if id_truthy mob_id then Ok mob_id
      else first_mob_id rest position clip
  end.

(** The loop over [input_otio.find_clips()]; the dictionary is keyed by
    the clip objects, here by their position in that list. *)
Fixpoint gather_loop (strategies : list strategy) (clips : list ClipData)
         (position : nat) (clip_mob_ids : list (nat * MobIdValue))
  : result (list (nat * MobIdValue)) :=
  match clips with
  | [] => Ok clip_mob_ids
  | otio_clip :: rest =>
      gap ← _is_considered_gap otio_clip;
      if gap : bool then gather_loop strategies rest (S position) clip_mob_ids
      else
        mob_id ← first_mob_id strategies position otio_clip;
        match mob_id with
        | Some mob_id =>
            gather_loop strategies rest (S position)
                        (clip_mob_ids ++ [(position, mob_id)])
        | None =>
            Raise (AAFAdapterError
                     ("Cannot find mob ID for clip " +:+ clip_str otio_clip))
        end
  end.

Definition _gather_clip_mob_ids (find_clips : list ClipData)
           (prefer_file_mob_id use_empty_mob_ids : bool)
  : result (list (nat * MobIdValue)) :=
  gather_loop (strategies prefer_file_mob_id use_empty_mob_ids)
              find_clips 0 [].

End gather.

End MobIds.

Module MobIdsExamples.
Import MobIds.

Definition with_source_id (n id : string) (r : MediaReference) : ClipData :=
  mkClip n [("AAF", PDict [("SourceID", PStr id)])] r.

Definition bare (n : string) (r : MediaReference) : ClipData := mkClip n [] r.

Definition on_disk (url : string) : bool := String.eqb url "/media/a.aaf".

Definition one_master_mob (url : string) : result (list string) :=
  if String.eqb url "/media/a.aaf" then Ok ["urn:from-file"] else Ok [].

Definition numbered (position : nat) : string := "urn:new-" +:+ pretty position.

(** A clip with its own id, a slug, and a clip known by its file only. *)
Definition three_clips : list ClipData :=
  [with_source_id "a" "urn:clip-a"
                  (ExternalReference "/media/a.aaf"
                     [("AAF", PDict [("MobID", PStr "urn:ref-a")])]);
   bare "slug" (GeneratorReference "Slug" []);
   bare "b" (ExternalReference "/media/a.aaf" [])].

Definition orphan : list ClipData := [bare "c" (MissingReference [])].

End MobIdsExamples.

(** ** Reading a file *)

Module ReadFile.
Import Hooks Reader.

(** What [read_from_file] asks of the content storage of the open file:
    the three listings of its mobs, and the mobs by id. *)
Record Storage := mkStorage {
  toplevel : list AAFObj;
  compositionmobs : list AAFObj;
  mastermobs : list AAFObj;
  mobs : gmap MobID AAFObj }.

Definition _get_mobs_for_transcription (storage : Storage) : list AAFObj :=
  let top_level_mobs := toplevel storage in
  if (0 <? length top_level_mobs)%nat then top_level_mobs
  else
    let composition_mobs := compositionmobs storage in
    if (0 <? length composition_mobs)%nat then composition_mobs
    else
      let master_mobs := mastermobs storage in
      if (0 <? length master_mobs)%nat then master_mobs
      else [].

Section read.
Context `{OtioLib} `{PyFloat} `{OtioTime}.
Context {AAFFile : Type}.

(** The hook scripts are taken as functions of what they are handed: what
    a script does to the objects themselves is outside this model.  [fuel]
    bounds the depth of the mob references followed. *)
Definition read_from_file
           (manifest : gmap string (list (@hook_script Thing AAFFile)))
           (filepath : string) (aaf_file : AAFFile) (storage : Storage)
           (simplify attach_markers : bool)
           (hook_function_argument_map : gmap string (@kwarg AAFFile))
           (fuel : nat) : result Thing :=
  _ ← run_pre_read_transcribe_hook manifest filepath aaf_file
                                   hook_function_argument_map;
  let mobs_to_transcribe := _get_mobs_for_transcription storage in
  r ← _transcribe (mobs storage) fuel (PyList mobs_to_transcribe) [] None ∅;
  let timeline := r.1 in
  (* the timeline the hook returns is not kept *)
  _ ← run_post_read_transcribe_hook manifest (Some timeline) filepath aaf_file
                                    hook_function_argument_map;
  timeline ← FixTransitions._fix_transitions timeline;
  timeline ← (if attach_markers then Markers._attach_markers timeline
              else Ok timeline);
  timeline ← (if simplify then Simplify._simplify timeline else Ok timeline);
  Ok timeline.

End read.

End ReadFile.

Module ReadFileExamples.
Import ReadFile ReaderExamples.

(** A file with the one composition of the reader examples. *)
Definition one_edit : Storage :=
  mkStorage [edit] [edit] [] {[ "edit-id" := edit ]}.

Definition no_hooks : gmap string (list (@Hooks.hook_script Thing unit)) := ∅.

End ReadFileExamples.

(** ** aaf_writer.py: the children of a track *)

Module TrackWriter.

(** The children of a track as [_TrackTranscriber.transcribe] tells them
    apart. *)
Inductive OtioChild :=
| WGap (name : string)
| WClip (clip : MobIds.ClipData)
| WTransition (transition_type : string) (name : string)
| WTrack (children : list OtioChild)
| WStack (children : list OtioChild)
| WOther (type_name : string).

(** The components written, as far as their nesting and their [length]
    go. *)
Inductive Component :=
| WrittenLeaf (class_name : string) (length : Z)
| WrittenSequence (length : Z) (components : list Component)
| WrittenOperationGroup (length : Z) (segments : list Component).

Definition length_of (c : Component) : Z :=
  match c with
  | WrittenLeaf _ l | WrittenSequence l _ | WrittenOperationGroup l _ => l
  end.

Definition SMPTE_Dissolve : string := "SMPTE_Dissolve".

Definition _is_considered_gap (thing : OtioChild) : result bool :=
  match thing with
  | WGap _ => Ok true
  | WClip clip => MobIds._is_considered_gap clip
  | _ => Ok false
  end.

Section transcriber.
(** The three leaf conversions build objects in the file being written;
    here they are given: [aaf_filler], [aaf_sourceclip], and what
    [aaf_transition] makes of a dissolve. *)
Variable aaf_filler : OtioChild → result Component.
Variable aaf_sourceclip : MobIds.ClipData → result Component.
Variable aaf_dissolve : OtioChild → result Component.

Definition aaf_transition (otio_transition : OtioChild)
  : result (option Component) :=
  match otio_transition with
  | WTransition transition_type _ =>
      if negb (String.eqb transition_type SMPTE_Dissolve) then Ok None
      else c ← aaf_dissolve otio_transition; Ok (Some c)
  | _ => Raise AttributeError
  end.

(** The loop shared by [aaf_sequence] and [aaf_operation_group]:
    [length += result.length] fails on a result that is [None]. *)
Definition collect (transcribe : OtioChild → result (option Component))
  : list OtioChild → Z → list Component → result (Z * list Component) :=
  fix loop children length components :=
    match children with
    | [] => Ok (length, components)
    | nested_otio_child :: rest =>
        r ← transcribe nested_otio_child;
        match r with
        | None => Raise AttributeError
        | Some c => loop rest (length + length_of c)%Z (components ++ [c])
        end
    end.

Fixpoint transcribe (otio_child : OtioChild) : result (option Component) :=
  gap ← _is_considered_gap otio_child;
  if gap : bool then
    filler ← aaf_filler otio_child; Ok (Some filler)
  else
    match otio_child with
    | WTransition _ _ => aaf_transition otio_child
    | WClip clip =>
        source_clip ← aaf_sourceclip clip; Ok (Some source_clip)
    | WTrack children =>
        (* [aaf_sequence] *)
        r ← collect transcribe children 0 [];
        Ok (Some (WrittenSequence r.1 r.2))
    | WStack children =>
        (* [aaf_operation_group] *)
        r ← collect transcribe children 0 [];
        Ok (Some (WrittenOperationGroup r.1 r.2))
    | WOther type_name =>
        Raise (NotSupportedError
                 ("Unsupported otio child type: " +:+ type_name))
    | WGap _ => Raise TypeError      (* not reached: a Gap is a gap *)
    end.

End transcriber.

Definition sum_lengths (cs : list Component) : Z :=
  foldr Z.add 0%Z (map length_of cs).

End TrackWriter.

Module TrackWriterExamples.
Import TrackWriter.

Definition filler_of (length : Z) (c : OtioChild) : result Component :=
  Ok (WrittenLeaf "Filler" length).
Definition source_clip_of (length : Z) (c : MobIds.ClipData)
  : result Component :=
  Ok (WrittenLeaf "SourceClip" length).
Definition dissolve_of (length : Z) (c : OtioChild) : result Component :=
  Ok (WrittenLeaf "Transition" length).

Definition shot (n : string) : OtioChild :=
  WClip (MobIds.mkClip n [] (MobIds.MissingReference [])).

Definition nested : list OtioChild :=
  [shot "a"; WTransition "SMPTE_Dissolve" "x"; WGap "g"; WStack [shot "b"]].

Definition wiped : list OtioChild :=
  [shot "a"; WTransition "Custom_Wipe" "w"; shot "b"].

End TrackWriterExamples.

(** ** Media references *)

Module MediaRefs.
Import Urls.

(** A media reference: an [ExternalReference] when it has a target URL, a
    [MissingReference] when it has none. *)
Record MediaRef := mkRef {
  ref_name : string;
  target_url : option string;
  ref_available_range : option TimeRange;
  ref_metadata : dict }.

(** What [_transcribe_source_mob] reads of a source mob: its name, its
    mob id as a string, its transcribed properties, and the [URLString] of
    each locator of its descriptor. *)
Record SourceMobData := mkSourceMob {
  mob_name : option string;
  mob_id_str : string;
  mob_properties : dict;
  locator_urls : list (option string) }.

(** The clip made for a master mob: [None] for the references stands for
    those the [Clip] constructor left. *)
Record MediaClip := mkMediaClip {
  mc_name : string;
  mc_source_range : TimeRange;
  mc_references : option (list (string * MediaRef)) }.

Definition DEFAULT_MEDIA_KEY : string := "DEFAULT_MEDIA".

Definition str_truthy (s : option string) : bool :=
  match s with
  | Some s => negb (String.eqb s "")
  | None => false
  end.

Section with_lib.
Context `{OtioLib}.

(** [if global_start_time: ...]: the start timecode of the mob is a
    [TimeRange] or [None], and a [TimeRange] is a true value. *)
Definition offset_range (r : TimeRange) (global_start_time : option TimeRange)
  : TimeRange :=
  match global_start_time with
  | Some g => mkTR (rt_add (start_time r) (start_time g)) (duration r)
  | None => r
  end.

Definition _transcribe_source_mob (mob : SourceMobData)
           (available_range : TimeRange) (global_start_time : option TimeRange)
  : list (string * MediaRef) :=
  let metadata := mob_properties mob in
  let target_urls :=
    omap (λ url, if str_truthy url then _transcribe_url <$> url else None)
         (locator_urls mob) in
  let target_urls : list (option string) :=
    match target_urls with
    | [] => [None]
    | _ => Some <$> target_urls
    end in
  let name := if str_truthy (mob_name mob) then default "" (mob_name mob)
              else mob_id_str mob in
  let available_range := offset_range available_range global_start_time in
  (λ target_path,
     let ref :=
       if str_truthy target_path
       then mkRef name target_path (Some available_range)
                  [("AAF", PDict metadata)]
       else mkRef name None (Some available_range) [("AAF", PDict metadata)] in
     (name, ref)) <$> target_urls.

(** ["_%02d" % i] *)
Definition suffix (i : nat) : string :=
  "_" +:+ (if (i <? 10)%nat then "0" +:+ pretty i else pretty i).

Definition has_key (key : string) (references : list (string * MediaRef))
  : bool :=
  bool_decide (key ∈ references.*1).

(** [while key in references: key = name + "_%02d" % i; i += 1]; [fuel]
    bounds the number of turns. *)
Fixpoint fresh_key (fuel : nat) (name key : string) (i : nat)
         (references : list (string * MediaRef)) : result string :=
  if has_key key references then
    match fuel with
    | O => Raise RecursionError
    | S fuel' => fresh_key fuel' name (name +:+ suffix i) (S i) references
    end
  else Ok key.

(** The loop over [media_references[1:]]. *)
Fixpoint add_references (rest : list (string * MediaRef))
         (references : list (string * MediaRef))
  : result (list (string * MediaRef)) :=
  match rest with
  | [] => Ok references
  | (key, ref) :: rest' =>
      key ← fresh_key (10 + length references) key key 1 references;
      add_references rest' (references ++ [(key, ref)])
  end.

Definition _transcribe_master_mob_slot (mob_name : string) (metadata : dict)
           (source_range_ : TimeRange)
           (media_references : list (string * MediaRef))
           (global_start_time : option TimeRange) : result MediaClip :=
  let source_range_ := offset_range source_range_ global_start_time in
  unc_path ← match dict_get metadata "UserComments" with
              | None => Ok None
              | Some (PDict user_comments) =>
                  Ok (dict_get user_comments "UNC Path")
              | Some _ => Raise AttributeError
              end;
  media_references ←
    (if opt_truthy unc_path then
       match unc_path with
       | Some (PStr unc_path) =>
           let ref := mkRef "UNC Path" (Some (_transcribe_url unc_path))
                            (Some source_range_) [] in
           Ok (("UNC Path", ref) :: media_references)
       | _ => Raise AttributeError
       end
     else Ok media_references);
  match media_references with
  | [] => Ok (mkMediaClip mob_name source_range_ None)
  | first :: rest =>
      references ← add_references rest [(DEFAULT_MEDIA_KEY, first.2)];
      Ok (mkMediaClip mob_name source_range_ (Some references))
  end.

End with_lib.

End MediaRefs.

Module MediaRefsExamples.
Import MediaRefs.

Definition essence (n : string) : string * MediaRef :=
  (n, mkRef n (Some ("file:///media/" +:+ n)) None []).

(** Three references, two of them under the same name. *)
Definition same_names : list (string * MediaRef) :=
  [essence "A001"; essence "B002"; essence "B002"; essence "DEFAULT_MEDIA"].

Definition day (start length : Z) : TimeRange :=
  mkTR (mkRT (inject_Z start) 24) (mkRT (inject_Z length) 24).

Definition tape : SourceMobData :=
  mkSourceMob (Some "") "urn:smpte:umid:tape" [("ClassName", PStr "SourceMob")]
              [None; Some ""].

Definition file_mob : SourceMobData :=
  mkSourceMob (Some "A001") "urn:smpte:umid:file" []
              [Some "C:\media\A001.mxf"; None; Some "file:///b/A001.mov"].

End MediaRefsExamples.

(** ** Shapes used to state the properties of the reader *)

Module ReaderShapes.
Import Reader.

(** The gap a component without content leaves. *)
Definition gap_for (name : string) (metadata : dict) (length : Z) (rate : Q)
  : Thing :=
  TComposable
    (Gap (mkItem name [("AAF", PDict metadata)]
                 (Some (mkTR (mkRT 0 rate) (mkRT (inject_Z length) rate)))
                 [] [] true)).

(** A step of the read pass that only ever adds to the mob cache. *)
Definition grows {A} (m : M A) : Prop :=
  ∀ st a st', m st = Ok (a, st') → dom st ⊆ dom st'.

End ReaderShapes.

Module ValuableExamples.
Import Simplify.

(** What makes an object worth keeping by itself, its children apart. *)
Definition valuable_here (c : Composable) : bool :=
  match c with
  | Clip _ _ | Transition _ => true
  | Gap i | Track i _ _ | Stack i _ =>
      nonempty (effects i) || nonempty (markers i)
      || _valuable_metadata (metadata i)
  end.

Definition empty_nest : Composable :=
  Stack new_item [Track new_item TrackKind_Video [Gap new_item];
                  Stack new_item []].

Definition deep_clip : Composable :=
  Stack new_item
        [Track new_item TrackKind_Video
               [Gap new_item;
                Stack new_item [Track new_item TrackKind_Audio
                                      [Clip new_item None]]]].

End ValuableExamples.

(** * Part II: properties *)

Module HooksFacts.
Import Hooks.

Section generic.
Context {Timeline AAFFile : Type}.
Implicit Types m : gmap string (list (@hook_script Timeline AAFFile)).

(** The read-side extension point only ever looks at the post-write name. *)
Lemma post_read_unregistered_post_write m tl path h extra :
  m !! HOOK_POST_WRITE_TRANSCRIBE = None →
  run_post_read_transcribe_hook m tl path h extra = Ok tl.
Proof.
  intros Hnone. unfold run_post_read_transcribe_hook, hooks_names.
  case_decide as Hin; [|done].
  apply elem_of_dom in Hin as [? Hin]. congruence.
Qed.

(** The write-side sibling dispatches on its own name. *)
Lemma post_write_unregistered m tl path h e extra :
  m !! HOOK_POST_WRITE_TRANSCRIBE = None →
  run_post_write_transcribe_hook m tl path h e extra = Ok tl.
Proof.
  intros Hnone. unfold run_post_write_transcribe_hook, hooks_names.
  case_decide as Hin; [|done].
  apply elem_of_dom in Hin as [? Hin]. congruence.
Qed.
End generic.

(** C9 (code at the failing input).  With a callback registered under the
    post-read name only, [run_post_read_transcribe_hook] does not call it and
    hands the timeline back untouched; with a callback registered under the
    post-write name only, the read-side extension point runs that one. *)
Theorem post_read_hook_dispatches_on_post_write_name :
  run_post_read_transcribe_hook only_post_read (Some 5%nat) "in.aaf" tt ∅
    = Ok (Some 5%nat)
  ∧ run_post_read_transcribe_hook only_post_write (Some 5%nat) "in.aaf" tt ∅
    = Ok (Some 15%nat).
Proof.
  split.
  - apply post_read_unregistered_post_write. done.
  - unfold run_post_read_transcribe_hook, hooks_names, only_post_write.
    case_decide as Hin.
    + unfold hooks_run. rewrite lookup_singleton_eq. reflexivity.
    + exfalso. apply Hin. rewrite dom_singleton_L. set_solver.
Qed.

End HooksFacts.

Module TimeWarpFacts.
Import TimeWarp TimeWarpExamples.










(** The three ratio shapes, run through the decimal reader. *)
Example ratio_half :
  _transcribe_linear_timewarp plain_speed_change (stored_ratio "1/2")
  = Ok (new_effect (SLinearTimeWarp (2 / 1)) "LinearTimeWarp").
Proof. reflexivity. Qed.

Example ratio_two :
  _transcribe_linear_timewarp plain_speed_change (stored_ratio "2")
  = Ok (new_effect (SLinearTimeWarp (1 / 2)) "LinearTimeWarp").
Proof. reflexivity. Qed.

Example ratio_zero_over :
  _transcribe_linear_timewarp plain_speed_change (stored_ratio "4/0")
  = Ok (new_effect SFreezeFrame "FreezeFrame").
Proof. reflexivity. Qed.

End TimeWarpFacts.

Module ValidateFacts.
Import Validate ValidateExamples.

Lemma child_checks_required child edit_rate :
  supported child →
  child_checks child edit_rate = Ok (required_checks child edit_rate).
Proof.
  intros [b Hb]. unfold child_checks, required_checks. rewrite Hb. cbn.
  destruct (isinstance child "Transition"); [done|].
  destruct (isinstance child "Clip") eqn:HC; [done|].
  unfold _is_considered_gap in Hb. rewrite HC in Hb.
  destruct (isinstance child "Gap"); by injection Hb as <-.
Qed.

Lemma loop_collects children edit_rate all_checks :
  Forall supported children →
  loop children edit_rate all_checks
  = Ok (all_checks ++ flat_map (λ c, required_checks c edit_rate) children).
Proof.
  intros Hsup. revert all_checks.
  induction Hsup as [|child rest Hc _ IH]; intros all_checks; cbn.
  - by rewrite app_nil_r.
  - rewrite (child_checks_required _ _ Hc). cbn. rewrite IH.
    by rewrite <- app_assoc.
Qed.

Lemma flat_map_flat_map {A B C} (f : B → list C) (g : A → list B) l :
  flat_map f (flat_map g l) = flat_map (λ x, flat_map f (g x)) l.
Proof.
  induction l as [|x l IH]; cbn; [done|].
  by rewrite flat_map_app, IH.
Qed.

Lemma existsb_errors cs :
  existsb (λ c, match errors c with [] => false | _ => true end) cs = false
  ↔ flat_map errors cs = [].
Proof.
  induction cs as [|c cs IH]; cbn; [done|].
  destruct (errors c); cbn; [exact IH|]. split; discriminate.
Qed.

(** The validator without unsupported generators: one run over all the
    children, one aggregated error. *)
Lemma validate_metadata_run timeline children :
  Forall supported children →
  validate_metadata timeline children =
    match all_errors timeline children with
    | [] => Ok tt
    | errs => Raise (AAFValidationError
                       (newline +:+ String.concat newline errs))
    end.
Proof.
  intros Hsup. unfold validate_metadata.
  rewrite (loop_collects _ _ _ Hsup). cbn [mbind result_bind Py.bind].
  assert (Herrs : flat_map errors
            ([__check timeline "duration().rate"] ++
             flat_map (λ c, required_checks c
                              (value (__check timeline "duration().rate")))
                      children)
          = all_errors timeline children).
  { rewrite flat_map_app. cbn [flat_map]. rewrite app_nil_r.
    by rewrite flat_map_flat_map. }
  destruct (existsb _ _) eqn:E.
  - rewrite Herrs. destruct (all_errors timeline children) eqn:Ha; [|done].
    apply existsb_errors in Herrs. congruence.
  - apply existsb_errors in E. rewrite Herrs in E. by rewrite E.
Qed.

Lemma split_on_String sep c s :
  split_on sep (String c s) =
    if decide (c = sep) then EmptyString :: split_on sep s
    else match split_on sep s with
         | [] => [String c EmptyString]
         | w :: ws => String c w :: ws
         end.
Proof. reflexivity. Qed.

Lemma contains_char_String sep c s :
  contains_char sep (String c s) =
    if decide (c = sep) then true else contains_char sep s.
Proof. reflexivity. Qed.

Lemma split_on_clean sep a :
  contains_char sep a = false → split_on sep a = [a].
Proof.
  induction a as [|c a IH]; [done|].
  rewrite contains_char_String, split_on_String.
  case_decide; [discriminate|]. intros Ha. by rewrite (IH Ha).
Qed.

Lemma split_on_app_sep sep a rest :
  contains_char sep a = false →
  split_on sep (a +:+ String sep rest) = a :: split_on sep rest.
Proof.
  induction a as [|c a IH].
  - intros _. change (EmptyString +:+ String sep rest) with (String sep rest).
    rewrite split_on_String. by rewrite decide_True.
  - rewrite contains_char_String.
    change (String c a +:+ String sep rest)
      with (String c (a +:+ String sep rest)).
    rewrite split_on_String.
    case_decide; [discriminate|]. intros Ha. by rewrite (IH Ha).
Qed.

Lemma split_on_concat errs :
  Forall clean_line errs → errs ≠ [] →
  split_on "010" (String.concat newline errs) = errs.
Proof.
  induction 1 as [|e errs He Herrs IH]; [done|]. intros _.
  destruct errs as [|e' errs].
  - cbn. by apply split_on_clean.
  - change (String.concat newline (e :: e' :: errs))
      with (e +:+ String "010" (String.concat newline (e' :: errs))).
    rewrite (split_on_app_sep _ _ _ He). by rewrite IH.
Qed.

Lemma lines_of_message errs :
  Forall clean_line errs → Forall (λ e, e ≠ EmptyString) errs →
  lines (newline +:+ String.concat newline errs) = errs.
Proof.
  intros Hclean Hne. unfold lines.
  change (newline +:+ String.concat newline errs)
    with (String "010" (String.concat newline errs)).
  rewrite split_on_String, decide_True by done.
  rewrite filter_cons_False by (intros ?; done).
  destruct errs as [|e errs].
  - change (split_on "010" (String.concat newline [])) with [EmptyString].
    by rewrite filter_cons_False by (intros ?; done).
  - rewrite (split_on_concat (e :: errs) Hclean) by done.
    clear Hclean. induction Hne as [|x l Hx Hl IH]; [done|].
    by rewrite filter_cons_True, IH.
Qed.

Lemma append_nonempty a b : b ≠ EmptyString → a +:+ b ≠ EmptyString.
Proof. destruct a; cbn; [done|discriminate]. Qed.

Lemma check_errors_nonempty obj path :
  Forall (λ e, e ≠ EmptyString) (errors (__check obj path)).
Proof.
  unfold __check. destruct (walk _ _); cbn; [constructor|].
  repeat constructor. apply append_nonempty. discriminate.
Qed.

Lemma equals_errors_nonempty c val :
  Forall (λ e, e ≠ EmptyString) (errors c) →
  Forall (λ e, e ≠ EmptyString) (errors (equals c val)).
Proof.
  intros Hc. unfold equals.
  destruct (value c); try done;
    (destruct (obj_neq _ _); [|done]; cbn; apply Forall_app; split; [done|];
     repeat constructor; apply append_nonempty; discriminate).
Qed.

Lemma required_checks_nonempty child edit_rate :
  Forall (λ e, e ≠ EmptyString)
         (flat_map errors (required_checks child edit_rate)).
Proof.
  unfold required_checks, transition_checks, clip_checks, gap_checks.
  repeat (case_match; cbn [flat_map]);
    repeat (apply Forall_app; split);
    auto using check_errors_nonempty, equals_errors_nonempty.
Qed.

Lemma all_errors_nonempty timeline children :
  Forall (λ e, e ≠ EmptyString) (all_errors timeline children).
Proof.
  unfold all_errors. apply Forall_app. split; [apply check_errors_nonempty|].
  induction children as [|c cs IH]; cbn; [constructor|].
  apply Forall_app. split; [apply required_checks_nonempty|exact IH].
Qed.

(** C8 (as amended).  When no clip sits on a generator other than a slug, the
    validator visits every child: without a violation it raises nothing, and
    otherwise it raises one [AAFValidationError] whose message has exactly one
    line per violation (for messages free of line breaks), in traversal
    order. *)
Theorem validate_metadata_aggregates timeline children :
  Forall supported children →
  (all_errors timeline children = [] →
     validate_metadata timeline children = Ok tt)
  ∧ (all_errors timeline children ≠ [] →
     validate_metadata timeline children
     = Raise (AAFValidationError
                (newline +:+ String.concat newline
                                           (all_errors timeline children))))
  ∧ (Forall clean_line (all_errors timeline children) →
     lines (newline +:+ String.concat newline (all_errors timeline children))
     = all_errors timeline children).
Proof.
  intros Hsup. pose proof (validate_metadata_run timeline children Hsup) as Hrun.
  split; [|split].
  - intros Hnone. by rewrite Hrun, Hnone.
  - intros Hsome. rewrite Hrun. by destruct (all_errors timeline children).
  - intros Hclean. apply lines_of_message; [done|apply all_errors_nonempty].
Qed.

Lemma four_defects_supported : Forall supported four_defects.
Proof. repeat constructor; eexists; reflexivity. Defined.

(** Four independent defects: one error, four lines. *)
Lemma validate_metadata_aggregates_witness :
  (∃ msg, validate_metadata timeline24 four_defects
          = Raise (AAFValidationError msg) ∧ length (lines msg) = 4%nat)
  ∧ validate_metadata timeline24 no_defects = Ok tt.
Proof.
  split.
  - exists (newline +:+ String.concat newline (all_errors timeline24 four_defects)).
    destruct (validate_metadata_aggregates timeline24 four_defects
                four_defects_supported) as (_ & Hraise & Hlines).
    split.
    + apply Hraise. vm_compute. discriminate.
    + rewrite Hlines; [reflexivity|]. vm_compute. repeat constructor.
  - apply (validate_metadata_aggregates timeline24 no_defects).
    + repeat constructor; eexists; reflexivity.
    + reflexivity.
Defined.

(** C8 (counterexample).  A clip at the wrong rate next to a clip on colour
    bars: the rate violation exists, yet no validation error is raised; the
    validator stops at the generator with [NotSupportedError]. *)
Lemma validate_metadata_short_circuits :
  all_errors timeline24 defect_and_bars ≠ []
  ∧ (∀ msg, validate_metadata timeline24 defect_and_bars
            ≠ Raise (AAFValidationError msg))
  ∧ validate_metadata timeline24 defect_and_bars
    = Raise (NotSupportedError
               "AAF adapter does not support generator references of kind 'SMPTEBars'").
Proof.
  split; [|split].
  - vm_compute. discriminate.
  - intros msg. vm_compute. discriminate.
  - vm_compute. reflexivity.
Qed.

End ValidateFacts.

Module TreeFacts.

(** Induction on composition trees, the children of a composition being
    covered by the hypothesis. *)
Lemma Composable_tree_ind (P : Composable → Prop) :
  (∀ i a, P (Clip i a)) →
  (∀ i, P (Gap i)) →
  (∀ t, P (Transition t)) →
  (∀ i k cs, Forall P cs → P (Track i k cs)) →
  (∀ i cs, Forall P cs → P (Stack i cs)) →
  ∀ c, P c.
Proof.
  intros HC HG HT HTr HS.
  fix IH 1. intros [i a|i|t|i k cs|i cs]; [apply HC|apply HG|apply HT| |].
  - apply HTr. induction cs as [|c cs IHcs]; constructor; [apply IH|exact IHcs].
  - apply HS. induction cs as [|c cs IHcs]; constructor; [apply IH|exact IHcs].
Qed.

End TreeFacts.

Module SimplifyFacts.
Import Simplify SimplifyExamples.

Section with_lib.
Context `{OtioLib}.

Lemma flatten_track_items_cons fuel child todo done thing :
  flatten_track_items fuel (child :: todo) done thing =
    can ← _track_item_can_flatten child;
    if can : bool then
      match fuel with
      | O => Raise RecursionError
      | S fuel' =>
          '(children_of_child, thing) ← pull_up_track child thing;
          flatten_track_items fuel' (rev children_of_child ++ todo) done thing
      end
    else flatten_track_items fuel todo (child :: done) thing.
Proof. destruct fuel; reflexivity. Qed.

Lemma flatten_track_items_nil fuel done thing :
  flatten_track_items fuel [] done thing = Ok (done, thing).
Proof. destruct fuel; reflexivity. Qed.

Lemma flatten_stack_items_cons fuel child todo done thing :
  flatten_stack_items fuel (child :: todo) done thing =
    if _stack_item_can_be_flatten child then
      match fuel with
      | O => Raise RecursionError
      | S fuel' =>
          let child := match child with
                       | Track _ _ (inner :: _) => inner
                       | _ => child
                       end in
          match child with
          | Stack ci children_of_child =>
              flatten_stack_items
                fuel' (rev children_of_child ++ todo) done
                (set_enabled (enabled thing && enabled ci)
                             (set_markers (markers thing ++ markers ci)
                                          thing))
          | _ => Raise TypeError
          end
      end
    else flatten_stack_items fuel todo (child :: done) thing.
Proof. destruct fuel; reflexivity. Qed.

Lemma flatten_stack_items_nil fuel done thing :
  flatten_stack_items fuel [] done thing = Ok (done, thing).
Proof. destruct fuel; reflexivity. Qed.

Lemma flatten_track_items_skip fuel todo done thing :
  Forall (λ c, _track_item_can_flatten c = Ok false) todo →
  flatten_track_items fuel todo done thing = Ok (rev todo ++ done, thing).
Proof.
  intros Hno. revert done.
  induction Hno as [|c todo Hc _ IH]; intros done.
  - apply flatten_track_items_nil.
  - rewrite flatten_track_items_cons, Hc. cbn. rewrite IH.
    cbn [rev]. by rewrite <- app_assoc.
Qed.

Lemma flatten_stack_items_skip fuel todo done thing :
  Forall (λ c, _stack_item_can_be_flatten c = false) todo →
  flatten_stack_items fuel todo done thing = Ok (rev todo ++ done, thing).
Proof.
  intros Hno. revert done.
  induction Hno as [|c todo Hc _ IH]; intros done.
  - apply flatten_stack_items_nil.
  - rewrite flatten_stack_items_cons, Hc. rewrite IH.
    cbn [rev]. by rewrite <- app_assoc.
Qed.

Lemma wrap_in_track_tracks cs :
  Forall (λ c, is_track c = true) cs → map wrap_in_track cs = cs.
Proof.
  induction 1 as [|c cs Hc _ IH]; cbn; [done|].
  unfold wrap_in_track at 1. by rewrite Hc, IH.
Qed.

Lemma wrap_in_track_is_track c : is_track (wrap_in_track c) = true.
Proof. unfold wrap_in_track. by destruct (is_track c) eqn:E. Qed.

Lemma map_wrap_all_tracks cs :
  Forall (λ c, is_track c = true) (map wrap_in_track cs).
Proof. apply Forall_map, Forall_true. intros c. apply wrap_in_track_is_track. Qed.

Lemma mapM_Forall2 {A B} (f : A → result B) l l' :
  mapM f l = Ok l' → Forall2 (λ x y, f x = Ok y) l l'.
Proof.
  revert l'. induction l as [|x l IH]; intros l'; cbn.
  - intros [= <-]. constructor.
  - destruct (f x) as [y|] eqn:Hx; cbn; [|discriminate].
    destruct (mapM f l) as [ys|] eqn:Hl; cbn; [|discriminate].
    intros [= <-]. constructor; auto.
Qed.

Lemma mapM_id {A} (f : A → result A) l :
  Forall (λ x, f x = Ok x) l → mapM f l = Ok l.
Proof.
  induction 1 as [|x l Hx _ IH]; cbn; [done|]. by rewrite Hx; cbn; rewrite IH.
Qed.

Lemma trim_stack_tracks_tracks i cs cs' i' :
  Forall (λ c, is_track c = true) cs →
  trim_stack_tracks i cs = Ok (cs', i') →
  Forall (λ c, is_track c = true) cs'.
Proof.
  intros Hcs. unfold trim_stack_tracks.
  destruct (source_range i) as [sr|]; [|by intros [= <- <-]].
  destruct (_has_transitions _) as [[]|]; cbn; try discriminate.
  { by intros [= <- <-]. }
  destruct (mapM _ cs) as [cs''|] eqn:Hmap; cbn; [|discriminate].
  intros [= <- <-]. apply mapM_Forall2 in Hmap.
  clear -Hmap Hcs. induction Hmap as [|c t cs ts Hc _ IH]; [constructor|].
  inversion Hcs as [|? ? Hct Hcs']; subst. constructor; [|by apply IH].
  destruct (track_trimmed_to_range c sr) as [t'|] eqn:Ht; cbn in Hc;
    [|discriminate].
  pose proof (track_trimmed_is_track _ _ _ Ht Hct) as Htrack.
  destruct t'; try discriminate.
  destruct (mapM _trim_markers children); cbn in Hc; [|discriminate].
  by injection Hc as <-.
Qed.

Lemma collapse_shape i child res :
  collapse i child = Ok res → ∃ r, res = with_item (λ _, r) child.
Proof.
  unfold collapse. intros Hc.
  repeat case_match; simplify_eq; eauto.
Qed.

(** What [_simplify] stores as the root stack of a timeline. *)
Lemma root_stack_all_tracks i cs r :
  simplify_composable Detached (Stack i cs) = Ok r →
  ∃ i' cs', (if is_stack r.2 then r.2 else r.1) = Stack i' cs'
            ∧ Forall (λ c, is_track c = true) cs'.
Proof.
  destruct cs as [|c0 cs0].
  { cbn. intros [= <-]. cbn. eauto. }
  cbn [simplify_composable]. set (cs := c0 :: cs0).
  destruct (mapM _ cs) as [cs1|]; cbn -[flatten_stack_items]; [|discriminate].
  destruct (flatten_stack_items _ _ _ _) as [[cs2 i2]|];
    cbn -[trim_stack_tracks]; [|discriminate].
  destruct (trim_stack_tracks i2 (map wrap_in_track cs2)) as [[cs3 i3]|] eqn:Ht;
    cbn; [|discriminate].
  apply trim_stack_tracks_tracks in Ht; [|apply map_wrap_all_tracks].
  unfold finish.
  destruct (_is_redundant_container Detached (Stack i3 cs3)) eqn:Hred.
  - destruct cs3 as [|child [|]]; try discriminate Hred.
    destruct (collapse i3 child) as [res|] eqn:Hc; cbn; [|discriminate].
    intros [= <-]. cbn.
    inversion Ht as [|? ? Hchild _]; subst.
    assert (is_stack res = false) as ->.
    { apply collapse_shape in Hc as [r' ->]. by destruct child. }
    eauto.
  - cbn. intros [= <-]. cbn. eexists _, _. split; [done|].
    by rewrite wrap_in_track_tracks.
Qed.

Lemma simplified_tracks tl tl' :
  _simplify (TTimeline tl) = Ok (TTimeline tl') →
  Forall (λ c, is_track c = true) (tracks tl').
Proof.
  cbn [_simplify].
  destruct (simplify_composable _ _) as [r|] eqn:Hr; cbn; [|discriminate].
  destruct (root_stack_all_tracks _ _ _ Hr) as (i' & cs' & -> & Hall).
  by intros [= <-].
Qed.

(** *** Flat timelines *)

Lemma leaf_simplify ctx c :
  is_leaf c = true → simplify_composable ctx c = Ok (c, c).
Proof. by destruct c. Qed.

Lemma leaf_cannot_flatten c :
  is_leaf c = true → _track_item_can_flatten c = Ok false.
Proof. by destruct c. Qed.

Lemma forallb_Forall' {A} (f : A → bool) l :
  forallb f l = true → Forall (λ x, f x = true) l.
Proof.
  induction l as [|x l IH]; cbn; [constructor|].
  intros [Hx Hl]%andb_true_iff. constructor; auto.
Qed.

Lemma Forall_list_filter {A} (P : A → Prop) (f : A → bool) l :
  Forall P l → Forall P (List.filter f l).
Proof.
  induction 1 as [|x l Hx _ IH]; cbn; [constructor|].
  destruct (f x); [constructor|]; auto.
Qed.

Lemma Forall_forallb {A} (f : A → bool) l :
  Forall (λ x, f x = true) l → forallb f l = true.
Proof. induction 1 as [|x l Hx _ IH]; cbn; [done|]. by rewrite Hx, IH. Qed.

Lemma flat_track_simplify c :
  flat_track c = true → simplify_composable InRootStack c = Ok (c, c).
Proof.
  destruct c as [| | |i k cs|]; try discriminate. cbn [flat_track].
  intros Hleaves%forallb_Forall'.
  destruct cs as [|c0 cs0]; [done|].
  cbn [simplify_composable]. remember (c0 :: cs0) as cs eqn:Ecs.
  rewrite (mapM_id _ cs); cycle 1.
  { eapply Forall_impl; [exact Hleaves|]. intros c Hc. cbn.
    by rewrite (leaf_simplify _ _ Hc). }
  cbn -[flatten_track_items].
  rewrite flatten_track_items_skip; cycle 1.
  { apply Forall_rev. eapply Forall_impl; [exact Hleaves|].
    apply leaf_cannot_flatten. }
  rewrite rev_involutive, app_nil_r. cbn.
  unfold finish.
  assert (_is_redundant_container InRootStack (Track i k cs) = false) as ->.
  { subst cs. destruct cs0; [|done]. cbn.
    destruct (_valuable_metadata _); [done|].
    inversion Hleaves as [|? ? Hc0 _]. by destruct c0. }
  done.
Qed.

Lemma flat_track_not_stack_flatten c :
  flat_track c = true → _stack_item_can_be_flatten c = false.
Proof.
  destruct c as [| | |i k cs|]; try discriminate. cbn [flat_track].
  intros Hleaves. unfold _stack_item_can_be_flatten.
  destruct (_ || _); [done|].
  destruct cs as [|c0 [|]]; try done.
  cbn in Hleaves. by destruct c0.
Qed.

Lemma flat_track_is_track c : flat_track c = true → is_track c = true.
Proof. by destruct c. Qed.

(** On a flat timeline the simplifier only drops the tracks that hold
    nothing valuable. *)
Lemma simplify_flat tl :
  flat tl →
  _simplify (TTimeline tl)
  = Ok (TTimeline
          (mkTimeline (tl_name tl) (tl_metadata tl) (global_start_time tl)
                      (tracks_item tl)
                      (List.filter _contains_something_valuable (tracks tl)))).
Proof.
  destruct tl as [n md gst i cs]. intros [Hsr Hflat%forallb_Forall'].
  cbn in Hsr, Hflat. cbn [_simplify tracks_item tracks tl_name tl_metadata
                            global_start_time].
  destruct cs as [|c0 cs0]; [done|].
  cbn [simplify_composable]. remember (c0 :: cs0) as cs eqn:Ecs.
  rewrite (mapM_id _ cs); cycle 1.
  { eapply Forall_impl; [exact Hflat|]. intros c Hc. cbn.
    by rewrite (flat_track_simplify _ Hc). }
  cbn -[flatten_stack_items List.filter].
  set (kept := List.filter _contains_something_valuable cs).
  assert (Hkept : Forall (λ c, flat_track c = true) kept).
  { by apply Forall_list_filter. }
  rewrite flatten_stack_items_skip; cycle 1.
  { apply Forall_rev. eapply Forall_impl; [exact Hkept|].
    apply flat_track_not_stack_flatten. }
  rewrite rev_involutive, app_nil_r. cbn -[List.filter].
  assert (Htracks : Forall (λ c, is_track c = true) kept).
  { eapply Forall_impl; [exact Hkept|]. apply flat_track_is_track. }
  rewrite (wrap_in_track_tracks kept Htracks).
  unfold trim_stack_tracks. rewrite Hsr. cbn -[List.filter].
  unfold finish.
  destruct (_is_redundant_container Detached (Stack i kept)) eqn:Hred.
  - destruct kept as [|child [|]] eqn:Ek; try discriminate Hred.
    inversion Htracks as [|? ? Hchild _]; subst.
    destruct child; try discriminate Hchild.
    unfold collapse. cbn [item_of]. rewrite Hsr. cbn. done.
  - cbn -[List.filter]. by rewrite (wrap_in_track_tracks kept Htracks).
Qed.

Lemma filter_filter {A} (f : A → bool) l :
  List.filter f (List.filter f l) = List.filter f l.
Proof.
  induction l as [|x l IH]; cbn; [done|].
  destruct (f x) eqn:E; cbn; [|done]. by rewrite E, IH.
Qed.

End with_lib.

(** C5 (as amended).  After simplification every child of a timeline's root
    stack is a Track; [Track[Stack[Track[Clip]]]] and
    [Track[Stack[Track[Track[Clip]]]]] both come out as [Track[Clip]], the
    root's own Track being kept. *)
Theorem simplified_root_children_are_tracks `{OtioLib} :
  (∀ tl tl', _simplify (TTimeline tl) = Ok (TTimeline tl') →
             Forall (λ c, is_track c = true) (tracks tl'))
  ∧ _simplify track_stack_track = Ok (timeline [track [clip "c"]])
  ∧ _simplify track_stack_track_track = Ok (timeline [track [clip "c"]]).
Proof.
  split; [exact simplified_tracks|]. split; reflexivity.
Qed.

Lemma simplified_root_children_are_tracks_witness :
  Forall (λ c, is_track c = true) [track [clip "c"]].
Proof.
  apply (proj1 (simplified_root_children_are_tracks (H := SimpleOtio.simple_otio))
               (mkTimeline "" [] None new_item
                           [track [stack [track [track [clip "c"]]]]])
               (mkTimeline "" [] None new_item [track [clip "c"]])).
  reflexivity.
Defined.

(** C5 (counterexample).  The second collapse does not stop at
    [Track[Track[Clip]]]. *)
Lemma second_collapse_reaches_the_clip :
  _simplify (H := SimpleOtio.simple_otio) track_stack_track_track
  ≠ Ok (timeline [track [track [clip "c"]]]).
Proof. vm_compute. discriminate. Qed.

(** Flat timelines, whatever their tracks carry: the simplifier returns a
    flat timeline, and simplifying that again changes nothing. *)
Lemma simplify_idempotent_on_flat_timelines `{OtioLib} tl :
  flat tl →
  ∃ tl', _simplify (TTimeline tl) = Ok (TTimeline tl')
         ∧ flat tl'
         ∧ _simplify (TTimeline tl') = Ok (TTimeline tl').
Proof.
  intros Hflat. pose proof (simplify_flat tl Hflat) as Hrun.
  eexists. split; [exact Hrun|].
  assert (Hflat' : flat
    (mkTimeline (tl_name tl) (tl_metadata tl) (global_start_time tl)
                (tracks_item tl)
                (List.filter _contains_something_valuable (tracks tl)))).
  { destruct Hflat as [Hsr Hall]. split; [done|]. cbn.
    by apply Forall_forallb, Forall_list_filter, forallb_Forall'. }
  split; [done|].
  rewrite (simplify_flat _ Hflat'). cbn. by rewrite filter_filter.
Qed.


End SimplifyFacts.

Module PlainFacts.
Import Simplify SimplifyExamples SimplifyShapes SimplifyFacts.





Section collapse_and_pull_up.
Context `{OtioLib}.




End collapse_and_pull_up.




















Section passes.
Context `{OtioLib}.






(** *** A further pass over what a pass has left *)









(** *** What a pass leaves of a plain tree *)


















(** *** A pass over a plain tree without transitions returns *)

















End passes.



(** Where the class ends.  A marker on a nested Track reaches, through an
    empty Stack below it, a Stack that is left with a single child: one
    pass leaves it on the synthetic Track, the next one moves it to the
    clip.  A Transition directly in a nested Stack is wrapped in a Track by
    one pass, and the next pass fails on that Track. *)
Example passes_differ_outside_plain_timelines :
  (once ← _simplify (H := SimpleOtio.simple_otio)
                    marked_track_over_empty_stack;
   _simplify (H := SimpleOtio.simple_otio) once)
  ≠ _simplify (H := SimpleOtio.simple_otio) marked_track_over_empty_stack
  ∧ ∃ once, _simplify (H := SimpleOtio.simple_otio) stacked_transition
            = Ok once
            ∧ _simplify (H := SimpleOtio.simple_otio) once
              = Raise AttributeError.
Proof.
  split; [vm_compute; discriminate|].
  eexists. split; [vm_compute; reflexivity|].
  vm_compute. reflexivity.
Qed.

End PlainFacts.

Module ReaderFacts.
Import Reader ReaderExamples.

Lemma dict_get_set_ne d k k' v :
  k ≠ k' → dict_get (dict_set d k v) k' = dict_get d k'.
Proof.
  intros Hne. induction d as [|[k0 v0] d IH]; cbn.
  - by rewrite decide_False.
  - destruct (decide (k0 = k)) as [->|Hk]; cbn.
    + by rewrite !decide_False.
    + destruct (decide (k0 = k')); [done|exact IH].
Qed.

Lemma dict_get_set_eq d k v : dict_get (dict_set d k v) k = Some v.
Proof.
  induction d as [|[k0 v0] d IH]; cbn.
  - by rewrite decide_True.
  - destruct (decide (k0 = k)) as [->|Hk]; cbn.
    + by rewrite decide_True.
    + by rewrite decide_False.
Qed.

Section with_lib.
Context `{OtioLib} `{PyFloat}.
Variable mobs : gmap MobID AAFObj.

Lemma append_points_other md cps md' k :
  append_points md cps = Ok md' → k ≠ "PointList" →
  dict_get md' k = dict_get md k.
Proof.
  intros Hrun Hk. revert md Hrun.
  induction cps as [|cp cps IH]; intros md; cbn.
  - by intros [= <-].
  - destruct (append_point md cp) as [md1|] eqn:Hp; cbn; [|discriminate].
    intros Hrest. rewrite (IH _ Hrest).
    unfold append_point in Hp.
    destruct (dict_get md "PointList") as [[]|]; simplify_eq;
      by rewrite dict_get_set_ne.
Qed.

Lemma RationalTime_ok value rate t :
  RationalTime_ value rate = Ok t →
  ∃ r, rate = Some r ∧ t = mkRT (inject_Z value) r.
Proof. destruct rate; cbn; [|discriminate]. intros [= <-]. eauto. Qed.

(** The Transition branch: offsets from [CutPoint] and the length. *)
Lemma transcribe_transition_offsets length ogi og edit_rate metadata r md' :
  transcribe_transition length ogi og edit_rate metadata = Ok (r, md') →
  ∃ t rate cut,
    r = TComposable (Transition t)
    ∧ edit_rate = Some rate
    ∧ py_int (default (PStr "0") (dict_get metadata "CutPoint")) = Ok cut
    ∧ in_offset t = mkRT (inject_Z cut) rate
    ∧ out_offset t = mkRT (inject_Z (length - cut)) rate.
Proof.
  unfold transcribe_transition.
  destruct (match og with None => _ | Some _ => _ end) as [md1|] eqn:Hmd1;
    cbn; [|discriminate].
  destruct (match ogi with Some (OperationGroup _ _ _ _) => _ | _ => _ end)
    as [ps|]; cbn; [|discriminate].
  destruct (match first_varying ps with Some _ => _ | None => _ end)
    as [md2|] eqn:Hmd2; cbn; [|discriminate].
  assert (Hcut : dict_get md2 "CutPoint" = dict_get metadata "CutPoint").
  { transitivity (dict_get md1 "CutPoint").
    - destruct (first_varying ps); [|by simplify_eq].
      by eapply append_points_other.
    - destruct og as [g|]; [|by simplify_eq].
      destruct (effects_of_thing g) as [[|e es]|]; cbn in Hmd1; simplify_eq;
        [done|]. by rewrite dict_get_set_ne. }
  rewrite Hcut.
  destruct (py_int _) as [cut|]; cbn; [|discriminate].
  destruct (RationalTime_ cut edit_rate) as [i|] eqn:Hi; cbn; [|discriminate].
  destruct (RationalTime_ (length - cut) edit_rate) as [o|] eqn:Ho; cbn;
    [|discriminate].
  intros [= <- <-].
  apply RationalTime_ok in Hi as (rate & -> & ->).
  apply RationalTime_ok in Ho as (rate' & [= <-] & ->).
  eauto 10.
Qed.

Lemma postprocess_transition item t metadata r :
  postprocess item (TComposable (Transition t)) metadata = Ok r →
  ∃ t', r = TComposable (Transition t')
        ∧ in_offset t' = in_offset t ∧ out_offset t' = out_offset t.
Proof.
  unfold postprocess. cbn.
  destruct (String.eqb (t_name t) "").
  - destruct (dict_get metadata "Name") as [[]|]; cbn; try discriminate;
      repeat case_match; intros; cbn in *; simplify_eq; eauto.
  - cbn. repeat case_match; intros; cbn in *; simplify_eq; eauto.
Qed.

Lemma transcribe_S fuel item parents edit_rate st :
  _transcribe mobs (S fuel) item parents edit_rate st =
    let edit_rate' := match edit_rate_of item with
                      | Some r => Some r
                      | None => edit_rate
                      end in
    match dispatch mobs (_transcribe mobs fuel) item parents edit_rate'
                   (initial_metadata mobs item) st with
    | Raise e => Raise e
    | Ok (r, st1) =>
        match postprocess item r.1 r.2 with
        | Raise e => Raise e
        | Ok result_ =>
            match sync_cache item result_ st1 with
            | Raise e => Raise e
            | Ok (_, st2) => Ok (result_, st2)
            end
        end
    end.
Proof.
  cbn [_transcribe]. unfold mbind, M_bind, bindM, lift, mret, M_ret, ret.
  destruct (dispatch _ _ _ _ _ _ _) as [[r st1]|]; [|done].
  destruct (postprocess _ _ _); [|done].
  by destruct (sync_cache _ _ _) as [[]|].
Qed.

Lemma transcribe_transition_node fuel o mk length ogi parents edit_rate st r st' :
  _transcribe mobs fuel (Transition_ o mk length ogi) parents edit_rate st
    = Ok (r, st') →
  ∃ t rate cut,
    r = TComposable (Transition t)
    ∧ edit_rate = Some rate
    ∧ py_int (default (PStr "0")
                (dict_get (initial_metadata mobs (Transition_ o mk length ogi))
                          "CutPoint")) = Ok cut
    ∧ in_offset t = mkRT (inject_Z cut) rate
    ∧ out_offset t = mkRT (inject_Z (length - cut)) rate.
Proof.
  destruct fuel as [|fuel]; [discriminate|].
  rewrite transcribe_S. cbn [edit_rate_of].
  destruct (dispatch _ _ _ _ _ _ _) as [[[r0 md] st1]|] eqn:Hd; [|discriminate].
  cbn [fst snd].
  destruct (postprocess _ r0 md) as [res|] eqn:Hp; [|discriminate].
  cbn. intros [= <- <-].
  cbn [dispatch] in Hd. unfold mbind, M_bind, bindM, lift, mret, M_ret, ret in Hd.
  assert (∃ og, transcribe_transition length ogi og edit_rate
                  (initial_metadata mobs (Transition_ o mk length ogi))
                = Ok (r0, md)) as [og Htr].
  { destruct ogi as [g|].
    - destruct (_transcribe mobs fuel g _ _ st) as [[t st2]|]; [|discriminate].
      exists (Some t). by destruct (transcribe_transition _ _ _ _ _);
        simplify_eq.
    - exists None. by destruct (transcribe_transition _ _ _ _ _); simplify_eq. }
  apply transcribe_transition_offsets in Htr
    as (t & rate & cut & -> & -> & Hcut & Hin & Hout).
  apply postprocess_transition in Hp as (t' & -> & Hin' & Hout').
  exists t', rate, cut. rewrite Hin', Hout'. eauto.
Qed.

Lemma transcribe_raise fuel item parents edit_rate st e :
  dispatch mobs (_transcribe mobs fuel) item parents
           (match edit_rate_of item with
            | Some r => Some r
            | None => edit_rate
            end)
           (initial_metadata mobs item) st = Raise e →
  _transcribe mobs (S fuel) item parents edit_rate st = Raise e.
Proof. intros Hd. rewrite transcribe_S. cbn zeta. by rewrite Hd. Qed.

(** *** The mob branches *)

Lemma dispatch_composition_miss fuel o mob_id slots parents edit_rate md st :
  st !! mob_id = None →
  dispatch mobs (_transcribe mobs fuel) (CompositionMob o mob_id slots)
           parents edit_rate md st =
    match slot_tracks mobs fuel (CompositionMob o mob_id slots) slots parents
                      edit_rate st with
    | Raise e => Raise e
    | Ok (tracks, st1) =>
        let tl := mkTimeline "" [] (start_time <$> _get_mob_start_tc slots)
                             tracks.1 tracks.2 in
        Ok ((TTimeline tl, md), <[mob_id := tl]> st1)
    end.
Proof.
  intros Hmiss. cbn [dispatch].
  unfold slot_tracks, mbind, M_bind, bindM, cache_get, cache_put, mret,
    M_ret, ret.
  rewrite Hmiss. by destruct (foldM _ _ _ _ st) as [[]|].
Qed.

Lemma dispatch_composition_hit rec o mob_id slots parents edit_rate md st tl :
  st !! mob_id = Some tl →
  dispatch mobs rec (CompositionMob o mob_id slots) parents edit_rate md st
  = Ok ((TTimeline tl, md), st).
Proof.
  intros Hhit. cbn [dispatch].
  unfold mbind, M_bind, bindM, cache_get, mret, M_ret, ret. by rewrite Hhit.
Qed.

Lemma dispatch_master_hit rec o mob_id slots parents edit_rate md st tl :
  st !! mob_id = Some tl →
  dispatch mobs rec (MasterMob o mob_id slots) parents edit_rate md st
  = Ok ((TTimeline tl, md), st).
Proof.
  intros Hhit. cbn [dispatch].
  unfold mbind, M_bind, bindM, cache_get, mret, M_ret, ret. by rewrite Hhit.
Qed.

Lemma dispatch_mob_timeline rec item mob_id parents edit_rate md st r md' st1 :
  is_cached_mob item = Some mob_id →
  dispatch mobs rec item parents edit_rate md st = Ok ((r, md'), st1) →
  ∃ tl, r = TTimeline tl.
Proof.
  destruct item; try discriminate; intros [= ->]; cbn [dispatch];
    unfold mbind, M_bind, bindM, cache_get, cache_put, lift, mret, M_ret, ret.
  - destruct (st !! mob_id); [intros; simplify_eq; eauto|].
    destruct (raw_name o); [|discriminate].
    destruct (foldM _ _ _ _ st) as [[tracks st2]|]; [|discriminate].
    destruct (Markers.attach_timeline _); intros; simplify_eq; eauto.
  - destruct (st !! mob_id); [intros; simplify_eq; eauto|].
    destruct (foldM _ _ _ _ st) as [[tracks st2]|]; intros; simplify_eq; eauto.
Qed.

Lemma postprocess_timeline item tl md r :
  postprocess item (TTimeline tl) md = Ok r →
  ∃ tl', r = TTimeline tl'
         ∧ is_Some (dict_get (tl_metadata tl') "AAF")
         ∧ tracks tl' = tracks tl ∧ tracks_item tl' = tracks_item tl.
Proof.
  unfold postprocess. cbn.
  destruct (String.eqb (tl_name tl) "").
  - destruct (dict_get md "Name") as [[]|]; cbn; try discriminate;
      (destruct (dict_get (tl_metadata tl) "AAF") eqn:Haaf; cbn;
       intros [= <-]; eexists; (split; [reflexivity|]); cbn;
       [rewrite Haaf|rewrite dict_get_set_eq]; eauto).
  - cbn. destruct (dict_get (tl_metadata tl) "AAF") eqn:Haaf; cbn;
      intros [= <-]; eexists; (split; [reflexivity|]); cbn;
      [rewrite Haaf|rewrite dict_get_set_eq]; eauto.
Qed.

Lemma postprocess_settled item tl md :
  tl_name tl ≠ "" → is_Some (dict_get (tl_metadata tl) "AAF") →
  postprocess item (TTimeline tl) md = Ok (TTimeline tl).
Proof.
  intros Hname [aaf Haaf]. unfold postprocess. cbn.
  destruct (String.eqb (tl_name tl) "") eqn:E.
  - by apply String.eqb_eq in E.
  - cbn. by rewrite Haaf.
Qed.

(** After a mob has been transcribed the cache holds the returned node. *)
Lemma mob_is_cached fuel item mob_id parents edit_rate st r st' :
  is_cached_mob item = Some mob_id →
  _transcribe mobs fuel item parents edit_rate st = Ok (r, st') →
  ∃ tl, r = TTimeline tl ∧ st' !! mob_id = Some tl
        ∧ is_Some (dict_get (tl_metadata tl) "AAF").
Proof.
  intros Hmob. destruct fuel as [|fuel]; [discriminate|].
  rewrite transcribe_S. cbn zeta.
  destruct (dispatch _ _ _ _ _ _ _) as [[[r0 md] st1]|] eqn:Hd; [|discriminate].
  cbn [fst snd].
  destruct (dispatch_mob_timeline _ _ _ _ _ _ _ _ _ _ Hmob Hd) as [tl0 ->].
  destruct (postprocess _ _ _) as [res|] eqn:Hp; [|discriminate].
  destruct (postprocess_timeline _ _ _ _ Hp) as (tl & -> & Haaf & _).
  destruct item; try discriminate; injection Hmob as ->; cbn;
    intros [= <- <-]; exists tl; by rewrite lookup_insert_eq.
Qed.

(** A cached mob is handed back as it is; nothing below it is visited. *)
Lemma mob_hit fuel item mob_id parents edit_rate st tl :
  is_cached_mob item = Some mob_id →
  st !! mob_id = Some tl →
  tl_name tl ≠ "" → is_Some (dict_get (tl_metadata tl) "AAF") →
  _transcribe mobs (S fuel) item parents edit_rate st = Ok (TTimeline tl, st).
Proof.
  intros Hmob Hhit Hname Haaf. rewrite transcribe_S. cbn zeta.
  destruct item; try discriminate; injection Hmob as ->.
  - rewrite (dispatch_master_hit _ _ _ _ _ _ _ _ _ Hhit). cbn [fst snd].
    rewrite (postprocess_settled _ _ _ Hname Haaf). cbn.
    by rewrite insert_id.
  - rewrite (dispatch_composition_hit _ _ _ _ _ _ _ _ _ Hhit). cbn [fst snd].
    rewrite (postprocess_settled _ _ _ Hname Haaf). cbn.
    by rewrite insert_id.
Qed.

(** On a miss the slots of a composition mob are transcribed first, in the
    cache as it was found; the entry is made afterwards. *)
Lemma composition_miss fuel o mob_id slots parents edit_rate st r st' :
  st !! mob_id = None →
  _transcribe mobs (S fuel) (CompositionMob o mob_id slots) parents edit_rate st
    = Ok (r, st') →
  ∃ tracks st1 tl,
    slot_tracks mobs fuel (CompositionMob o mob_id slots) slots parents
                edit_rate st
      = Ok (tracks, st1)
    ∧ r = TTimeline tl
    ∧ tracks_item tl = tracks.1 ∧ Otio.tracks tl = tracks.2
    ∧ st' = <[mob_id := tl]> st1.
Proof.
  intros Hmiss. rewrite transcribe_S. cbn zeta. cbn [edit_rate_of].
  rewrite (dispatch_composition_miss _ _ _ _ _ _ _ _ Hmiss).
  destruct (slot_tracks _ _ _ _ _ _ st) as [[tracks st1]|]; [|discriminate].
  cbn [fst snd].
  destruct (postprocess _ _ _) as [res|] eqn:Hp; [|discriminate].
  destruct (postprocess_timeline _ _ _ _ Hp) as (tl & -> & _ & Htr & Hit).
  cbn. intros [= <- <-]. exists tracks, st1, tl.
  rewrite insert_insert_eq. eauto.
Qed.

End with_lib.

(** *** A reference cycle *)

Lemma loop_dispatch `{OtioLib} `{PyFloat} fuel parents edit_rate md :
  dispatch loop_file (_transcribe loop_file fuel) loop_mob parents edit_rate md ∅
  = match slot_tracks loop_file fuel loop_mob [loop_slot] parents edit_rate ∅ with
    | Raise e => Raise e
    | Ok (tracks, st1) =>
        let tl := mkTimeline "" [] (start_time <$> _get_mob_start_tc [loop_slot])
                             tracks.1 tracks.2 in
        Ok ((TTimeline tl, md), <["loop-id" := tl]> st1)
    end.
Proof. apply dispatch_composition_miss, lookup_empty. Qed.

Lemma loop_never_returns `{OtioLib} `{PyFloat} fuel :
  ∀ parents edit_rate,
    ∃ e, _transcribe loop_file fuel loop_mob parents edit_rate ∅ = Raise e.
Proof.
  induction (lt_wf fuel) as [fuel _ IH]. intros parents edit_rate.
  destruct fuel as [|f1]; [by eexists|].
  (* the composition mob: not cached, so its slot comes first *)
  enough (∃ e, slot_tracks loop_file f1 loop_mob [loop_slot] parents
                           edit_rate ∅ = Raise e) as [e He].
  { exists e. apply transcribe_raise.
    change (edit_rate_of loop_mob) with (@None Q). cbn match.
    by rewrite loop_dispatch, He. }
  enough (∃ e, _transcribe loop_file f1 loop_slot (parents ++ [(loop_mob, 0%nat)])
                           edit_rate ∅ = Raise e) as [e He].
  { exists e. unfold slot_tracks. cbn [foldM].
    unfold bindM, mbind, M_bind, bindM. by rewrite He. }
  generalize (parents ++ [(loop_mob, 0%nat)]). clear parents. intros parents.
  destruct f1 as [|f2]; [by eexists|].
  (* the slot: its segment is the clip *)
  enough (∃ e, _transcribe loop_file f2 loop_clip
                           (parents ++ [(loop_slot, 0%nat)]) (Some 24%Q) ∅
               = Raise e) as [e He].
  { exists e. apply transcribe_raise.
    change (edit_rate_of loop_slot) with (Some 24%Q). cbn match.
    change (dispatch loop_file (_transcribe loop_file f2) loop_slot parents
                     (Some 24%Q) (initial_metadata loop_file loop_slot) ∅)
      with (match _transcribe loop_file f2 loop_clip
                              (parents ++ [(loop_slot, 0%nat)]) (Some 24%Q) ∅ with
            | Ok (child, st') =>
                (r ← lift (_add_child (new_item, []) child);
                 mret (TComposable (Track r.1 TrackKind_Video r.2),
                       initial_metadata loop_file loop_slot)) st'
            | Raise e => Raise e
            end).
    by rewrite He. }
  generalize (parents ++ [(loop_slot, 0%nat)]). clear parents. intros parents.
  destruct f2 as [|f3]; [by eexists|].
  (* the clip: its mob is the composition again *)
  destruct (IH f3 ltac:(lia) [] (Some 24%Q)) as [e He].
  exists e. apply transcribe_raise.
  change (edit_rate_of loop_clip) with (@None Q). cbn match.
  unfold loop_clip at 1, clip_of. cbn [dispatch].
  unfold bindM, mbind, M_bind, bindM, lift, option_bind.
  cbn [RationalTime_].
  unfold loop_file at 1. rewrite lookup_singleton_eq.
  change (CompositionMob (obj "CompositionMob" "loop" []) "loop-id" [loop_slot])
    with loop_mob.
  unfold loop_mob at 1. fold loop_mob. by rewrite He.
Qed.

(** C1 (counterexample).  A composition mob whose clip refers back to it is
    never handed back: the entry is not in the cache while the slots are
    being transcribed, so the inner reference starts over, for any depth. *)
Lemma reference_cycle_is_not_guarded :
  ¬ ∃ fuel r st',
      _transcribe (H := SimpleOtio.simple_otio) (H0 := DecimalFloat.decimal_float)
                  loop_file fuel loop_mob [] None ∅ = Ok (r, st').
Proof.
  intros (fuel & r & st' & Hrun).
  destruct (loop_never_returns (H := SimpleOtio.simple_otio)
              (H0 := DecimalFloat.decimal_float) fuel [] None) as [e He].
  congruence.
Qed.

(** C1 (as amended).  A Master or Composition mob found in the cache is
    returned as cached and nothing below it is transcribed again; after a
    mob has been transcribed the cache maps its id to the returned node; and
    on a miss the slots of a composition mob are transcribed first, in the
    cache as found, the entry being made once they are done. *)
Theorem mob_memoization `{OtioLib} `{PyFloat} mobs :
  (∀ fuel item mob_id parents edit_rate st tl,
      is_cached_mob item = Some mob_id →
      st !! mob_id = Some tl →
      tl_name tl ≠ "" → is_Some (dict_get (tl_metadata tl) "AAF") →
      _transcribe mobs (S fuel) item parents edit_rate st
      = Ok (TTimeline tl, st))
  ∧ (∀ fuel item mob_id parents edit_rate st r st',
        is_cached_mob item = Some mob_id →
        _transcribe mobs fuel item parents edit_rate st = Ok (r, st') →
        ∃ tl, r = TTimeline tl ∧ st' !! mob_id = Some tl
              ∧ is_Some (dict_get (tl_metadata tl) "AAF"))
  ∧ (∀ fuel o mob_id slots parents edit_rate st r st',
        st !! mob_id = None →
        _transcribe mobs (S fuel) (CompositionMob o mob_id slots) parents
                    edit_rate st = Ok (r, st') →
        ∃ tracks st1 tl,
          slot_tracks mobs fuel (CompositionMob o mob_id slots) slots parents
                      edit_rate st = Ok (tracks, st1)
          ∧ r = TTimeline tl
          ∧ tracks_item tl = tracks.1 ∧ Otio.tracks tl = tracks.2
          ∧ st' = <[mob_id := tl]> st1).
Proof.
  split; [|split].
  - intros. by eapply mob_hit.
  - intros. by eapply mob_is_cached.
  - intros. by eapply composition_miss.
Qed.

(** Reading the same composition twice in one pass gives the same node. *)
Lemma mob_memoization_witness :
  ∃ tl st1,
    _transcribe (H := SimpleOtio.simple_otio) (H0 := DecimalFloat.decimal_float)
                ∅ 6 edit [] None ∅ = Ok (TTimeline tl, st1)
    ∧ st1 !! "edit-id" = Some tl
    ∧ _transcribe (H := SimpleOtio.simple_otio) (H0 := DecimalFloat.decimal_float)
                  ∅ 6 edit [] None st1 = Ok (TTimeline tl, st1).
Proof.
  destruct (_transcribe (H := SimpleOtio.simple_otio)
                        (H0 := DecimalFloat.decimal_float)
                        ∅ 6 edit [] None ∅) as [[r st1]|] eqn:Hrun.
  - pose proof (mob_memoization (H := SimpleOtio.simple_otio)
                  (H0 := DecimalFloat.decimal_float) ∅) as (Hhit & Hcached & _).
    destruct (Hcached 6%nat edit "edit-id" [] None ∅ r st1 eq_refl Hrun)
      as (tl & -> & Hst & Haaf).
    exists tl, st1. split; [reflexivity|]. split; [exact Hst|].
    apply (Hhit 5%nat edit "edit-id" [] None st1 tl eq_refl Hst); [|exact Haaf].
    vm_compute in Hrun. injection Hrun as <- _. discriminate.
  - vm_compute in Hrun. discriminate.
Defined.

(** C7 (code at the failing input).  A muted Selector without an Alternates
    property does not fail with the adapter's error: building the message
    takes [len(None)] and raises [TypeError].  With a list of the wrong
    length the adapter's error is raised, and with exactly one alternate the
    result is that alternate, disabled. *)
Theorem selector_without_alternates :
  read (H := SimpleOtio.simple_otio) (H0 := DecimalFloat.decimal_float)
       ∅ 3 muted_without_alternates (Some 24%Q) = Raise TypeError
  ∧ read (H := SimpleOtio.simple_otio) (H0 := DecimalFloat.decimal_float)
         ∅ 3 (muted []) (Some 24%Q)
    = Raise (AAFAdapterError
               "AAF Selector parsing error: object has unexpected number of alternates - 0")
  ∧ match read (H := SimpleOtio.simple_otio) (H0 := DecimalFloat.decimal_float)
               ∅ 3 (muted [filler 40]) (Some 24%Q) with
    | Ok (TComposable (Gap i)) => enabled i = false
    | _ => False
    end.
Proof. split; [|split]; vm_compute; reflexivity. Qed.

(** The dissolve of the examples: cut after 4 of its 10 frames. *)
Example dissolve_offsets :
  match read (H := SimpleOtio.simple_otio) (H0 := DecimalFloat.decimal_float)
             ∅ 5 dissolve (Some 24%Q) with
  | Ok (TComposable (Transition t)) =>
      in_offset t = mkRT 4 24 ∧ out_offset t = mkRT 6 24
  | _ => False
  end.
Proof. vm_compute. split; reflexivity. Qed.

(** C10.  A Transition component that is transcribed yields a tree Transition
    at the edit rate handed down from the slot.  Its [in_offset] is the
    integer that [int] reads from the component's CutPoint metadata value:
    the value itself when it is an integer, 0 when there is none; its
    [out_offset] is the declared length less that integer, so the two add
    up to the length. *)
Theorem transition_offsets `{OtioLib} `{PyFloat} mobs fuel o mk length ogi
        parents edit_rate st r st' :
  _transcribe mobs fuel (Transition_ o mk length ogi) parents edit_rate st
    = Ok (r, st') →
  let cut_point :=
    dict_get (initial_metadata mobs (Transition_ o mk length ogi))
             "CutPoint" in
  ∃ t rate cut,
    r = TComposable (Transition t)
    ∧ edit_rate = Some rate
    ∧ py_int (default (PStr "0") cut_point) = Ok cut
    ∧ (∀ z, cut_point = Some (PInt z) →
            in_offset t = mkRT (inject_Z z) rate
            ∧ out_offset t = mkRT (inject_Z (length - z)) rate)
    ∧ (cut_point = None →
       in_offset t = mkRT 0 rate ∧ out_offset t = mkRT (inject_Z length) rate)
    ∧ in_offset t = mkRT (inject_Z cut) rate
    ∧ out_offset t = mkRT (inject_Z (length - cut)) rate
    ∧ (rt_value (in_offset t) + rt_value (out_offset t) == inject_Z length)%Q.
Proof.
  intros Hrun cut_point.
  destruct (transcribe_transition_node mobs _ _ _ _ _ _ _ _ _ _ Hrun)
    as (t & rate & cut & -> & -> & Hcut & Hin & Hout).
  fold cut_point in Hcut.
  exists t, rate, cut. rewrite Hin, Hout. cbn [rt_value].
  split; [done|]. split; [done|]. split; [done|]. split; [|split; [|split; [|split]]];
    try done.
  - intros z Hz. rewrite Hz in Hcut. cbn in Hcut. by injection Hcut as <-.
  - intros Hnone. rewrite Hnone in Hcut. cbn in Hcut.
    assert (cut = 0%Z) as -> by (vm_compute in Hcut; congruence).
    by rewrite Z.sub_0_r.
  - rewrite <- inject_Z_plus.
    by replace (cut + (length - cut))%Z with length by lia.
Qed.

Lemma transition_offsets_witness :
  ∃ t st',
    _transcribe (H := SimpleOtio.simple_otio) (H0 := DecimalFloat.decimal_float)
                ∅ 5 dissolve [] (Some 24%Q) ∅
    = Ok (TComposable (Transition t), st')
    ∧ in_offset t = mkRT 4 24 ∧ out_offset t = mkRT 6 24.
Proof.
  destruct (_transcribe (H := SimpleOtio.simple_otio)
                        (H0 := DecimalFloat.decimal_float)
                        ∅ 5 dissolve [] (Some 24%Q) ∅) as [[r st']|] eqn:Hrun;
    [|vm_compute in Hrun; discriminate].
  destruct (transition_offsets (H := SimpleOtio.simple_otio)
              (H0 := DecimalFloat.decimal_float) ∅ 5 _ _ _ _ _ _ _ _ _ Hrun)
    as (t & rate & cut & -> & [= <-] & _ & Hint & _).
  destruct (Hint 4%Z eq_refl) as [Hin Hout].
  exists t, st'. by rewrite Hin, Hout.
Defined.

End ReaderFacts.

Module MarkersFacts.
Import Markers MarkersExamples.

Lemma list_sum_insert {A} (f : A → nat) (cs : list A) i c c' :
  cs !! i = Some c →
  (list_sum (map f (<[i := c']> cs)) + f c = list_sum (map f cs) + f c')%nat.
Proof.
  unfold list_sum.
  revert i. induction cs as [|x cs IH]; intros [|i]; cbn; try discriminate.
  - intros [= ->]. lia.
  - intros Hi. specialize (IH _ Hi). rewrite <- !Nat.add_assoc. f_equal. exact IH.
Qed.

Lemma markers_of_with_children cs c :
  markers_of (with_children cs c) = markers_of c.
Proof. by destruct c. Qed.

Lemma count_with_children cs c :
  children_of c = Some cs →
  ∀ cs', count_markers (with_children cs' c)
         = (length (markers_of c) + list_sum (map count_markers cs'))%nat.
Proof. destruct c; try discriminate; by intros [= <-]. Qed.

Lemma count_children c cs :
  children_of c = Some cs →
  count_markers c = (length (markers_of c) + list_sum (map count_markers cs))%nat.
Proof. destruct c; try discriminate; by intros [= <-]. Qed.

Lemma list_remove_length m l l' :
  list_remove m l = Ok l' → S (length l') = length l.
Proof.
  revert l'. induction l as [|x l IH]; intros l'; cbn; [discriminate|].
  destruct (Marker_same x m); [by intros [= <-]|].
  destruct (list_remove m l) as [l''|]; cbn; [|discriminate].
  intros [= <-]. cbn. by rewrite (IH _ eq_refl).
Qed.

Lemma append_marker_count m c c' :
  append_marker m c = Ok c' →
  children_of c' = children_of c
  ∧ count_markers c' = S (count_markers c).
Proof.
  unfold append_marker.
  destruct c; cbn; try discriminate; intros [= <-]; cbn;
    rewrite ?length_app; cbn; split; try done; lia.
Qed.

Lemma remove_marker_count m c c' :
  remove_marker m c = Ok c' →
  children_of c' = children_of c
  ∧ S (count_markers c') = count_markers c.
Proof.
  unfold remove_marker.
  destruct c; cbn; try discriminate;
    (destruct (list_remove m (markers i)) as [ms|] eqn:Hr; cbn; [|discriminate];
     intros [= <-]; apply list_remove_length in Hr; cbn; split; [done|lia]).
Qed.

(** A change of one item that adds [up] markers and takes [down] away does
    so for the whole tree. *)
Lemma update_at_count f up down :
  (∀ c c', f c = Ok c' →
           (count_markers c' + down = count_markers c + up)%nat) →
  ∀ p root root',
    update_at f root p = Ok root' →
    (count_markers root' + down = count_markers root + up)%nat.
Proof.
  intros Hf p. induction p as [|i p IH]; intros root root'; cbn.
  - apply Hf.
  - destruct (children_of root) as [cs|] eqn:Hcs; [|discriminate].
    destruct (cs !! i) as [child|] eqn:Hi; [|discriminate].
    destruct (update_at f child p) as [child'|] eqn:Hu; cbn; [|discriminate].
    intros [= <-]. specialize (IH _ _ Hu).
    rewrite (count_with_children _ _ Hcs), (count_children _ _ Hcs).
    pose proof (list_sum_insert count_markers cs i child child' Hi). lia.
Qed.

Lemma update_at_ok f root p c c' :
  get_at root p = Some c → f c = Ok c' →
  ∃ root', update_at f root p = Ok root'.
Proof.
  revert root. induction p as [|i p IH]; intros root; cbn.
  - intros [= ->] ->. eauto.
  - destruct (children_of root) as [cs|]; [|discriminate].
    destruct (cs !! i) as [child|]; [|discriminate].
    intros Hget Hf. destruct (IH _ Hget Hf) as [child' ->]. cbn. eauto.
Qed.

Section with_lib.
Context `{OtioLib}.

Lemma attach_one_count tracks_map current_track marker root root' :
  attach_one tracks_map current_track marker root = Ok root' →
  count_markers root' = count_markers root.
Proof.
  unfold attach_one.
  destruct (update_at (remove_marker marker) root current_track)
    as [root1|] eqn:Hrem; cbn; [|discriminate].
  destruct (match target_track_of tracks_map marker with
            | Some _ => _ | None => _ end) as [[target_item marker']|];
    cbn; [|discriminate].
  intros Happ.
  apply (update_at_count _ 0 1) in Hrem;
    [|intros c c' Hc; apply remove_marker_count in Hc; lia].
  apply (update_at_count _ 1 0) in Happ;
    [|intros c c' Hc; apply append_marker_count in Hc; lia].
  lia.
Qed.

Lemma attach_all_count tracks_map current_track snapshot root root' :
  attach_all tracks_map current_track snapshot root = Ok root' →
  count_markers root' = count_markers root.
Proof.
  revert root. induction snapshot as [|m ms IH]; intros root; cbn.
  - by intros [= <-].
  - destruct (attach_one _ _ _ _) as [root1|] eqn:H1; cbn; [|discriminate].
    intros Hrest. rewrite (IH _ Hrest). by eapply attach_one_count.
Qed.

Lemma attach_tracks_count tracks_map tracks root root' :
  attach_tracks tracks_map tracks root = Ok root' →
  count_markers root' = count_markers root.
Proof.
  revert root. induction tracks as [|t ts IH]; intros root; cbn.
  - by intros [= <-].
  - destruct (attach_all _ _ _ _) as [root1|] eqn:H1; cbn; [|discriminate].
    intros Hrest. rewrite (IH _ Hrest). by eapply attach_all_count.
Qed.

Lemma attach_timeline_count tl tl' :
  attach_timeline tl = Ok tl' →
  count_markers (root_of tl') = count_markers (root_of tl).
Proof.
  unfold attach_timeline.
  destruct (build_tracks_map _ _ _) as [tracks_map|]; cbn; [|discriminate].
  destruct (attach_tracks _ _ _) as [root|] eqn:Hrun; cbn; [|discriminate].
  apply attach_tracks_count in Hrun.
  destruct root; try discriminate. intros [= <-]. exact Hrun.
Qed.

Lemma attach_one_cases tracks_map current_track marker root root1 :
  update_at (remove_marker marker) root current_track = Ok root1 →
  (target_track_of tracks_map marker = None →
   ∀ t', transformed_time root1 current_track
                          (start_time (marked_range marker)) [] = Ok t' →
         attach_one tracks_map current_track marker root
         = update_at (append_marker (set_marked_start t' marker)) root1 [])
  ∧ (∀ target_track,
       target_track_of tracks_map marker = Some target_track →
       (resolve_target root1 current_track target_track marker
        = Raise CannotComputeAvailableRangeError →
        attach_one tracks_map current_track marker root
        = update_at (append_marker marker) root1 target_track)
       ∧ (∀ found t',
            _find_child_at_time (S (depth root1)) root1 target_track
                                (start_time (marked_range marker)) = Ok found →
            (found = None
             ∨ ∃ p, found = Some p ∧ can_have_markers root1 p = false) →
            transformed_time root1 current_track
                             (start_time (marked_range marker)) target_track
            = Ok t' →
            attach_one tracks_map current_track marker root
            = update_at (append_marker (set_marked_start t' marker)) root1
                        target_track)).
Proof.
  intros Hrem. split.
  - intros Hnone t' Ht. unfold attach_one. rewrite Hrem, Hnone. cbn.
    by rewrite Ht.
  - intros target_track Hsome. split.
    + intros Hraise. unfold attach_one. rewrite Hrem, Hsome.
      cbn [mbind result_bind Py.bind]. by rewrite Hraise.
    + intros found t' Hfind Hfound Ht. unfold attach_one.
      rewrite Hrem, Hsome. cbn [mbind result_bind Py.bind].
      unfold resolve_target. rewrite Hfind. cbn [mbind result_bind Py.bind].
      assert (match found with
              | Some p => if can_have_markers root1 p then p else target_track
              | None => target_track
              end = target_track) as ->.
      { destruct Hfound as [->|(p & -> & ->)]; done. }
      by rewrite Ht.
Qed.

End with_lib.

(** C6 (as amended).  Once a marker is taken off its track: if no target
    track is found it is attached to the timeline's root stack, its start
    moved into the stack's space; if the target track is found but the item
    under the marker cannot carry markers, it is attached to the target
    track; if resolving or transforming against the target track fails with
    a cannot-compute-available-range error, the error is caught and the
    marker is attached, unchanged, to the target track.  Whenever the pass
    returns, the tree holds as many markers as before. *)
Theorem markers_are_moved_not_dropped `{OtioLib} :
  (∀ tracks_map current_track marker root root1,
      update_at (remove_marker marker) root current_track = Ok root1 →
      (target_track_of tracks_map marker = None →
       ∀ t', transformed_time root1 current_track
                              (start_time (marked_range marker)) [] = Ok t' →
             attach_one tracks_map current_track marker root
             = update_at (append_marker (set_marked_start t' marker)) root1 [])
      ∧ (∀ target_track,
           target_track_of tracks_map marker = Some target_track →
           (resolve_target root1 current_track target_track marker
            = Raise CannotComputeAvailableRangeError →
            attach_one tracks_map current_track marker root
            = update_at (append_marker marker) root1 target_track)
           ∧ (∀ found t',
                _find_child_at_time (S (depth root1)) root1 target_track
                                    (start_time (marked_range marker))
                = Ok found →
                (found = None
                 ∨ ∃ p, found = Some p ∧ can_have_markers root1 p = false) →
                transformed_time root1 current_track
                                 (start_time (marked_range marker)) target_track
                = Ok t' →
                attach_one tracks_map current_track marker root
                = update_at (append_marker (set_marked_start t' marker)) root1
                            target_track)))
  ∧ (∀ tracks_map current_track marker root root',
        attach_one tracks_map current_track marker root = Ok root' →
        count_markers root' = count_markers root)
  ∧ (∀ tl tl', attach_timeline tl = Ok tl' →
               count_markers (root_of tl') = count_markers (root_of tl)).
Proof.
  split; [|split].
  - apply attach_one_cases.
  - apply attach_one_count.
  - apply attach_timeline_count.
Qed.

Lemma markers_are_moved_not_dropped_witness :
  attach_one (H := SimpleOtio.simple_otio) ∅ [1%nat] (marker_for 7 7 518)
             (root_of stray)
  = update_at (append_marker (set_marked_start (mkRT 518 24) (marker_for 7 7 518)))
              (Stack new_item [picture_track [shot "a" 500; shot "b" 500];
                               event_track []]) []
  ∧ ∃ tl', attach_timeline (H := SimpleOtio.simple_otio) stray = Ok tl'
           ∧ count_markers (root_of tl') = count_markers (root_of stray).
Proof.
  pose proof (markers_are_moved_not_dropped (H := SimpleOtio.simple_otio))
    as (Hcases & _ & Hcount).
  split.
  - apply (proj1 (Hcases ∅ [1%nat] (marker_for 7 7 518) (root_of stray)
                         (Stack new_item
                                [picture_track [shot "a" 500; shot "b" 500];
                                 event_track []])
                         eq_refl)).
    + reflexivity.
    + vm_compute. reflexivity.
  - destruct (attach_timeline (H := SimpleOtio.simple_otio) stray)
      as [tl'|] eqn:Hrun.
    + exists tl'. split; [reflexivity|]. by apply Hcount.
    + vm_compute in Hrun. discriminate.
Defined.

(** C6 (counterexample).  A marker that points at a track the timeline does
    not have ends up on the root stack, and a marker over a transition ends
    up on the target track ([V1], at its recorded time 518): in both cases
    the event track it came from is left without it. *)
Lemma marker_leaves_its_track :
  match attach_timeline (H := SimpleOtio.simple_otio) stray with
  | Ok tl' =>
      markers_of <$> tracks tl' !! 1%nat = Some []
      ∧ marker_starts (root_of tl') = [518%Q]
  | Raise _ => False
  end
  ∧ match attach_timeline (H := SimpleOtio.simple_otio) over_transition with
    | Ok tl' =>
        markers_of <$> tracks tl' !! 1%nat = Some []
        ∧ marker_starts <$> tracks tl' !! 0%nat = Some [518%Q]
    | Raise _ => False
    end.
Proof. split; vm_compute; split; reflexivity. Qed.

(** A marker over a clip is moved onto the clip, into its local time. *)
Example marker_on_second_clip :
  match attach_timeline (H := SimpleOtio.simple_otio) over_clip with
  | Ok tl' =>
      match tracks tl' with
      | Track _ _ [_; second] :: _ => marker_starts second = [18%Q]
      | _ => False
      end
  | Raise _ => False
  end.
Proof. vm_compute. reflexivity. Qed.

End MarkersFacts.

(** * Part II, continued: properties of the further functions *)

Module TimecodeFacts.
Import Timecode.

Lemma dist_self_le (rate w : Q) : (Qabs (rate - rate) <= Qabs w)%Q.
Proof.
  apply (Qle_trans _ 0); [|apply Qabs_nonneg].
  apply Qle_lteq. right.
  transitivity (Qabs 0); [apply Qabs_wd; ring|reflexivity].
Qed.

Lemma nearest_loop_spec rate rates nearest min_diff :
  (match min_diff with
   | Some m => m == Qabs (rate - nearest)
   | None => rates ≠ []
   end)%Q →
  let r := nearest_loop rate rates nearest min_diff in
  (Qabs (rate - r) <= match min_diff with
                      | Some m => m
                      | None => Qabs (rate - r)
                      end)%Q
  ∧ (∀ v, In v rates → Qabs (rate - r) <= Qabs (rate - v))%Q
  ∧ ((min_diff ≠ None ∧ r = nearest) ∨ ∃ v, In v rates ∧ (r == v)%Q).
Proof.
  revert nearest min_diff.
  induction rates as [|v rest IH]; intros nearest min_diff Hinv;
    cbv zeta; cbn [nearest_loop].
  - destruct min_diff as [m|]; [|congruence].
    split; [rewrite Hinv; apply Qle_refl|].
    split; [intros ? []|]. left. split; [discriminate|reflexivity].
  - destruct (Qeq_bool v rate) eqn:Heq.
    + apply Qeq_bool_iff in Heq.
      split.
      { destruct min_diff as [m|]; [|apply Qle_refl].
        eapply Qle_trans; [apply (dist_self_le rate (rate - nearest))|].
        apply Qle_lteq. right. symmetry. exact Hinv. }
      split.
      { intros w _. apply dist_self_le. }
      right. exists v. split; [now left|]. symmetry; exact Heq.
    + destruct min_diff as [m|].
      * destruct (Qle_bool m (Qabs (rate - v))) eqn:Hle.
        -- apply Qle_bool_iff in Hle.
           destruct (IH nearest (Some m) Hinv) as (H1 & H2 & H3).
           split; [exact H1|]. split.
           { intros w [<-|Hw]; [eapply Qle_trans; eassumption|auto]. }
           destruct H3 as [[_ ->]|(w & Hw & Hr)];
             [left; split; [discriminate|reflexivity]
             |right; exists w; split; [now right|exact Hr]].
        -- assert (Hlt : (Qabs (rate - v) < m)%Q).
           { apply Qnot_le_lt. intros Hc. apply Qle_bool_iff in Hc. congruence. }
           destruct (IH v (Some (Qabs (rate - v))) (Qeq_refl _)) as (H1 & H2 & H3).
           split; [eapply Qle_trans; [exact H1|apply Qlt_le_weak, Hlt]|].
           split.
           { intros w [<-|Hw]; [exact H1|auto]. }
           right. destruct H3 as [[_ ->]|(w & Hw & Hr)];
             [exists v; split; [now left|reflexivity]
             |exists w; split; [now right|exact Hr]].
      * destruct (IH v (Some (Qabs (rate - v))) (Qeq_refl _)) as (H1 & H2 & H3).
        split; [apply Qle_refl|]. split.
        { intros w [<-|Hw]; [exact H1|auto]. }
        right. destruct H3 as [[_ ->]|(w & Hw & Hr)];
          [exists v; split; [now left|reflexivity]
          |exists w; split; [now right|exact Hr]].
Qed.

(** X1.  The timecode rate is one of the four supported rates and no
    supported rate is nearer to the requested rate. *)
Theorem nearest_timecode_is_nearest_supported rate :
  (∃ v, In v supported_rates ∧ (_nearest_timecode rate == v)%Q)
  ∧ ∀ v, In v supported_rates →
         (Qabs (rate - _nearest_timecode rate) <= Qabs (rate - v))%Q.
Proof.
  unfold _nearest_timecode.
  destruct (nearest_loop_spec rate supported_rates 0 None) as (_ & H2 & H3);
    [discriminate|].
  split; [|exact H2].
  destruct H3 as [[Hc _]|H3]; [congruence|exact H3].
Qed.

Lemma dist_pos (rate v : Q) :
  Qeq_bool v rate = false → (0 < Qabs (rate - v))%Q.
Proof.
  intros Hne.
  destruct (Qlt_le_dec 0 (Qabs (rate - v))) as [Hlt|Hle]; [exact Hlt|].
  exfalso.
  assert (Hz : (Qabs (rate - v) == 0)%Q).
  { apply Qle_antisym; [exact Hle|apply Qabs_nonneg]. }
  assert (Hd : (rate - v == 0)%Q).
  { apply Qle_antisym.
    - eapply Qle_trans; [apply Qle_Qabs|]. apply Qle_lteq. right. exact Hz.
    - assert (Hn : (- (rate - v) <= 0)%Q).
      { eapply Qle_trans; [apply Qle_Qabs|].
        apply Qle_lteq. right.
        transitivity (Qabs (rate - v)); [apply Qabs_opp|exact Hz]. }
      lra. }
  assert (Hv : (v == rate)%Q) by lra.
  apply Qeq_bool_iff in Hv. congruence.
Qed.

(** The loop stops at the first rate of least distance. *)
Lemma nearest_loop_first rate rates nearest min_diff :
  (min_diff = None → rates ≠ []) →
  (∀ m, min_diff = Some m → (0 < m)%Q) →
  let r := nearest_loop rate rates nearest min_diff in
  (min_diff ≠ None ∧ r = nearest)
  ∨ ∃ l1 v l2,
      rates = l1 ++ v :: l2 ∧ (r == v)%Q
      ∧ (∀ w, In w l1 → (Qabs (rate - v) < Qabs (rate - w))%Q)
      ∧ (∀ m, min_diff = Some m → (Qabs (rate - v) < m)%Q).
Proof.
  revert nearest min_diff.
  induction rates as [|v rest IH]; intros nearest min_diff Hne Hpos;
    cbv zeta; cbn [nearest_loop].
  - destruct min_diff as [m|]; [|exfalso; now apply Hne].
    left. split; [discriminate|reflexivity].
  - destruct (Qeq_bool v rate) eqn:Heq.
    + right. exists [], v, rest.
      apply Qeq_bool_iff in Heq.
      assert (Hz : (Qabs (rate - v) == 0)%Q).
      { transitivity (Qabs 0); [apply Qabs_wd; lra|reflexivity]. }
      split; [reflexivity|]. split; [symmetry; exact Heq|].
      split; [intros ? []|].
      intros m Hm. specialize (Hpos m Hm). lra.
    + pose proof (dist_pos rate v Heq) as Hd.
      assert (Hnew :
        ∃ l1 v0 l2,
            v :: rest = l1 ++ v0 :: l2
            ∧ (nearest_loop rate rest v (Some (Qabs (rate - v))) == v0)%Q
            ∧ (∀ w, In w l1 → (Qabs (rate - v0) < Qabs (rate - w))%Q)
            ∧ (Qabs (rate - v0) <= Qabs (rate - v))%Q).
      { destruct (IH v (Some (Qabs (rate - v))))
          as [[_ Hr]|(l1 & v0 & l2 & Hs & Hr & Hl & Hm)].
        - discriminate.
        - intros m [= <-]. exact Hd.
        - exists [], v, rest. rewrite Hr.
          split; [reflexivity|]. split; [reflexivity|].
          split; [intros ? []|apply Qle_refl].
        - exists (v :: l1), v0, l2. subst rest.
          split; [reflexivity|]. split; [exact Hr|].
          specialize (Hm _ eq_refl).
          split; [|apply Qlt_le_weak, Hm].
          intros w [<-|Hw]; [exact Hm|auto]. }
      destruct min_diff as [m|].
      * destruct (Qle_bool m (Qabs (rate - v))) eqn:Hle.
        -- apply Qle_bool_iff in Hle.
           destruct (IH nearest (Some m))
             as [[_ Hr]|(l1 & v0 & l2 & Hs & Hr & Hl & Hm)].
           ++ discriminate.
           ++ exact Hpos.
           ++ left. split; [discriminate|exact Hr].
           ++ right. exists (v :: l1), v0, l2. subst rest.
              split; [reflexivity|]. split; [exact Hr|].
              specialize (Hm _ eq_refl).
              split; [|intros ? [= <-]; exact Hm].
              intros w [<-|Hw]; [|auto].
              eapply Qlt_le_trans; eassumption.
        -- assert (Hlt : (Qabs (rate - v) < m)%Q).
           { apply Qnot_le_lt. intros Hc. apply Qle_bool_iff in Hc. congruence. }
           right. destruct Hnew as (l1 & v0 & l2 & Hs & Hr & Hl & Hm).
           exists l1, v0, l2.
           split; [exact Hs|]. split; [exact Hr|]. split; [exact Hl|].
           intros ? [= <-]. eapply Qle_lt_trans; eassumption.
      * right. destruct Hnew as (l1 & v0 & l2 & Hs & Hr & Hl & Hm).
        exists l1, v0, l2.
        split; [exact Hs|]. split; [exact Hr|]. split; [exact Hl|].
        intros ? [=].
Qed.

(** X2.  When two supported rates are equally near, the lower one is chosen. *)
Theorem nearest_timecode_ties_go_down rate v :
  In v supported_rates →
  (Qabs (rate - v) == Qabs (rate - _nearest_timecode rate))%Q →
  (_nearest_timecode rate <= v)%Q.
Proof.
  intros Hv Htie. unfold _nearest_timecode in *.
  destruct (nearest_loop_first rate supported_rates 0 None)
    as [[Hc _]|(l1 & v0 & l2 & Hs & Hr & Hl & _)];
    [discriminate|intros ? [=]|congruence|].
  assert (Hd : (Qabs (rate - v) == Qabs (rate - v0))%Q).
  { rewrite Htie. apply Qabs_wd. rewrite Hr. reflexivity. }
  assert (Hnot : ¬ In v l1).
  { intros Hin. specialize (Hl v Hin). lra. }
  rewrite Hr. clear Hr Htie Hl.
  unfold supported_rates in *.
  destruct l1 as [|a1 [|a2 [|a3 [|a4 l1]]]]; simplify_eq/=;
    try (destruct l1; discriminate);
    repeat match goal with
           | H : _ ∨ _ |- _ => destruct H as [<-|H]
           | H : False |- _ => destruct H
           end;
    try (exfalso; apply Hnot; tauto); try (vm_compute; discriminate).
Qed.

Lemma nearest_timecode_ties_go_down_witness :
  (_nearest_timecode (55 # 2) <= 25)%Q.
Proof.
  apply (nearest_timecode_ties_go_down (55 # 2) 25).
  - simpl. tauto.
  - vm_compute. reflexivity.
Defined.

End TimecodeFacts.

Module UrlsFacts.
Import Urls.

Lemma replace_char_clean old new s :
  old ≠ new → contains_char old (replace_char old new s) = false.
Proof.
  intros Hne. induction s as [|c s IH]; [reflexivity|].
  cbn. destruct (decide (c = old)) as [->|Hc].
  - destruct (decide (new = old)); [congruence|exact IH].
  - destruct (decide (c = old)); [congruence|exact IH].
Qed.

Lemma replace_char_id old new s :
  contains_char old s = false → replace_char old new s = s.
Proof.
  induction s as [|c s IH]; [reflexivity|].
  cbn. destruct (decide (c = old)); [intros [=]|].
  intros Hs. f_equal. exact (IH Hs).
Qed.

Lemma replace_char_keeps_scheme s :
  starts_with "file://" s = true →
  starts_with "file://" (replace_char backslash "/" s) = true.
Proof.
  intros Hp.
  do 7 (destruct s as [|? s]; cbn [starts_with] in Hp; [discriminate|];
        case_decide; [subst|discriminate]).
  reflexivity.
Qed.

(** X3.  A transcribed URL always carries the [file://] scheme, holds no
    backslash, and transcribing it again changes nothing. *)
Theorem transcribe_url_normal_form target_path :
  let url := _transcribe_url target_path in
  starts_with "file://" url = true
  ∧ contains_char backslash url = false
  ∧ _transcribe_url url = url.
Proof.
  cbv zeta.
  assert (Hp : starts_with "file://" (_transcribe_url target_path) = true).
  { unfold _transcribe_url.
    destruct (starts_with "file://" target_path) eqn:Hpre.
    - apply replace_char_keeps_scheme, Hpre.
    - apply replace_char_keeps_scheme. reflexivity. }
  assert (Hc : contains_char backslash (_transcribe_url target_path) = false).
  { apply replace_char_clean. discriminate. }
  split; [exact Hp|]. split; [exact Hc|].
  unfold _transcribe_url at 1. rewrite Hp.
  apply replace_char_id, Hc.
Qed.

End UrlsFacts.

Module FixTransitionsFacts.
Import Simplify FixTransitions.

Section with_lib.
Context `{OtioLib} `{OtioTime}.

Lemma forget_with_range r c :
  forget_ranges (with_item (set_source_range r) c) = forget_ranges c.
Proof. destruct c; reflexivity. Qed.

Lemma item_of_with_range r c :
  item_of (with_item (set_source_range r) c)
  = set_source_range r <$> item_of c.
Proof. destruct c; reflexivity. Qed.

Lemma after_transition_forget pre c c' :
  after_transition pre c = Ok c' → forget_ranges c' = forget_ranges c.
Proof.
  unfold after_transition. destruct (own_source_range c); cbn; [|discriminate].
  intros [= <-]. apply forget_with_range.
Qed.

Lemma before_transition_forget post c c' :
  before_transition post c = Ok c' → forget_ranges c' = forget_ranges c.
Proof.
  unfold before_transition. destruct (own_source_range c); cbn; [|discriminate].
  intros [= <-]. apply forget_with_range.
Qed.

Lemma fix_item_forget prev c next c' :
  fix_item prev c next = Ok c' → forget_ranges c' = forget_ranges c.
Proof.
  unfold fix_item. destruct (item_of c); [|by intros [= <-]].
  assert (Hmid : ∀ c0, forget_ranges c0 = forget_ranges c →
            match next with
            | Some (Transition post_trans) => before_transition post_trans c0
            | _ => Ok c0
            end = Ok c' → forget_ranges c' = forget_ranges c).
  { intros c0 Hc0 Hr. destruct next as [[]|]; simplify_eq; try done.
    apply before_transition_forget in Hr. congruence. }
  destruct prev as [[]|]; cbn; try (apply Hmid; done).
  destruct (after_transition t c) as [c0|] eqn:Ha; cbn; [|discriminate].
  apply Hmid. eapply after_transition_forget, Ha.
Qed.

Lemma fix_track_items_forget prev cs cs' :
  fix_track_items prev cs = Ok cs' →
  map forget_ranges cs' = map forget_ranges cs.
Proof.
  revert prev cs'. induction cs as [|c cs IH]; intros prev cs'; cbn.
  - intros [= <-]. reflexivity.
  - destruct (fix_item prev c (head cs)) as [c1|] eqn:Hc; cbn; [|discriminate].
    destruct (fix_track_items (Some c1) cs) as [cs1|] eqn:Hcs; cbn;
      [|discriminate].
    intros [= <-]. cbn. f_equal; [eapply fix_item_forget, Hc|eapply IH, Hcs].
Qed.

Lemma fix_composable_forget fuel c c' :
  fix_composable fuel c = Ok c' → forget_ranges c' = forget_ranges c.
Proof.
  revert c c'. induction fuel as [|fuel IH]; intros c c'; cbn; [discriminate|].
  assert (Hmap : ∀ cs cs', mapM (fix_composable fuel) cs = Ok cs' →
            map forget_ranges cs' = map forget_ranges cs).
  { intros cs cs' Hm. apply SimplifyFacts.mapM_Forall2 in Hm.
    induction Hm; cbn; [done|]. f_equal; [eapply IH; eassumption|done]. }
  destruct c as [| | |i k cs|i cs]; try (intros [= <-]; reflexivity).
  - destruct (fix_track_items None cs) as [cs1|] eqn:H1; cbn; [|discriminate].
    destruct (mapM (fix_composable fuel) cs1) as [cs2|] eqn:H2; cbn;
      [|discriminate].
    intros [= <-]. cbn. f_equal.
    rewrite (Hmap _ _ H2). eapply fix_track_items_forget, H1.
  - destruct (mapM (fix_composable fuel) cs) as [cs2|] eqn:H2; cbn;
      [|discriminate].
    intros [= <-]. cbn. f_equal. exact (Hmap _ _ H2).
Qed.

Lemma fix_item_neighbour prev c next c1 :
  fix_item prev c next = Ok c1 →
  ∀ x nx, fix_item (Some c1) x nx = fix_item (Some c) x nx.
Proof.
  intros Hc x nx. unfold fix_item in *.
  destruct c as [i a|i|t|i k cs|i cs]; cbn in Hc.
  3: { by simplify_eq. }
  all: assert (Hk : match c1 with Transition _ => False | _ => True end);
    [|destruct c1; try done].
  all: destruct prev as [[]|], next as [[]|]; cbn in Hc;
    unfold after_transition, before_transition in Hc;
    repeat match type of Hc with
           | context [own_source_range ?c] =>
               destruct (own_source_range c); cbn in Hc; [|discriminate]
           end; by simplify_eq.
Qed.

(** What the loop leaves at position [n] is the loop body run between the
    neighbours the track had to begin with. *)
Lemma fix_track_items_lookup prev cs cs' n child :
  fix_track_items prev cs = Ok cs' →
  cs !! n = Some child →
  ∃ child', cs' !! n = Some child'
    ∧ fix_item (match n with O => prev | S m => cs !! m end) child
               (cs !! S n) = Ok child'.
Proof.
  revert prev cs' n. induction cs as [|c cs IH]; intros prev cs' n; cbn;
    [intros _ [=]|].
  destruct (fix_item prev c (head cs)) as [c1|] eqn:Hc; cbn; [|discriminate].
  destruct (fix_track_items (Some c1) cs) as [cs1|] eqn:Hcs; cbn;
    [|discriminate].
  intros [= <-] Hn. destruct n as [|n]; cbn in *.
  - simplify_eq. exists c1. split; [done|]. by destruct cs.
  - destruct (IH _ _ _ Hcs Hn) as (child' & Hl & Hf).
    exists child'. split; [done|].
    destruct n as [|n]; cbn in *; [|done].
    by rewrite <- (fix_item_neighbour _ _ _ _ Hc).
Qed.

Lemma fix_composable_item fuel c c' :
  fix_composable fuel c = Ok c' → item_of c' = item_of c.
Proof.
  destruct fuel as [|fuel]; cbn; [discriminate|].
  destruct c as [| | |i k cs|i cs]; try (by intros [= <-]).
  - destruct (fix_track_items None cs); cbn; [|discriminate].
    destruct (mapM _ _); cbn; [|discriminate]. by intros [= <-].
  - destruct (mapM _ _); cbn; [|discriminate]. by intros [= <-].
Qed.

Lemma depth_forget c : Markers.depth (forget_ranges c) = Markers.depth c.
Proof.
  induction c as [| | |i k cs IH|i cs IH] using TreeFacts.Composable_tree_ind;
    cbn [forget_ranges Markers.depth]; try done; f_equal; rewrite map_map;
    induction IH as [|x l Hx _ IHl]; cbn [map foldr]; congruence.
Qed.

Lemma mapM_ext {A B} (f g : A → result B) l :
  Forall (λ x, f x = g x) l → mapM f l = mapM g l.
Proof. induction 1 as [|x l Hx _ IH]; cbn; [done|]. by rewrite Hx, IH. Qed.

Lemma depth_bound_Forall cs n :
  (foldr Nat.max 0 (map Markers.depth cs) < n)%nat →
  Forall (λ c, (Markers.depth c < n)%nat) cs.
Proof.
  induction cs as [|c cs IH]; cbn [map foldr]; [constructor|].
  intros Hn. constructor; [lia|apply IH; lia].
Qed.

(** The bound on the depth of the recursion is immaterial once it exceeds
    the depth of the tree. *)
Lemma fix_composable_fuel fuel fuel' c :
  (Markers.depth c < fuel)%nat → (Markers.depth c < fuel')%nat →
  fix_composable fuel c = fix_composable fuel' c.
Proof.
  revert fuel' c. induction fuel as [|fuel IH]; intros fuel' c Hd Hd'; [lia|].
  destruct fuel' as [|fuel']; [lia|].
  assert (Hmap : ∀ cs, (foldr Nat.max 0 (map Markers.depth cs) < fuel)%nat →
            (foldr Nat.max 0 (map Markers.depth cs) < fuel')%nat →
            mapM (fix_composable fuel) cs = mapM (fix_composable fuel') cs).
  { intros cs H1 H2. apply mapM_ext.
    apply depth_bound_Forall in H1, H2.
    induction H1 as [|x l Hx _ IHl]; [constructor|].
    inversion H2; subst. constructor; [apply IH; done|apply IHl; done]. }
  destruct c as [| | |i k cs|i cs];
    cbn [Markers.depth fix_composable] in *; try done.
  - destruct (fix_track_items None cs) as [cs1|] eqn:H1; cbn; [|done].
    assert (Hdepth : map Markers.depth cs1 = map Markers.depth cs).
    { apply fix_track_items_forget in H1.
      apply (f_equal (map Markers.depth)) in H1.
      rewrite !map_map in H1.
      assert (Hm : ∀ l, map (λ x, Markers.depth (forget_ranges x)) l
                        = map Markers.depth l).
      { induction l as [|x l IHl]; cbn; [done|].
        by rewrite depth_forget, IHl. }
      by rewrite !Hm in H1. }
    rewrite Hmap; [done|rewrite Hdepth; lia ..].
  - rewrite Hmap; [done|lia ..].
Qed.

(** X4.  The pass touches nothing but source ranges: with the source ranges
    forgotten, the timeline it returns is the timeline it was given. *)
Theorem fix_transitions_only_moves_source_ranges tl r :
  _fix_transitions (TTimeline tl) = Ok r →
  ∃ tl', r = TTimeline tl'
    ∧ tl_name tl' = tl_name tl ∧ tl_metadata tl' = tl_metadata tl
    ∧ global_start_time tl' = global_start_time tl
    ∧ forget_ranges (Markers.root_of tl') = forget_ranges (Markers.root_of tl).
Proof.
  cbn [_fix_transitions].
  destruct (fix_composable _ _) as [c'|] eqn:Hc; cbn; [|discriminate].
  pose proof (fix_composable_forget _ _ _ Hc) as Hf.
  destruct c' as [| | | |i cs]; try discriminate.
  intros [= <-]. eexists. split; [reflexivity|]. cbn. done.
Qed.

(** X5.  An item that sits between two transitions loses the in-offset of the
    one before it at its head and the out-offset of the one after it at its
    tail. *)
Theorem fix_transitions_trims_between_transitions
        fuel i k cs r n pre child post it s d :
  fix_composable fuel (Track i k cs) = Ok r →
  cs !! n = Some (Transition pre) →
  cs !! S n = Some child →
  cs !! S (S n) = Some (Transition post) →
  item_of child = Some it →
  source_range it = Some (mkTR s d) →
  ∃ cs' child' it',
    r = Track i k cs' ∧ cs' !! S n = Some child'
    ∧ item_of child' = Some it'
    ∧ source_range it'
      = Some (mkTR (rt_add s (in_offset pre))
                   (rt_sub (rt_sub d (in_offset pre)) (out_offset post))).
Proof.
  intros Hr Hpre Hchild Hpost Hit Hsr.
  destruct fuel as [|fuel]; cbn in Hr; [discriminate|].
  destruct (fix_track_items None cs) as [cs1|] eqn:H1; cbn in Hr;
    [|discriminate].
  destruct (mapM (fix_composable fuel) cs1) as [cs2|] eqn:H2; cbn in Hr;
    [|discriminate].
  injection Hr as <-.
  destruct (fix_track_items_lookup _ _ _ _ _ H1 Hchild) as (c1 & Hl1 & Hf).
  rewrite Hpre, Hpost in Hf.
  apply SimplifyFacts.mapM_Forall2 in H2.
  destruct (Forall2_lookup_l _ _ _ _ _ H2 Hl1) as (c2 & Hl2 & Hc2).
  apply fix_composable_item in Hc2.
  unfold fix_item in Hf. rewrite Hit in Hf.
  unfold after_transition, before_transition, own_source_range in Hf.
  rewrite Hit in Hf. cbn in Hf. rewrite Hsr in Hf. cbn in Hf.
  rewrite item_of_with_range, Hit in Hf. cbn in Hf.
  injection Hf as <-.
  rewrite !item_of_with_range, Hit in Hc2. cbn in Hc2.
  eexists cs2, c2, _. split; [reflexivity|]. split; [exact Hl2|].
  split; [exact Hc2|]. reflexivity.
Qed.

Lemma fix_track_items_no_transition prev cs :
  forallb no_transition cs = true →
  match prev with Some (Transition _) => False | _ => True end →
  fix_track_items prev cs = Ok cs.
Proof.
  revert prev. induction cs as [|c cs IH]; intros prev Hcs Hprev; [done|].
  cbn in Hcs. apply andb_prop in Hcs as [Hc Hcs]. cbn.
  assert (Hitem : fix_item prev c (head cs) = Ok c).
  { unfold fix_item. destruct (item_of c); [|done].
    destruct prev as [[]|]; try done; cbn;
      destruct cs as [|[] ?]; try done; cbn in Hcs; discriminate. }
  rewrite Hitem. cbn. rewrite IH; [done|done|]. by destruct c.
Qed.

Lemma fix_composable_no_transition fuel c :
  no_transition c = true →
  (Markers.depth c < fuel)%nat →
  fix_composable fuel c = Ok c.
Proof.
  revert c. induction fuel as [|fuel IH]; intros c Hc Hd; [lia|].
  assert (Hmap : ∀ cs, forallb no_transition cs = true →
            (foldr Nat.max 0 (map Markers.depth cs) < fuel)%nat →
            mapM (fix_composable fuel) cs = Ok cs).
  { intros cs Hcs Hds. apply SimplifyFacts.mapM_id.
    induction cs as [|x cs IHcs]; [constructor|].
    cbn [forallb map foldr] in Hcs, Hds. apply andb_prop in Hcs as [Hx Hcs].
    constructor; [apply IH; [done|lia]|apply IHcs; [done|lia]]. }
  destruct c as [| | |i k cs|i cs];
    cbn [no_transition Markers.depth fix_composable] in *; try done.
  - rewrite fix_track_items_no_transition by done. cbn.
    rewrite Hmap by (done || lia). done.
  - rewrite Hmap by (done || lia). done.
Qed.

(** X6.  A timeline that holds no transition comes back unchanged, and the
    pass cannot fail on it. *)
Theorem fix_transitions_without_transitions tl :
  forallb no_transition (tracks tl) = true →
  _fix_transitions (TTimeline tl) = Ok (TTimeline tl).
Proof.
  intros Hcs. cbn [_fix_transitions].
  rewrite fix_composable_no_transition; [by destruct tl|exact Hcs|lia].
Qed.

End with_lib.

Import FixTransitionsExamples.

Lemma fix_transitions_only_moves_source_ranges_witness :
  ∃ tl', _fix_transitions (H := SimpleOtio.simple_otio) (TTimeline reel)
         = Ok (TTimeline tl')
    ∧ forget_ranges (Markers.root_of tl') = forget_ranges (Markers.root_of reel).
Proof.
  destruct (_fix_transitions (H := SimpleOtio.simple_otio) (TTimeline reel))
    as [r|] eqn:Hrun; [|vm_compute in Hrun; discriminate].
  destruct (fix_transitions_only_moves_source_ranges
              (H := SimpleOtio.simple_otio) reel r Hrun)
    as (tl' & -> & _ & _ & _ & Hf).
  exists tl'. split; [reflexivity|exact Hf].
Defined.

Lemma fix_transitions_trims_between_transitions_witness :
  ∃ cs' child' it',
    fix_composable (H := SimpleOtio.simple_otio) 2
                   (Track new_item TrackKind_Video cut)
    = Ok (Track new_item TrackKind_Video cs')
    ∧ cs' !! 2%nat = Some child'
    ∧ item_of child' = Some it'
    ∧ source_range it' = Some (frames 14 31).
Proof.
  assert (Hrun :
    fix_composable (H := SimpleOtio.simple_otio) 2
                   (Track new_item TrackKind_Video cut)
    = Ok (Track new_item TrackKind_Video
            [shot "a" 0 44; Transition (dissolve 4 6); shot "b" 14 31;
             Transition (dissolve 3 5); shot "c" 3 27]))
    by (vm_compute; reflexivity).
  destruct (fix_transitions_trims_between_transitions
              (H := SimpleOtio.simple_otio) 2 new_item TrackKind_Video cut _
              1 (dissolve 4 6) (shot "b" 10 40) (dissolve 3 5)
              (set_source_range (Some (frames 10 40)) (set_name "b" new_item))
              (mkRT 10 24) (mkRT 40 24)
              Hrun eq_refl eq_refl eq_refl eq_refl eq_refl)
    as (cs' & child' & it' & Hr & Hl & Hi & Hs).
  exists cs', child', it'. injection Hr as <-.
  split; [exact Hrun|]. split; [exact Hl|]. split; [exact Hi|].
  rewrite Hs. vm_compute. reflexivity.
Defined.

Lemma fix_transitions_without_transitions_witness :
  _fix_transitions (H := SimpleOtio.simple_otio) (TTimeline straight_cut)
  = Ok (TTimeline straight_cut).
Proof.
  apply (fix_transitions_without_transitions (H := SimpleOtio.simple_otio)
           straight_cut).
  reflexivity.
Defined.

End FixTransitionsFacts.

Module MobIdsFacts.
Import MobIds.

Section with_env.
Variable isfile : string → bool.
Variable mastermob_ids : string → result (list string).
Variable new_mob_id : nat → string.
Variable clip_str : ClipData → string.

Lemma first_mob_id_truthy ss position clip mob_id :
  first_mob_id ss position clip = Ok (Some mob_id) →
  id_truthy (Some mob_id) = true.
Proof.
  induction ss as [|s ss IH]; cbn; [discriminate|].
  destruct (s position clip) as [v|]; cbn; [|discriminate].
  destruct (id_truthy v) eqn:Hv; [by intros [= ->]|exact IH].
Qed.

(** What the loop adds to the dictionary: one entry for each clip that is
    not a gap, holding what the strategies found for it. *)
Lemma gather_loop_spec ss clips position acc m :
  gather_loop clip_str ss clips position acc = Ok m →
  ∃ added,
    m = acc ++ added
    ∧ (∀ i clip, clips !! i = Some clip →
         _is_considered_gap clip = Ok false →
         ∃ mob_id, (position + i, mob_id)%nat ∈ added)
    ∧ (∀ q mob_id, (q, mob_id) ∈ added →
         ∃ i clip, q = (position + i)%nat ∧ clips !! i = Some clip
           ∧ _is_considered_gap clip = Ok false
           ∧ first_mob_id ss q clip = Ok (Some mob_id)).
Proof.
  revert position acc m.
  induction clips as [|c clips IH]; intros position acc m; cbn.
  - intros [= <-]. exists []. rewrite app_nil_r. split; [done|].
    split; [intros ? ? [=]|]. intros ? ? Hin. by apply elem_of_nil in Hin.
  - destruct (_is_considered_gap c) as [[]|] eqn:Hgap; cbn; [| |discriminate].
    + intros Hm. destruct (IH _ _ _ Hm) as (added & -> & Hall & Hin).
      exists added. split; [done|]. split.
      * intros [|i] clip Hi Hg; cbn in Hi; [congruence|].
        destruct (Hall i clip Hi Hg) as (mob_id & Hm').
        exists mob_id. by rewrite <- Nat.add_succ_comm.
      * intros q mob_id Hq.
        destruct (Hin q mob_id Hq) as (i & clip & -> & Hi & Hg & Hf).
        exists (S i), clip. split; [lia|done].
    + destruct (first_mob_id ss position c) as [[mob_id|]|] eqn:Hf; cbn;
        [|discriminate..].
      intros Hm. destruct (IH _ _ _ Hm) as (added & -> & Hall & Hin).
      exists ((position, mob_id) :: added).
      split; [by rewrite <- app_assoc|]. split.
      * intros [|i] clip Hi Hg; cbn in Hi.
        -- exists mob_id. rewrite Nat.add_0_r. apply elem_of_cons. by left.
        -- destruct (Hall i clip Hi Hg) as (mob_id' & Hm').
           exists mob_id'. rewrite <- Nat.add_succ_comm.
           apply elem_of_cons. by right.
      * intros q mob_id' [[= -> ->]|Hq]%elem_of_cons.
        -- exists 0%nat, c. rewrite Nat.add_0_r. done.
        -- destruct (Hin q mob_id' Hq) as (i & clip & -> & Hi & Hg & Hf').
           exists (S i), clip. split; [lia|done].
Qed.

(** X7.  When the ids are gathered, every clip that is not a gap has
    exactly one id, a true value, and a gap has none. *)
Theorem gather_covers_every_clip clips prefer_file_mob_id use_empty_mob_ids m :
  _gather_clip_mob_ids isfile mastermob_ids new_mob_id clip_str clips
                       prefer_file_mob_id use_empty_mob_ids = Ok m →
  ∀ position clip,
    clips !! position = Some clip →
    match _is_considered_gap clip with
    | Ok false =>
        ∃ mob_id, (position, mob_id) ∈ m ∧ id_truthy (Some mob_id) = true
                  ∧ ∀ other, (position, other) ∈ m → other = mob_id
    | _ => ∀ mob_id, (position, mob_id) ∉ m
    end.
Proof.
  unfold _gather_clip_mob_ids. intros Hm position clip Hclip.
  destruct (gather_loop_spec _ _ _ _ _ Hm) as (added & -> & Hall & Hin).
  cbn in *.
  assert (Hno : _is_considered_gap clip ≠ Ok false →
                ∀ mob_id, (position, mob_id) ∉ added).
  { intros Hg mob_id Hq.
    destruct (Hin _ _ Hq) as (i & clip' & -> & Hi & Hg' & _). congruence. }
  destruct (_is_considered_gap clip) as [[]|] eqn:Hgap;
    [by apply Hno| |by apply Hno].
  destruct (Hall position clip Hclip Hgap) as (mob_id & Hq).
  exists mob_id. split; [exact Hq|].
  destruct (Hin _ _ Hq) as (i & clip' & -> & Hi & _ & Hf).
  split; [eapply first_mob_id_truthy, Hf|].
  intros other Hother.
  destruct (Hin _ _ Hother) as (j & clip'' & -> & Hj & _ & Hf').
  congruence.
Qed.

Lemma gather_entry clips prefer_file_mob_id use_empty_mob_ids m position clip :
  _gather_clip_mob_ids isfile mastermob_ids new_mob_id clip_str clips
                       prefer_file_mob_id use_empty_mob_ids = Ok m →
  clips !! position = Some clip →
  _is_considered_gap clip = Ok false →
  ∃ mob_id, (position, mob_id) ∈ m
    ∧ first_mob_id (strategies isfile mastermob_ids new_mob_id
                               prefer_file_mob_id use_empty_mob_ids)
                   position clip = Ok (Some mob_id).
Proof.
  unfold _gather_clip_mob_ids. intros Hm Hclip Hgap.
  destruct (gather_loop_spec _ _ _ _ _ Hm) as (added & -> & Hall & Hin).
  destruct (Hall position clip Hclip Hgap) as (mob_id & Hq).
  exists mob_id. split; [exact Hq|].
  destruct (Hin _ _ Hq) as (i & clip' & Hi & Hl & _ & Hf).
  cbn in Hi. subst i. rewrite Hclip in Hl. by simplify_eq.
Qed.

(** X8.  Unless the file is preferred, the id in the clip's own metadata
    wins over the media reference and the file. *)
Theorem gather_prefers_clip_metadata clips use_empty_mob_ids m position clip v :
  _gather_clip_mob_ids isfile mastermob_ids new_mob_id clip_str clips
                       false use_empty_mob_ids = Ok m →
  clips !! position = Some clip →
  _is_considered_gap clip = Ok false →
  aaf_get (clip_metadata clip) "SourceID" = Ok (Some v) →
  truthy v = true →
  (position, FromMetadata v) ∈ m.
Proof.
  intros Hm Hclip Hgap Hv Ht.
  destruct (gather_entry _ _ _ _ _ _ Hm Hclip Hgap) as (mob_id & Hq & Hf).
  assert (mob_id = FromMetadata v) as <-; [|exact Hq].
  unfold strategies in Hf.
  destruct use_empty_mob_ids; cbn in Hf;
    unfold _from_clip_metadata in Hf; rewrite Hv in Hf; cbn in Hf;
    rewrite Ht in Hf; by simplify_eq.
Qed.

(** X9.  When the file is preferred, a media file that is an AAF with a
    single master mob gives the id, whatever the metadata says. *)
Theorem gather_prefers_file clips use_empty_mob_ids m position clip
        target_url metadata mob_id :
  _gather_clip_mob_ids isfile mastermob_ids new_mob_id clip_str clips
                       true use_empty_mob_ids = Ok m →
  clips !! position = Some clip →
  media_reference clip = ExternalReference target_url metadata →
  isfile target_url = true →
  ends_with "aaf" target_url = true →
  mastermob_ids target_url = Ok [mob_id] →
  (position, MobIDObject mob_id) ∈ m.
Proof.
  intros Hm Hclip Href Hfile Hext Hmobs.
  assert (Hgap : _is_considered_gap clip = Ok false).
  { unfold _is_considered_gap. by rewrite Href. }
  destruct (gather_entry _ _ _ _ _ _ Hm Hclip Hgap) as (found & Hq & Hf).
  assert (found = MobIDObject mob_id) as <-; [|exact Hq].
  unfold strategies in Hf.
  destruct use_empty_mob_ids; cbn in Hf;
    unfold _from_aaf_file in Hf; rewrite Href, Hfile, Hext in Hf; cbn in Hf;
    rewrite Hmobs in Hf; cbn in Hf; by simplify_eq.
Qed.

Lemma first_mob_id_none ss position clip :
  first_mob_id ss position clip = Ok None →
  Forall (λ s : strategy, ∃ v, s position clip = Ok v ∧ id_truthy v = false) ss.
Proof.
  induction ss as [|s ss IH]; cbn; [constructor|].
  destruct (s position clip) as [v|] eqn:Hs; cbn; [|discriminate].
  destruct (id_truthy v) eqn:Hv.
  - intros [= ->]. discriminate.
  - intros Hrest. constructor; [by exists v|by apply IH].
Qed.

Lemma first_mob_id_raise ss position clip e :
  first_mob_id ss position clip = Raise e →
  Exists (λ s : strategy, s position clip = Raise e) ss.
Proof.
  induction ss as [|s ss IH]; cbn; [discriminate|].
  destruct (s position clip) as [v|e'] eqn:Hs; cbn.
  - destruct (id_truthy v); [discriminate|].
    intros Hrest. apply Exists_cons_tl. by apply IH.
  - intros [= ->]. by apply Exists_cons_hd.
Qed.

Lemma aaf_get_raise md key e : aaf_get md key = Raise e → e = AttributeError.
Proof.
  unfold aaf_get. destruct (dict_get md "AAF") as [[]|]; by intros [=].
Qed.

Lemma strategy_raise prefer_file_mob_id use_empty_mob_ids position clip msg :
  (∀ url msg, mastermob_ids url ≠ Raise (AAFAdapterError msg)) →
  ¬ Exists (λ s : strategy, s position clip = Raise (AAFAdapterError msg))
      (strategies isfile mastermob_ids new_mob_id
                  prefer_file_mob_id use_empty_mob_ids).
Proof.
  intros Henv.
  assert (H1 : _from_clip_metadata position clip
               ≠ Raise (AAFAdapterError msg)).
  { unfold _from_clip_metadata.
    destruct (aaf_get _ _) eqn:Ha; cbn; [done|].
    apply aaf_get_raise in Ha. by subst. }
  assert (H2 : _from_media_reference_metadata position clip
               ≠ Raise (AAFAdapterError msg)).
  { unfold _from_media_reference_metadata.
    destruct (aaf_get _ "MobID") eqn:Ha; cbn;
      [|apply aaf_get_raise in Ha; by subst].
    destruct (opt_truthy _); [done|].
    destruct (aaf_get _ "SourceID") eqn:Hb; cbn; [done|].
    apply aaf_get_raise in Hb. by subst. }
  assert (H3 : _from_aaf_file isfile mastermob_ids position clip
               ≠ Raise (AAFAdapterError msg)).
  { unfold _from_aaf_file.
    destruct (media_reference clip); try done.
    destruct (_ && _); [|done].
    destruct (mastermob_ids target_url) as [[|? []]|] eqn:Hm; cbn; try done.
    intros [= ->]. by eapply Henv. }
  unfold strategies.
  destruct prefer_file_mob_id, use_empty_mob_ids; cbn;
    rewrite ?Exists_cons, Exists_nil; unfold _generate_empty_mobid;
    intuition congruence.
Qed.

(** X10.  The adapter's own error is raised for a clip only when every
    strategy came back empty-handed, and never when empty mob ids are
    allowed. *)
Theorem gather_adapter_error clips prefer_file_mob_id use_empty_mob_ids msg :
  (∀ url msg, mastermob_ids url ≠ Raise (AAFAdapterError msg)) →
  _gather_clip_mob_ids isfile mastermob_ids new_mob_id clip_str clips
                       prefer_file_mob_id use_empty_mob_ids
  = Raise (AAFAdapterError msg) →
  use_empty_mob_ids = false
  ∧ ∃ position clip,
      clips !! position = Some clip
      ∧ msg = "Cannot find mob ID for clip " +:+ clip_str clip
      ∧ Forall (λ s : strategy,
                  ∃ v, s position clip = Ok v ∧ id_truthy v = false)
               (strategies isfile mastermob_ids new_mob_id
                           prefer_file_mob_id false).
Proof.
  intros Henv. unfold _gather_clip_mob_ids.
  generalize (@nil (nat * MobIdValue)).
  assert (Hgen : ∀ clips start acc,
    gather_loop clip_str
      (strategies isfile mastermob_ids new_mob_id
                  prefer_file_mob_id use_empty_mob_ids) clips start acc
    = Raise (AAFAdapterError msg) →
    ∃ i clip, clips !! i = Some clip
      ∧ msg = "Cannot find mob ID for clip " +:+ clip_str clip
      ∧ first_mob_id (strategies isfile mastermob_ids new_mob_id
                                 prefer_file_mob_id use_empty_mob_ids)
                     (start + i) clip = Ok None).
  { clear clips. induction clips as [|c clips IH]; intros start acc; cbn;
      [discriminate|].
    destruct (_is_considered_gap c) as [[]|] eqn:Hgap; cbn.
    - intros Hr. destruct (IH _ _ Hr) as (i & clip & Hi & Hmsg & Hf).
      exists (S i), clip. rewrite Nat.add_succ_r. done.
    - destruct (first_mob_id _ start c) as [[mob_id|]|e] eqn:Hf; cbn.
      + intros Hr. destruct (IH _ _ Hr) as (i & clip & Hi & Hmsg & Hf').
        exists (S i), clip. rewrite Nat.add_succ_r. done.
      + intros [= <-]. exists 0%nat, c. rewrite Nat.add_0_r. done.
      + intros [= ->]. apply first_mob_id_raise in Hf.
        by apply strategy_raise in Hf.
    - unfold _is_considered_gap in Hgap.
      destruct (media_reference c); try discriminate.
      destruct (String.eqb _ _); [discriminate|]. intros [= ->]. congruence. }
  intros acc Hr. destruct (Hgen _ _ _ Hr) as (i & clip & Hi & Hmsg & Hf).
  cbn in Hf. apply first_mob_id_none in Hf.
  destruct use_empty_mob_ids.
  - exfalso. unfold strategies in Hf.
    destruct prefer_file_mob_id; cbn in Hf;
      do 3 (apply Forall_cons in Hf as [_ Hf]);
      apply Forall_cons in Hf as [(v & Hv & Ht) _];
      unfold _generate_empty_mobid in Hv; by simplify_eq.
  - split; [done|]. by exists i, clip.
Qed.

End with_env.

Import MobIdsExamples.

Lemma gather_covers_every_clip_witness :
  ∃ m, _gather_clip_mob_ids on_disk one_master_mob numbered clip_name
                            three_clips false false = Ok m
       ∧ (∀ mob_id, (1%nat, mob_id) ∉ m)
       ∧ ∃ mob_id, (2%nat, mob_id) ∈ m.
Proof.
  destruct (_gather_clip_mob_ids on_disk one_master_mob numbered clip_name
                                 three_clips false false) as [m|] eqn:Hrun;
    [|vm_compute in Hrun; discriminate].
  exists m. split; [reflexivity|].
  pose proof (gather_covers_every_clip on_disk one_master_mob numbered
                clip_name three_clips false false m Hrun) as Hall.
  split.
  - exact (Hall 1%nat _ eq_refl).
  - destruct (Hall 2%nat _ eq_refl) as (mob_id & Hin & _). by exists mob_id.
Defined.

Lemma gather_prefers_clip_metadata_witness :
  ∃ m, _gather_clip_mob_ids on_disk one_master_mob numbered clip_name
                            three_clips false false = Ok m
       ∧ (0%nat, FromMetadata (PStr "urn:clip-a")) ∈ m.
Proof.
  destruct (_gather_clip_mob_ids on_disk one_master_mob numbered clip_name
                                 three_clips false false) as [m|] eqn:Hrun;
    [|vm_compute in Hrun; discriminate].
  exists m. split; [reflexivity|].
  apply (gather_prefers_clip_metadata on_disk one_master_mob numbered
           clip_name three_clips false m 0
           (with_source_id "a" "urn:clip-a"
              (ExternalReference "/media/a.aaf"
                 [("AAF", PDict [("MobID", PStr "urn:ref-a")])]))
           (PStr "urn:clip-a") Hrun); reflexivity.
Defined.

Lemma gather_prefers_file_witness :
  ∃ m, _gather_clip_mob_ids on_disk one_master_mob numbered clip_name
                            three_clips true false = Ok m
       ∧ (0%nat, MobIDObject "urn:from-file") ∈ m.
Proof.
  destruct (_gather_clip_mob_ids on_disk one_master_mob numbered clip_name
                                 three_clips true false) as [m|] eqn:Hrun;
    [|vm_compute in Hrun; discriminate].
  exists m. split; [reflexivity|].
  eapply (gather_prefers_file on_disk one_master_mob numbered
            clip_name three_clips false m 0 _ "/media/a.aaf" _ "urn:from-file"
            Hrun); reflexivity.
Defined.

Lemma gather_adapter_error_witness :
  _gather_clip_mob_ids on_disk one_master_mob numbered clip_name
                       orphan false false
  = Raise (AAFAdapterError "Cannot find mob ID for clip c")
  ∧ ∃ position clip,
      orphan !! position = Some clip
      ∧ Forall (λ s : strategy,
                  ∃ v, s position clip = Ok v ∧ id_truthy v = false)
               (strategies on_disk one_master_mob numbered false false).
Proof.
  assert (Hrun : _gather_clip_mob_ids on_disk one_master_mob numbered
                   clip_name orphan false false
                 = Raise (AAFAdapterError "Cannot find mob ID for clip c"))
    by (vm_compute; reflexivity).
  split; [exact Hrun|].
  destruct (gather_adapter_error on_disk one_master_mob numbered clip_name
              orphan false false _
              ltac:(intros url msg; unfold one_master_mob;
                    destruct (String.eqb _ _); discriminate)
              Hrun)
    as (_ & position & clip & Hl & _ & Hall).
  by exists position, clip.
Defined.

End MobIdsFacts.

Module HookGatesFacts.
Import Hooks.

Section generic.
Context {Timeline AAFFile : Type}.
Implicit Types m : gmap string (list (@hook_script Timeline AAFFile)).

(** X11.  The pre-read extension point is gated by the pre-write name: with
    no pre-write hook nothing runs, whatever is registered for reading; with
    a pre-write hook and no pre-read hook the lookup of the pre-read scripts
    fails; with both, the pre-read scripts run without a timeline and with
    the path and the handle added to the argument map. *)
Theorem pre_read_hook_is_gated_by_the_pre_write_name m path h extra :
  (m !! HOOK_PRE_WRITE_TRANSCRIBE = None →
   run_pre_read_transcribe_hook m path h extra = Ok tt)
  ∧ (is_Some (m !! HOOK_PRE_WRITE_TRANSCRIBE) →
     m !! HOOK_PRE_READ_TRANSCRIBE = None →
     run_pre_read_transcribe_hook m path h extra = Raise KeyError)
  ∧ (∀ hs, is_Some (m !! HOOK_PRE_WRITE_TRANSCRIBE) →
     m !! HOOK_PRE_READ_TRANSCRIBE = Some hs →
     run_pre_read_transcribe_hook m path h extra
     = (_ ← run_scripts hs None
              (<["aaf_handle" := KwHandle h]>
                 (<["read_filepath" := KwStr path]> extra));
        Ok tt)).
Proof.
  unfold run_pre_read_transcribe_hook, hooks_names, hooks_run.
  split; [|split].
  - intros Hnone. case_decide as Hin; [|done].
    apply elem_of_dom in Hin as [? Hin]. congruence.
  - intros Hsome Hnone. case_decide as Hin.
    + by rewrite Hnone.
    + exfalso. apply Hin. by apply elem_of_dom.
  - intros hs Hsome Hhs. case_decide as Hin.
    + by rewrite Hhs.
    + exfalso. apply Hin. by apply elem_of_dom.
Qed.

(** X12.  A registered pre-write hook always sees the writer's own path,
    handle and embedding flag, also when the caller's argument map carried
    entries under these names; every other entry is passed on as given. *)
Theorem pre_write_hook_sees_the_writer_arguments m tl path h e extra hs :
  m !! HOOK_PRE_WRITE_TRANSCRIBE = Some hs →
  ∃ args,
    run_pre_write_transcribe_hook m tl path h e extra = run_scripts hs tl args
    ∧ args !! "write_filepath" = Some (KwStr path)
    ∧ args !! "aaf_handle" = Some (KwHandle h)
    ∧ args !! "embed_essence" = Some (KwBool e)
    ∧ ∀ k, k ≠ "write_filepath" → k ≠ "aaf_handle" → k ≠ "embed_essence" →
           args !! k = extra !! k.
Proof.
  intros Hhs. eexists. split.
  - unfold run_pre_write_transcribe_hook, hooks_names, hooks_run.
    case_decide as Hin; [by rewrite Hhs|].
    exfalso. apply Hin. by apply elem_of_dom.
  - split; [by simplify_map_eq|]. split; [by simplify_map_eq|].
    split; [by simplify_map_eq|].
    intros k H1 H2 H3. by simplify_map_eq.
Qed.

End generic.

Lemma pre_write_hook_sees_the_writer_arguments_witness :
  ∃ args,
    run_pre_write_transcribe_hook
      ({[ HOOK_PRE_WRITE_TRANSCRIBE := [bump 1] ]}
         : gmap string (list (@hook_script nat unit)))
      (Some 5%nat) "out.aaf" tt true {[ "write_filepath" := KwStr "other" ]}
    = run_scripts [bump 1] (Some 5%nat) args
    ∧ args !! "write_filepath" = Some (KwStr "out.aaf").
Proof.
  destruct (pre_write_hook_sees_the_writer_arguments
              ({[ HOOK_PRE_WRITE_TRANSCRIBE := [bump 1] ]}
                 : gmap string (list (@hook_script nat unit)))
              (Some 5%nat) "out.aaf" tt true
              {[ "write_filepath" := KwStr "other" ]} [bump 1])
    as (args & Hrun & Hpath & _).
  - apply lookup_singleton_eq.
  - by exists args.
Defined.

End HookGatesFacts.

Module ValuableFacts.
Import Simplify ValuableExamples.

Lemma valuable_composition i cs c :
  children_of c = Some cs → item_of c = Some i →
  _contains_something_valuable c
  = valuable_here c || existsb _contains_something_valuable cs.
Proof.
  destruct c; cbn; try discriminate; intros [= <-] [= <-];
    destruct (nonempty (effects _) || nonempty (markers _)); cbn; try done;
    by destruct (_valuable_metadata _).
Qed.

(** X13.  An object is kept as valuable exactly when it, or something below
    it at any depth, is a clip or a transition or carries effects, markers
    or the user comments of a composition mob. *)
Theorem valuable_iff_something_below_is c :
  _contains_something_valuable c = true
  ↔ ∃ p d, get_at c p = Some d ∧ valuable_here d = true.
Proof.
  induction c as [i a|i|t|i k cs IH|i cs IH] using TreeFacts.Composable_tree_ind.
  - split; [intros _; by exists [], (Clip i a)|done].
  - split.
    + intros Hv. exists [], (Gap i). split; [done|]. cbn in *.
      destruct (nonempty (effects i) || nonempty (markers i)); [done|].
      by destruct (_valuable_metadata _).
    + intros ([|n p] & d & Hd & Hv); cbn in Hd; [|done].
      simplify_eq. cbn in *.
      destruct (nonempty (effects i) || nonempty (markers i)); [done|].
      by destruct (_valuable_metadata _).
  - split; [intros _; by exists [], (Transition t)|done].
  - rewrite (valuable_composition i cs) by done.
    split.
    + intros [Hh|Hc]%orb_true_iff; [by exists [], (Track i k cs)|].
      apply existsb_exists in Hc as (child & Hin & Hc).
      apply list_elem_of_In, list_elem_of_lookup in Hin as [n Hn].
      rewrite Forall_forall in IH.
      apply IH in Hc as (p & d & Hd & Hv);
        [|by eapply list_elem_of_lookup_2].
      exists (n :: p), d. split; [|done]. cbn. by rewrite Hn.
    + intros ([|n p] & d & Hd & Hv); cbn in Hd.
      * simplify_eq. by rewrite Hv.
      * destruct (cs !! n) as [child|] eqn:Hn; [|done].
        apply orb_true_iff. right. apply existsb_exists.
        exists child. split; [by eapply list_elem_of_In, list_elem_of_lookup_2|].
        rewrite Forall_forall in IH.
        apply IH; [by eapply list_elem_of_lookup_2|]. by exists p, d.
  - rewrite (valuable_composition i cs) by done.
    split.
    + intros [Hh|Hc]%orb_true_iff; [by exists [], (Stack i cs)|].
      apply existsb_exists in Hc as (child & Hin & Hc).
      apply list_elem_of_In, list_elem_of_lookup in Hin as [n Hn].
      rewrite Forall_forall in IH.
      apply IH in Hc as (p & d & Hd & Hv);
        [|by eapply list_elem_of_lookup_2].
      exists (n :: p), d. split; [|done]. cbn. by rewrite Hn.
    + intros ([|n p] & d & Hd & Hv); cbn in Hd.
      * simplify_eq. by rewrite Hv.
      * destruct (cs !! n) as [child|] eqn:Hn; [|done].
        apply orb_true_iff. right. apply existsb_exists.
        exists child. split; [by eapply list_elem_of_In, list_elem_of_lookup_2|].
        rewrite Forall_forall in IH.
        apply IH; [by eapply list_elem_of_lookup_2|]. by exists p, d.
Qed.

End ValuableFacts.

Module StackTracksFacts.
Import Simplify.

Lemma wrap_in_track_fixed c : is_track c = true → wrap_in_track c = c.
Proof. unfold wrap_in_track. by intros ->. Qed.

(** X14.  [_ensure_stack_tracks] leaves a Stack whose children are all
    Tracks: a child that was a Track stays as it was, any other child sits
    alone in a new Track named after it, at the same position; doing it
    again changes nothing. *)
Theorem ensure_stack_tracks_wraps_each_child i cs :
  ∃ cs',
    _ensure_stack_tracks (Stack i cs) = Stack i cs'
    ∧ length cs' = length cs
    ∧ (∀ n c, cs !! n = Some c →
         ∃ c', cs' !! n = Some c' ∧ is_track c' = true
           ∧ (is_track c = true → c' = c)
           ∧ (is_track c = false →
              children_of c' = Some [c] ∧ c_name c' = c_name c))
    ∧ _ensure_stack_tracks (Stack i cs') = Stack i cs'.
Proof.
  exists (map wrap_in_track cs). split; [done|].
  split; [apply length_map|]. split.
  - intros n c Hn. exists (wrap_in_track c).
    split; [by rewrite list_lookup_fmap, Hn|].
    split; [apply SimplifyFacts.wrap_in_track_is_track|].
    split; [apply wrap_in_track_fixed|].
    intros Hc. unfold wrap_in_track. by rewrite Hc.
  - cbn. f_equal. rewrite map_map. apply map_ext. intros c.
    apply wrap_in_track_fixed, SimplifyFacts.wrap_in_track_is_track.
Qed.

(** X15.  The track kind of a media kind: only [Picture] gives Video, only
    the two sound kinds give Audio, and the prefixed names of all other
    kinds keep them apart. *)
Theorem transcribe_media_kind_classifies media_kind :
  (_transcribe_media_kind media_kind = TrackKind_Video
   ↔ media_kind = "Picture")
  ∧ (_transcribe_media_kind media_kind = TrackKind_Audio
     ↔ media_kind = "SoundMasterTrack" ∨ media_kind = "Sound")
  ∧ ∀ other,
      _transcribe_media_kind other = _transcribe_media_kind media_kind →
      _transcribe_media_kind media_kind ≠ TrackKind_Video →
      _transcribe_media_kind media_kind ≠ TrackKind_Audio →
      other = media_kind.
Proof.
  unfold _transcribe_media_kind, TrackKind_Video, TrackKind_Audio.
  split; [|split].
  - repeat case_decide; split; intros; simplify_eq/=; try done;
      destruct_or?; simplify_eq.
  - repeat case_decide; split; intros; simplify_eq/=; try done;
      destruct_or?; simplify_eq.
  - intros other. repeat case_decide; intros; simplify_eq/=; try done.
Qed.

End StackTracksFacts.

Module CheckFacts.
Import Validate.

(** X16.  A check never reports more than one error: a path that cannot be
    walked is reported once and not compared, a path that can be walked is
    compared once. *)
Theorem check_reports_at_most_one_error obj path val :
  (length (errors (__check obj path)) ≤ 1)%nat
  ∧ (length (errors (equals (__check obj path) val)) ≤ 1)%nat
  ∧ (errors (__check obj path) ≠ [] →
     errors (equals (__check obj path) val) = errors (__check obj path)).
Proof.
  unfold __check, equals.
  destruct (walk obj (split_tokens path)) as [v|e]; cbn.
  - split; [lia|]. split; [|done].
    destruct v; cbn [value errors]; try (cbn; lia);
      match goal with
      | |- context [if ?b then _ else _] => destruct b
      end; cbn; lia.
  - split; [lia|]. split; [lia|done].
Qed.

End CheckFacts.

Module NoMarkersFacts.
Import Markers.

Section with_lib.
Context `{OtioLib}.

Lemma attach_tracks_no_markers tracks_map tracks root :
  Forall (λ p, default [] (markers_of <$> get_at root p) = []) tracks →
  attach_tracks tracks_map tracks root = Ok root.
Proof.
  induction 1 as [|p tracks Hp _ IH]; cbn; [done|].
  rewrite Hp. cbn. exact IH.
Qed.

(** X17.  A timeline none of whose tracks carries a marker goes through the
    marker pass unchanged. *)
Theorem attach_markers_without_markers tl tracks_map :
  Forall (λ p, default [] (markers_of <$> get_at (root_of tl) p) = [])
         (find_tracks (root_of tl) []) →
  build_tracks_map (root_of tl) (find_tracks (root_of tl) []) ∅ = Ok tracks_map →
  _attach_markers (TTimeline tl) = Ok (TTimeline tl).
Proof.
  intros Hnone Hmap. cbn [_attach_markers]. unfold attach_timeline.
  rewrite Hmap. cbn. rewrite attach_tracks_no_markers by done.
  cbn. by destruct tl.
Qed.

End with_lib.


Lemma attach_markers_without_markers_witness :
  _attach_markers (H := SimpleOtio.simple_otio)
                  (TTimeline SimplifyExamples.flat_example)
  = Ok (TTimeline SimplifyExamples.flat_example).
Proof.
  apply (attach_markers_without_markers (H := SimpleOtio.simple_otio)
           SimplifyExamples.flat_example ∅).
  - vm_compute. repeat constructor.
  - reflexivity.
Defined.

End NoMarkersFacts.

Module GapsFacts.
Import Reader ReaderExamples ReaderShapes.

Lemma dict_update_get_none d d2 k :
  dict_get d2 k = None → dict_get (dict_update d d2) k = dict_get d k.
Proof.
  unfold dict_update. revert d.
  induction d2 as [|[k0 v0] d2 IH]; intros d; cbn; [done|].
  destruct (decide (k0 = k)); [done|]. intros Hrest.
  rewrite (IH _ Hrest). by apply ReaderFacts.dict_get_set_ne.
Qed.

Section with_lib.
Context `{OtioLib} `{PyFloat}.
Variable mobs : gmap MobID AAFObj.

Lemma initial_metadata_name item :
  (∀ o, common item = Some o → dict_get (props o) "Name" = None) →
  dict_get (initial_metadata mobs item) "Name"
  = Some (PStr (_get_name mobs item)).
Proof.
  intros Hname. unfold initial_metadata.
  assert (H1 : dict_get (match common item with
                         | Some o => dict_update
                                       [("Name", PStr (_get_name mobs item))]
                                       (props o)
                         | None => [("Name", PStr (_get_name mobs item))]
                         end) "Name" = Some (PStr (_get_name mobs item))).
  { destruct (common item) as [o|]; [|done].
    by rewrite dict_update_get_none by auto. }
  destruct (length_of item), (media_kind_of item);
    rewrite ?ReaderFacts.dict_get_set_ne by done; exact H1.
Qed.

Lemma initial_metadata_length item l :
  length_of item = Some l →
  dict_get (initial_metadata mobs item) "Length" = Some l.
Proof.
  intros Hl. unfold initial_metadata. rewrite Hl.
  apply ReaderFacts.dict_get_set_eq.
Qed.

Lemma postprocess_gap item metadata name length rate :
  dict_get metadata "Name" = Some (PStr name) →
  dict_get metadata "Length" = Some (PInt length) →
  postprocess item
    (TComposable
       (Gap (set_source_range
               (Some (mkTR (mkRT 0 rate) (mkRT (inject_Z length) rate)))
               new_item))) metadata
  = Ok (gap_for name metadata length rate).
Proof.
  intros Hname Hlen. unfold postprocess. cbn. rewrite Hname. cbn.
  rewrite Hlen. cbn.
  assert (Qeq_bool (inject_Z length) (inject_Z length) = true) as ->
    by (apply Qeq_bool_iff; reflexivity).
  rewrite andb_false_r. cbn.
  by destruct (media_kind_of item).
Qed.

(** X18.  A Filler read at a known edit rate becomes a Gap of the same length
    that starts at zero, named after the component and carrying its
    properties; the cache is not touched.  Without an edit rate the time
    values cannot be built. *)
Theorem filler_becomes_a_gap fuel o k length parents st :
  dict_get (props o) "Name" = None →
  (∀ rate,
     _transcribe mobs (S fuel) (Filler o k length) parents (Some rate) st
     = Ok (gap_for (_get_name mobs (Filler o k length))
                   (initial_metadata mobs (Filler o k length)) length rate,
           st))
  ∧ _transcribe mobs (S fuel) (Filler o k length) parents None st
    = Raise TypeError.
Proof.
  intros Hname. split.
  - intros rate. rewrite ReaderFacts.transcribe_S.
    cbn [dispatch edit_rate_of].
    unfold mbind, M_bind, bindM, lift, mret, M_ret, ret, gap_of_length.
    cbn [RationalTime_ mbind result_bind Py.bind fst snd].
    rewrite (postprocess_gap _ _ (_get_name mobs (Filler o k length)));
      [done| |].
    + apply initial_metadata_name. by intros ? [= <-].
    + by apply initial_metadata_length.
  - by rewrite ReaderFacts.transcribe_S.
Qed.

(** X19.  A SourceClip whose mob cannot be found becomes a Gap of the clip's
    length that starts at zero: the start offset of the clip is dropped and
    nothing is raised. *)
Theorem source_clip_without_mob_becomes_a_gap
        fuel o k length start mob slot_id parents rate st :
  mob ≫= (mobs !!.) = None →
  dict_get (props o) "Name" = None →
  _transcribe mobs (S fuel) (SourceClip o k length start mob slot_id) parents
              (Some rate) st
  = Ok (gap_for "SourceClip Missing Mob"
                (initial_metadata mobs
                   (SourceClip o k length start mob slot_id)) length rate,
        st).
Proof.
  intros Hmob Hname. rewrite ReaderFacts.transcribe_S.
  cbn [dispatch edit_rate_of].
  unfold mbind, M_bind, bindM, lift, mret, M_ret, ret.
  cbn [RationalTime_].
  pose proof Hmob as Hmob'. unfold mbind in Hmob'. rewrite Hmob'.
  unfold transcribe_source_clip.
  cbn [RationalTime_ mbind result_bind Py.bind fst snd option_bind].
  rewrite postprocess_gap with (name := "SourceClip Missing Mob"); [done| |].
  - rewrite initial_metadata_name; [|by intros ? [= <-]].
    cbn. by rewrite Hmob.
  - by apply initial_metadata_length.
Qed.

Lemma foldM_invariant {A B} (P : B → Prop) (f : B → nat → A → M B) l i b st r st' :
  (∀ b i x st r st', P b → f b i x st = Ok (r, st') → P r) →
  P b → foldM f l i b st = Ok (r, st') → P r.
Proof.
  intros Hf. revert i b st.
  induction l as [|x l IH]; intros i b st Hb; cbn.
  - unfold ret. by intros [= <- <-].
  - unfold bindM. destruct (f b i x st) as [[b1 st1]|] eqn:Hx; [|discriminate].
    apply IH. by eapply Hf.
Qed.

Lemma add_child_keeps_item parent child r :
  _add_child parent child = Ok r →
  effects r.1 = effects parent.1 ∧ source_range r.1 = source_range parent.1.
Proof. destruct child; cbn; intros; by simplify_eq. Qed.

Lemma postprocess_stack item i cs metadata r :
  postprocess item (TComposable (Stack i cs)) metadata = Ok r →
  ∃ i', r = TComposable (Stack i' cs)
        ∧ effects i' = effects i ∧ source_range i' = source_range i.
Proof.
  unfold postprocess.
  cbn [thing_name c_name mbind result_bind Py.bind].
  destruct (if String.eqb (name i) "" then _ else _) as [r1|] eqn:H1;
    cbn [Py.bind]; [|discriminate].
  assert (∃ i1, r1 = TComposable (Stack i1 cs) ∧ effects i1 = effects i
                ∧ source_range i1 = source_range i) as (i1 & -> & He & Hs).
  { destruct (String.eqb (name i) ""); [|simplify_eq; eauto].
    destruct (dict_get metadata "Name") as [[]|]; simplify_eq; eauto. }
  cbn [thing_metadata c_metadata].
  destruct (dict_get (Otio.metadata i1) "AAF"); cbn;
    repeat case_match; intros; cbn in *; simplify_eq; cbn; eauto.
Qed.

Lemma finish_linear_schema q : e_schema (TimeWarp.finish_linear q) ≠ SEffect.
Proof. unfold TimeWarp.finish_linear. by destruct (Qeq_bool q 0). Qed.

Lemma linear_timewarp_schema og parameters e :
  TimeWarp._transcribe_linear_timewarp og parameters = Ok e →
  e_schema e ≠ SEffect.
Proof.
  unfold TimeWarp._transcribe_linear_timewarp, mbind, result_bind, Py.bind.
  intros Hl.
  repeat (case_match; simplify_eq; try done);
    try apply finish_linear_schema.
Qed.

Lemma operation_effect_kind og operation parameters op_name e :
  operation_effect og operation parameters op_name = Ok e →
  e_metadata e = [("AAF", PDict [("Operation", PDict operation);
                                 ("Parameters", PDict parameters)])]
  ∧ (e_schema e = SEffect
     ↔ opt_truthy (dict_get operation "IsTimeWarp") = false).
Proof.
  unfold operation_effect.
  destruct (opt_truthy (dict_get operation "IsTimeWarp")) eqn:Htw.
  - destruct (String.eqb op_name "Motion Control").
    + destruct (TimeWarp._get_parameter og "SpeedRatio").
      * destruct (TimeWarp._transcribe_linear_timewarp og parameters)
          as [e0|] eqn:Hl; cbn; [|discriminate].
        intros [= <-]. cbn. split; [done|].
        split; [|done]. intros He.
        by apply linear_timewarp_schema in Hl.
      * cbn. intros [= <-]. cbn. split; [done|]. split; done.
    + cbn. intros [= <-]. cbn. split; done.
  - cbn. intros [= <-]. cbn. split; done.
Qed.

(** X20.  Every OperationGroup that is transcribed becomes a Stack of the
    group's length that carries exactly one effect; the effect holds the
    operation and its parameters as metadata, and it is a plain effect
    exactly when the operation is not a time warp. *)
Theorem operation_group_becomes_a_stack_with_one_effect
        fuel o k og segments parents edit_rate st r st' :
  _transcribe mobs fuel (OperationGroup o k og segments) parents edit_rate st
  = Ok (r, st') →
  let metadata := initial_metadata mobs (OperationGroup o k og segments) in
  ∃ i cs e rate,
    r = TComposable (Stack i cs) ∧ edit_rate = Some rate
    ∧ source_range i
      = Some (mkTR (mkRT 0 rate) (mkRT (inject_Z (og_length og)) rate))
    ∧ effects i = [e]
    ∧ e_metadata e
      = [("AAF", PDict [("Operation", PDict (get_dict metadata "Operation"));
                        ("Parameters", PDict (get_dict metadata "Parameters"))])]
    ∧ (e_schema e = SEffect
       ↔ opt_truthy (dict_get (get_dict metadata "Operation") "IsTimeWarp")
         = false).
Proof.
  destruct fuel as [|fuel]; [discriminate|].
  rewrite ReaderFacts.transcribe_S. cbn zeta. cbn [edit_rate_of].
  set (item := OperationGroup o k og segments).
  set (metadata := initial_metadata mobs item).
  destruct (dispatch _ _ _ _ _ _ _) as [[[r0 md] st1]|] eqn:Hd; [|discriminate].
  cbn [fst snd].
  destruct (postprocess _ r0 md) as [res|] eqn:Hp; [|discriminate].
  cbn. intros [= <- <-].
  subst item. cbn [dispatch] in Hd.
  unfold mbind, M_bind, bindM, lift, mret, M_ret, ret in Hd.
  fold metadata in Hd.
  assert (Hlen : dict_get metadata "Length" = Some (PInt (og_length og)))
    by (by apply initial_metadata_length).
  rewrite Hlen in Hd.
  destruct (dict_get (get_dict metadata "Operation") "Name") as [[]|];
    try discriminate.
  destruct (RationalTime_ 0 edit_rate) as [zero|] eqn:Hz; [|discriminate].
  destruct (RationalTime_ (og_length og) edit_rate) as [dur|] eqn:Hdur;
    [|discriminate].
  destruct (operation_effect _ _ _ _) as [e|] eqn:He; [|discriminate].
  destruct (foldM _ _ _ _ st) as [[acc st2]|] eqn:Hfold; [|discriminate].
  injection Hd as <- <- <-.
  apply ReaderFacts.RationalTime_ok in Hz as (rate & -> & ->).
  apply ReaderFacts.RationalTime_ok in Hdur as (rate' & [= <-] & ->).
  apply (foldM_invariant
           (λ acc, effects acc.1 = [e]
                   ∧ source_range acc.1
                     = Some (mkTR (mkRT (inject_Z 0) rate)
                                  (mkRT (inject_Z (og_length og)) rate))))
    in Hfold; [| |done].
  - destruct Hfold as [Heff Hsr]. cbn [fst snd] in Hp.
    apply postprocess_stack in Hp as (i' & -> & Heff' & Hsr').
    apply operation_effect_kind in He as [Hmd Hkind].
    exists i', acc.2, e, rate.
    rewrite Heff', Hsr', Heff, Hsr. done.
  - intros b n x st0 r1 st3 [Hb1 Hb2].
    destruct (_transcribe mobs fuel x _ _ st0) as [[child st4]|]; [|discriminate].
    destruct (thing_truthy child).
    + destruct (_add_child b child) as [b'|] eqn:Hadd; [|discriminate].
      intros [= <- <-]. apply add_child_keeps_item in Hadd as [-> ->]. done.
    + by intros [= <- <-].
Qed.

End with_lib.

Lemma filler_becomes_a_gap_witness :
  _transcribe (H := SimpleOtio.simple_otio) (H0 := DecimalFloat.decimal_float)
              ∅ 1 (filler 40) [] (Some 24%Q) ∅
  = Ok (gap_for "Filler" (initial_metadata ∅ (filler 40)) 40 24, ∅)
  ∧ _transcribe (H := SimpleOtio.simple_otio) (H0 := DecimalFloat.decimal_float)
                ∅ 1 (filler 40) [] None ∅
    = Raise TypeError.
Proof.
  destruct (filler_becomes_a_gap
              (H := SimpleOtio.simple_otio) (H0 := DecimalFloat.decimal_float)
              ∅ 0 (obj "Filler" "" []) "Picture" 40 [] ∅ eq_refl)
    as [Hok Hnone].
  split; [exact (Hok 24%Q)|exact Hnone].
Defined.

Lemma source_clip_without_mob_becomes_a_gap_witness :
  _transcribe (H := SimpleOtio.simple_otio) (H0 := DecimalFloat.decimal_float)
              ∅ 1 (clip_of "nowhere" 30) [] (Some 24%Q) ∅
  = Ok (gap_for "SourceClip Missing Mob"
                (initial_metadata ∅ (clip_of "nowhere" 30)) 30 24, ∅).
Proof.
  apply (source_clip_without_mob_becomes_a_gap
           (H := SimpleOtio.simple_otio) (H0 := DecimalFloat.decimal_float)
           ∅ 0 (obj "SourceClip" "" []) "Picture" 30 0 (Some "nowhere") 1 []
           24 ∅); reflexivity.
Defined.

Lemma operation_group_becomes_a_stack_with_one_effect_witness :
  ∃ i cs e,
    read (H := SimpleOtio.simple_otio) (H0 := DecimalFloat.decimal_float)
         ∅ 3 dissolve_group (Some 24%Q)
    = Ok (TComposable (Stack i cs))
    ∧ effects i = [e] ∧ e_schema e = SEffect.
Proof.
  unfold read.
  destruct (_transcribe (H := SimpleOtio.simple_otio)
                        (H0 := DecimalFloat.decimal_float)
                        ∅ 3 dissolve_group [] (Some 24%Q) ∅)
    as [[r st']|] eqn:Hrun; [|vm_compute in Hrun; discriminate].
  destruct (operation_group_becomes_a_stack_with_one_effect
              (H := SimpleOtio.simple_otio) (H0 := DecimalFloat.decimal_float)
              ∅ _ _ _ _ _ _ _ _ _ _ Hrun)
    as (i & cs & e & rate & -> & _ & _ & Heff & _ & Hkind).
  exists i, cs, e. split; [reflexivity|]. split; [exact Heff|].
  apply Hkind. reflexivity.
Defined.

End GapsFacts.

Module CacheFacts.
Import Reader ReaderShapes.

Lemma grows_ret {A} (a : A) : grows (ret a).
Proof. intros st a' st'. unfold ret. by intros [= <- <-]. Qed.

Lemma grows_lift {A} (r : result A) : grows (lift r).
Proof. intros st a st'. unfold lift. destruct r; by intros [= <- <-]. Qed.

Lemma grows_raise {A} e : grows (raise e : M A).
Proof. intros st a st'. discriminate. Qed.

Lemma grows_cache_get mob_id : grows (cache_get mob_id).
Proof. intros st a st'. unfold cache_get. by intros [= <- <-]. Qed.

Lemma grows_cache_put mob_id tl : grows (cache_put mob_id tl).
Proof.
  intros st a st'. unfold cache_put. intros [= <- <-].
  rewrite dom_insert. set_solver.
Qed.

Lemma grows_bind {A B} (m : M A) (k : A → M B) :
  grows m → (∀ a, grows (k a)) → grows (bindM m k).
Proof.
  intros Hm Hk st b st'. unfold bindM.
  destruct (m st) as [[a st1]|] eqn:Hrun; [|discriminate].
  intros Hk'. etransitivity; [eapply Hm, Hrun|eapply Hk, Hk'].
Qed.

Lemma grows_foldM {A B} (f : B → nat → A → M B) l i b :
  (∀ b i x, grows (f b i x)) → grows (foldM f l i b).
Proof.
  intros Hf. revert i b. induction l as [|x l IH]; intros i b; cbn.
  - apply grows_ret.
  - apply grows_bind; [apply Hf|intros; apply IH].
Qed.

Section with_lib.
Context `{OtioLib} `{PyFloat}.
Variable mobs : gmap MobID AAFObj.

Lemma dispatch_grows rec item parents edit_rate metadata :
  (∀ i p e, grows (rec i p e)) →
  grows (dispatch mobs rec item parents edit_rate metadata).
Proof.
  intros Hrec.
  destruct item; cbn [dispatch]; unfold mbind, M_bind, mret, M_ret;
    repeat first
      [ apply grows_ret | apply grows_lift | apply grows_raise
      | apply grows_cache_get | apply grows_cache_put
      | apply grows_foldM; intros
      | apply grows_bind; [|intros]
      | apply Hrec
      | match goal with
        | |- grows (match ?x with _ => _ end) => destruct x
        | |- grows (if ?x then _ else _) => destruct x
        end ].
Qed.

(** X21.  During a read pass the mob cache only grows: a mob that has an
    entry keeps one, whatever is transcribed next. *)
Theorem transcribe_keeps_cached_mobs fuel item parents edit_rate st r st' :
  _transcribe mobs fuel item parents edit_rate st = Ok (r, st') →
  dom st ⊆ dom st'.
Proof.
  revert item parents edit_rate st r st'.
  change (∀ item parents edit_rate,
            grows (_transcribe mobs fuel item parents edit_rate)).
  induction fuel as [|fuel IH]; intros item parents edit_rate;
    cbn [_transcribe]; [apply grows_raise|].
  unfold mbind, M_bind, mret, M_ret.
  apply grows_bind; [by apply dispatch_grows|intros].
  apply grows_bind; [apply grows_lift|intros].
  apply grows_bind; [|intros; apply grows_ret].
  unfold sync_cache, mret, M_ret.
  repeat first
    [ apply grows_ret | apply grows_cache_put
    | match goal with
      | |- grows (match ?x with _ => _ end) => destruct x
      end ].
Qed.

End with_lib.

Lemma transcribe_keeps_cached_mobs_witness :
  ∃ r st',
    _transcribe (H := SimpleOtio.simple_otio) (H0 := DecimalFloat.decimal_float)
                ∅ 6 ReaderExamples.edit [] None
                {[ "other-id" := mkTimeline "other" [] None new_item [] ]}
    = Ok (r, st')
    ∧ "other-id" ∈ dom st'.
Proof.
  destruct (_transcribe (H := SimpleOtio.simple_otio)
                        (H0 := DecimalFloat.decimal_float)
                        ∅ 6 ReaderExamples.edit [] None
                        {[ "other-id" := mkTimeline "other" [] None new_item [] ]})
    as [[r st']|] eqn:Hrun; [|vm_compute in Hrun; discriminate].
  exists r, st'. split; [reflexivity|].
  apply (transcribe_keeps_cached_mobs
           (H := SimpleOtio.simple_otio) (H0 := DecimalFloat.decimal_float)
           ∅ _ _ _ _ _ _ _ Hrun).
  rewrite dom_singleton. set_solver.
Defined.

End CacheFacts.

Module ReadFileFacts.
Import Hooks Reader ReadFile ReadFileExamples.

Section with_lib.
Context `{OtioLib} `{PyFloat} `{OtioTime}.
Context {AAFFile : Type}.
Implicit Types manifest : gmap string (list (@hook_script Thing AAFFile)).

Lemma postprocess_collection item n md cs metadata r :
  postprocess item (TCollection n md cs) metadata = Ok r →
  ∃ n' md', r = TCollection n' md' cs.
Proof.
  unfold postprocess. cbn.
  destruct (String.eqb n "").
  - destruct (dict_get metadata "Name") as [[]|]; cbn; try discriminate;
      repeat case_match; intros; cbn in *; simplify_eq; eauto.
  - cbn. repeat case_match; intros; cbn in *; simplify_eq; eauto.
Qed.

Lemma transcribe_single_mob mobs fuel mob mob_id r st :
  is_cached_mob mob = Some mob_id →
  _transcribe mobs fuel (PyList [mob]) [] None ∅ = Ok (r, st) →
  ∃ n md tl, r = TCollection n md [TTimeline tl].
Proof.
  intros Hmob. destruct fuel as [|fuel]; [discriminate|].
  rewrite ReaderFacts.transcribe_S. cbn zeta. cbn [edit_rate_of].
  destruct (dispatch _ _ _ _ _ _ _) as [[[r0 md] st1]|] eqn:Hd; [|discriminate].
  cbn [fst snd].
  destruct (postprocess _ r0 md) as [res|] eqn:Hp; [|discriminate].
  cbn. intros [= <- <-].
  cbn [dispatch foldM] in Hd.
  unfold mbind, M_bind, bindM, mret, M_ret, ret in Hd.
  destruct (_transcribe mobs fuel mob _ _ ∅) as [[t st2]|] eqn:Ht;
    [|discriminate].
  destruct (ReaderFacts.mob_is_cached _ _ _ _ _ _ _ _ _ Hmob Ht)
    as (tl & -> & _).
  cbn in Hd. injection Hd as <- <- <-.
  apply postprocess_collection in Hp as (n' & md' & ->). eauto.
Qed.

Lemma fix_transitions_single n md tl r :
  FixTransitions._fix_transitions (TCollection n md [TTimeline tl]) = Ok r →
  ∃ tl', r = TCollection n md [TTimeline tl'].
Proof.
  cbn [FixTransitions._fix_transitions Simplify.mapM].
  destruct (FixTransitions.fix_composable _ _) as [c|]; cbn; [|discriminate].
  destruct c; cbn; try discriminate. intros [= <-]. eauto.
Qed.

Lemma attach_markers_single n md tl r :
  Markers._attach_markers (TCollection n md [TTimeline tl]) = Ok r →
  ∃ tl', r = TCollection n md [TTimeline tl'].
Proof.
  cbn [Markers._attach_markers Simplify.mapM].
  destruct (Markers.attach_timeline _) as [tl2|]; cbn; [|discriminate].
  intros [= <-]. eauto.
Qed.

Lemma simplify_single n md tl r :
  Simplify._simplify (TCollection n md [TTimeline tl]) = Ok r →
  ∃ tl', r = TTimeline tl' ∧ Forall (λ c, is_track c = true) (tracks tl').
Proof.
  intros Hr. cbn [Simplify._simplify] in Hr.
  destruct (Simplify.simplify_composable _ _) as [p|] eqn:Hs; cbn in Hr;
    [|discriminate].
  destruct (if is_stack p.2 then p.2 else p.1) as [| | | |i' cs'] eqn:Hshape;
    try discriminate.
  injection Hr as <-. eexists. split; [reflexivity|].
  eapply SimplifyFacts.simplified_tracks. cbn [Simplify._simplify].
  rewrite Hs. cbn. rewrite Hshape. reflexivity.
Qed.

(** X22.  With simplification on, a file whose listing holds a single
    composition or master mob reads as one Timeline, not as a collection,
    and every top-level child of that timeline is a Track (no hook fires). *)
Theorem read_single_mob_gives_a_timeline
        manifest filepath aaf_file storage attach_markers extra fuel
        mob mob_id r :
  manifest !! HOOK_PRE_WRITE_TRANSCRIBE = None →
  manifest !! HOOK_POST_WRITE_TRANSCRIBE = None →
  _get_mobs_for_transcription storage = [mob] →
  is_cached_mob mob = Some mob_id →
  read_from_file manifest filepath aaf_file storage true attach_markers
                 extra fuel = Ok r →
  ∃ tl, r = TTimeline tl ∧ Forall (λ c, is_track c = true) (tracks tl).
Proof.
  intros _ _ Hmobs Hmob. unfold read_from_file. rewrite Hmobs.
  destruct (run_pre_read_transcribe_hook _ _ _ _); cbn [mbind result_bind Py.bind fst snd]; [|discriminate].
  destruct (_transcribe _ _ _ _ _ _) as [[t st]|] eqn:Ht; cbn [mbind result_bind Py.bind fst snd]; [|discriminate].
  destruct (transcribe_single_mob _ _ _ _ _ _ Hmob Ht) as (n & md & tl & ->).
  destruct (run_post_read_transcribe_hook _ _ _ _ _); cbn [mbind result_bind Py.bind fst snd]; [|discriminate].
  destruct (FixTransitions._fix_transitions _) as [t1|] eqn:H1'; cbn [mbind result_bind Py.bind fst snd];
    [|discriminate].
  apply fix_transitions_single in H1' as (tl1 & ->).
  destruct attach_markers.
  - destruct (Markers._attach_markers _) as [t2|] eqn:H2; cbn [mbind result_bind Py.bind fst snd]; [|discriminate].
    apply attach_markers_single in H2 as (tl2 & ->).
    destruct (Simplify._simplify _) as [r1|] eqn:Hr; cbn [mbind result_bind Py.bind fst snd]; [|discriminate].
    intros [= <-]. eapply simplify_single, Hr.
  - cbn [mbind result_bind Py.bind fst snd]. destruct (Simplify._simplify _) as [r1|] eqn:Hr; cbn [mbind result_bind Py.bind fst snd]; [|discriminate].
    intros [= <-]. eapply simplify_single, Hr.
Qed.

(** X23.  A file that lists no mob at all reads, without error, as an empty
    collection named [list], whatever the options (no hook fires). *)
Theorem read_file_without_mobs
        manifest filepath aaf_file storage simplify attach_markers extra fuel :
  manifest !! HOOK_PRE_WRITE_TRANSCRIBE = None →
  manifest !! HOOK_POST_WRITE_TRANSCRIBE = None →
  toplevel storage = [] → compositionmobs storage = [] →
  mastermobs storage = [] →
  read_from_file manifest filepath aaf_file storage simplify attach_markers
                 extra (S fuel)
  = Ok (TCollection "list" [("AAF", PDict [("Name", PStr "list")])] []).
Proof.
  intros Hpre Hpost Htop Hcomp Hmaster.
  unfold read_from_file, _get_mobs_for_transcription.
  rewrite Htop, Hcomp, Hmaster. cbn [length Nat.ltb Nat.leb].
  unfold run_pre_read_transcribe_hook, run_post_read_transcribe_hook,
    hooks_names.
  rewrite decide_False by (rewrite elem_of_dom; intros [? ?]; congruence).
  assert (Hlist : _transcribe (mobs storage) (S fuel) (PyList []) [] None ∅
                  = Ok (TCollection "list"
                          [("AAF", PDict [("Name", PStr "list")])] [], ∅))
    by reflexivity.
  rewrite Hlist. cbn [mbind result_bind Py.bind fst snd].
  rewrite decide_False by (rewrite elem_of_dom; intros [? ?]; congruence).
  destruct simplify, attach_markers; reflexivity.
Qed.

End with_lib.

Lemma read_single_mob_gives_a_timeline_witness :
  ∃ tl,
    read_from_file (H := SimpleOtio.simple_otio)
                   (H0 := DecimalFloat.decimal_float)
                   no_hooks "in.aaf" tt one_edit true true ∅ 7
    = Ok (TTimeline tl)
    ∧ Forall (λ c, is_track c = true) (tracks tl).
Proof.
  destruct (read_from_file (H := SimpleOtio.simple_otio)
                           (H0 := DecimalFloat.decimal_float)
                           no_hooks "in.aaf" tt one_edit true true ∅ 7)
    as [r|] eqn:Hrun; [|vm_compute in Hrun; discriminate].
  destruct (read_single_mob_gives_a_timeline
              (H := SimpleOtio.simple_otio) (H0 := DecimalFloat.decimal_float)
              no_hooks "in.aaf" tt one_edit true ∅ 7 ReaderExamples.edit
              "edit-id" r eq_refl eq_refl eq_refl eq_refl Hrun)
    as (tl & -> & Htracks).
  exists tl. split; [reflexivity|exact Htracks].
Defined.

Lemma read_file_without_mobs_witness :
  read_from_file (H := SimpleOtio.simple_otio)
                 (H0 := DecimalFloat.decimal_float)
                 no_hooks "in.aaf" tt (mkStorage [] [] [] ∅) true true ∅ 1
  = Ok (TCollection "list" [("AAF", PDict [("Name", PStr "list")])] []).
Proof.
  apply (read_file_without_mobs
           (H := SimpleOtio.simple_otio) (H0 := DecimalFloat.decimal_float)
           no_hooks "in.aaf" tt (mkStorage [] [] [] ∅) true true ∅ 0);
    reflexivity.
Defined.

End ReadFileFacts.

Module TimeWarpEdgeFacts.
Import TimeWarp TimeWarpExamples.

Section with_float.
Context `{PyFloat}.

(** X24.  The slope of a speed graph is not guarded: two control points at
    the same time make [_transcribe_linear_timewarp] raise
    [ZeroDivisionError], whatever the stored ratio is; so does a stored
    ratio that reads as zero when there is no usable speed graph. *)
Theorem linear_timewarp_divides_by_zero item parameters :
  (∀ n p0 p1,
     _get_parameter item "PARAM_SPEED_OFFSET_MAP_U"
     = Some (VaryingValue n [p0; p1]) →
     (cp_time p1 == cp_time p0)%Q →
     _transcribe_linear_timewarp item parameters = Raise ZeroDivisionError)
  ∧ (∀ ratio q,
       no_usable_points item →
       dict_get parameters "SpeedRatio" = Some (PStr ratio) →
       ratio ≠ str_of_Z (og_length item) →
       contains_char "/" ratio = false →
       py_float ratio = Ok q → (q == 0)%Q →
       _transcribe_linear_timewarp item parameters = Raise ZeroDivisionError).
Proof.
  split.
  - intros n p0 p1 Hmap Ht. unfold _transcribe_linear_timewarp.
    rewrite Hmap. cbn. unfold fdiv.
    assert (Qeq_bool (cp_time p1 - cp_time p0) 0 = true) as ->; [|done].
    apply Qeq_bool_iff. lra.
  - intros ratio q Hpts Hratio Hlen Hslash Hfloat Hq.
    unfold _transcribe_linear_timewarp.
    assert (Hfall :
      (match dict_get parameters "SpeedRatio" with
       | Some (PStr ratio) =>
           if decide (ratio = str_of_Z (og_length item)) then
             Ok (finish_linear 0)
           else if contains_char "/" ratio then
             match split_on "/" ratio with
             | [n; d] =>
                 numerator ← py_float n;
                 denominator ← py_float d;
                 time_scalar ← fdiv denominator numerator;
                 Ok (finish_linear time_scalar)
             | _ => Raise ValueError
             end
           else
             r ← py_float ratio;
             time_scalar ← fdiv 1 r;
             Ok (finish_linear time_scalar)
       | _ => Raise TypeError
       end) = Raise ZeroDivisionError).
    { rewrite Hratio, decide_False, Hslash, Hfloat by done. cbn. unfold fdiv.
      assert (Qeq_bool q 0 = true) as ->; [|done]. by apply Qeq_bool_iff. }
    destruct Hpts as [->|(n & pl & -> & Hshort)]; cbn; [exact Hfall|].
    destruct pl as [|? [|? ?]]; cbn in Hshort; try lia; exact Hfall.
Qed.

End with_float.

End TimeWarpEdgeFacts.

Module TrackWriterFacts.
Import TrackWriter.

Section with_leaves.
Variable aaf_filler : OtioChild → result Component.
Variable aaf_sourceclip : MobIds.ClipData → result Component.
Variable aaf_dissolve : OtioChild → result Component.

Lemma collect_spec children length components r :
  collect (transcribe aaf_filler aaf_sourceclip aaf_dissolve) children length components = Ok r →
  ∃ added,
    r = ((length + sum_lengths added)%Z, components ++ added)
    ∧ Forall2 (λ child c, (transcribe aaf_filler aaf_sourceclip aaf_dissolve) child = Ok (Some c)) children added.
Proof.
  revert length components r.
  induction children as [|child rest IH]; intros length components r; cbn.
  - intros [= <-]. exists []. unfold sum_lengths. cbn.
    rewrite Z.add_0_r, app_nil_r. split; [done|constructor].
  - destruct ((transcribe aaf_filler aaf_sourceclip aaf_dissolve) child) as [[c|]|] eqn:Hc; cbn; [|discriminate..].
    intros Hr. destruct (IH _ _ _ Hr) as (added & -> & Hall).
    exists (c :: added). split.
    + unfold sum_lengths. cbn. rewrite <- app_assoc. f_equal. lia.
    + by constructor.
Qed.

(** X25.  A nested track is written as a Sequence, a nested stack as an
    OperationGroup, holding one component for each child in order; the
    length of either is the sum of the lengths of its components. *)
Theorem nested_length_is_the_sum_of_the_parts children r :
  ((transcribe aaf_filler aaf_sourceclip aaf_dissolve) (WTrack children) = Ok r →
   ∃ components,
     r = Some (WrittenSequence (sum_lengths components) components)
     ∧ Forall2 (λ child c, (transcribe aaf_filler aaf_sourceclip aaf_dissolve) child = Ok (Some c))
               children components)
  ∧ ((transcribe aaf_filler aaf_sourceclip aaf_dissolve) (WStack children) = Ok r →
     ∃ segments,
       r = Some (WrittenOperationGroup (sum_lengths segments) segments)
       ∧ Forall2 (λ child c, (transcribe aaf_filler aaf_sourceclip aaf_dissolve) child = Ok (Some c))
                 children segments).
Proof.
  split; cbn [transcribe _is_considered_gap mbind result_bind
                Py.bind];
    destruct (collect _ children 0 []) as [p|] eqn:Hp; cbn; try discriminate;
    intros [= <-];
    destruct (collect_spec _ _ _ _ Hp) as (added & -> & Hall);
    exists added; cbn; done.
Qed.

Lemma collect_stops before transition_type name after length components :
  String.eqb transition_type SMPTE_Dissolve = false →
  Forall (λ child, ∃ c, (transcribe aaf_filler aaf_sourceclip aaf_dissolve) child = Ok (Some c)) before →
  collect (transcribe aaf_filler aaf_sourceclip aaf_dissolve) (before ++ WTransition transition_type name :: after)
          length components
  = Raise AttributeError.
Proof.
  intros Htype Hbefore. revert length components.
  induction Hbefore as [|child before [c Hc] _ IH]; intros length components;
    cbn.
  - by rewrite Htype.
  - rewrite Hc. cbn. apply IH.
Qed.

(** X26.  A transition that is not a dissolve cannot sit inside a nested
    track or stack: it is written as nothing, and adding up the lengths
    then fails with [AttributeError] once the children before it have been
    written. *)
Theorem nested_unsupported_transition_fails
        before transition_type name after :
  transition_type ≠ SMPTE_Dissolve →
  Forall (λ child, ∃ c, (transcribe aaf_filler aaf_sourceclip aaf_dissolve) child = Ok (Some c)) before →
  (transcribe aaf_filler aaf_sourceclip aaf_dissolve) (WTransition transition_type name) = Ok None
  ∧ (transcribe aaf_filler aaf_sourceclip aaf_dissolve) (WTrack (before ++ WTransition transition_type name :: after))
    = Raise AttributeError
  ∧ (transcribe aaf_filler aaf_sourceclip aaf_dissolve) (WStack (before ++ WTransition transition_type name :: after))
    = Raise AttributeError.
Proof.
  intros Htype%String.eqb_neq Hbefore.
  split; [cbn; by rewrite Htype|].
  split; cbn [transcribe _is_considered_gap mbind result_bind
                Py.bind];
    by rewrite collect_stops.
Qed.

End with_leaves.

Import TrackWriterExamples.

Lemma nested_length_is_the_sum_of_the_parts_witness :
  ∃ components,
    transcribe (filler_of 5) (source_clip_of 20) (dissolve_of 8) (WTrack nested)
    = Ok (Some (WrittenSequence (sum_lengths components) components))
    ∧ length components = 4%nat.
Proof.
  destruct (transcribe (filler_of 5) (source_clip_of 20) (dissolve_of 8)
                       (WTrack nested)) as [r|] eqn:Hrun;
    [|vm_compute in Hrun; discriminate].
  destruct (nested_length_is_the_sum_of_the_parts
              (filler_of 5) (source_clip_of 20) (dissolve_of 8) nested r)
    as [Htrack _].
  destruct (Htrack Hrun) as (components & -> & Hall).
  exists components. split; [reflexivity|].
  by rewrite <- (Forall2_length _ _ _ Hall).
Defined.

Lemma nested_unsupported_transition_fails_witness :
  transcribe (filler_of 5) (source_clip_of 20) (dissolve_of 8) (WTrack wiped)
  = Raise AttributeError.
Proof.
  destruct (nested_unsupported_transition_fails
              (filler_of 5) (source_clip_of 20) (dissolve_of 8)
              [shot "a"] "Custom_Wipe" "w" [shot "b"])
    as (_ & Htrack & _).
  - discriminate.
  - repeat constructor. by eexists.
  - exact Htrack.
Defined.

End TrackWriterFacts.

Module MediaRefsFacts.
Import Urls MediaRefs.

Lemma has_key_false key references :
  has_key key references = false ↔ key ∉ references.*1.
Proof. unfold has_key. by rewrite bool_decide_eq_false. Qed.

Lemma fresh_key_is_fresh fuel name key i references k :
  fresh_key fuel name key i references = Ok k → k ∉ references.*1.
Proof.
  revert key i. induction fuel as [|fuel IH]; intros key i; cbn;
    destruct (has_key key references) eqn:Hk; try discriminate;
    try (intros [= <-]; by apply has_key_false).
  apply IH.
Qed.

Lemma fresh_key_finds fuel name key i references :
  (∃ j, (i ≤ j < i + fuel)%nat
        ∧ has_key (name +:+ suffix j) references = false) →
  ∃ k, fresh_key fuel name key i references = Ok k.
Proof.
  revert key i. induction fuel as [|fuel IH]; intros key i (j & Hj & Hfree);
    cbn; destruct (has_key key references) eqn:Hk; eauto; [lia|].
  destruct (decide (j = i)) as [->|Hne].
  - destruct fuel; cbn; rewrite Hfree; eauto.
  - apply IH. exists j. split; [lia|done].
Qed.

Lemma suffix_inj a b :
  (10 ≤ a)%nat → (10 ≤ b)%nat → suffix a = suffix b → a = b.
Proof.
  intros Ha Hb. unfold suffix.
  destruct (Nat.ltb_spec a 10), (Nat.ltb_spec b 10); try lia.
  intros Heq. apply (inj (String.append "_")) in Heq.
  by apply (inj pretty) in Heq.
Qed.

(** Among the first suffixes past the tenth there is always one that the
    references do not use yet. *)
Lemma some_suffix_is_free name (references : list (string * MediaRef)) :
  ∃ j, (1 ≤ j < 1 + (10 + length references))%nat
       ∧ has_key (name +:+ suffix j) references = false.
Proof.
  set (candidates :=
         (λ j, name +:+ suffix (10 + j)) <$> seq 0 (S (length references))).
  destruct (Forall_Exists_dec (λ k, k ∈ references.*1)
                              (λ k, k ∉ references.*1)
                              (λ k, decide (k ∈ references.*1)) candidates)
    as [Hall|Hsome].
  - exfalso.
    assert (Hnodup : NoDup candidates).
    { apply NoDup_fmap_2_strong; [|apply NoDup_seq].
      intros a b _ _ Heq. apply (inj (String.append name)) in Heq.
      apply suffix_inj in Heq; lia. }
    rewrite Forall_forall in Hall.
    pose proof (submseteq_length _ _ (NoDup_submseteq _ _ Hnodup Hall)) as Hlen.
    unfold candidates in Hlen.
    rewrite !length_fmap, length_seq in Hlen. lia.
  - apply Exists_exists in Hsome as (k & Hin & Hfree).
    apply list_elem_of_fmap in Hin as (j & -> & Hj).
    apply elem_of_seq in Hj.
    exists (10 + j)%nat. split; [lia|]. by apply has_key_false.
Qed.

Lemma add_references_spec rest references :
  NoDup references.*1 →
  ∃ added,
    add_references rest references = Ok (references ++ added)
    ∧ NoDup (references ++ added).*1
    ∧ added.*2 = rest.*2.
Proof.
  revert references. induction rest as [|[key ref] rest IH];
    intros references Hnodup; cbn [add_references].
  - exists []. by rewrite app_nil_r.
  - destruct (fresh_key_finds (10 + length references) key key 1 references
                (some_suffix_is_free key references)) as (k & Hk).
    rewrite Hk. cbn [mbind result_bind Py.bind].
    apply fresh_key_is_fresh in Hk.
    destruct (IH (references ++ [(k, ref)])) as (added & Hrun & Hnd & Hsnd).
    { rewrite fmap_app. apply NoDup_app. split; [done|].
      split; [|apply NoDup_singleton].
      intros x Hx [->|[]%elem_of_nil]%elem_of_cons. done. }
    exists ((k, ref) :: added). rewrite <- app_assoc in Hrun, Hnd.
    split; [exact Hrun|]. split; [exact Hnd|]. cbn. by rewrite Hsnd.
Qed.

Lemma transcribe_url_scheme u :
  starts_with "file://" (_transcribe_url u) = true.
Proof.
  unfold _transcribe_url. destruct (starts_with "file://" u) eqn:Hpre.
  - apply UrlsFacts.replace_char_keeps_scheme, Hpre.
  - apply UrlsFacts.replace_char_keeps_scheme. reflexivity.
Qed.

Lemma transcribe_url_truthy u : str_truthy (Some (_transcribe_url u)) = true.
Proof.
  pose proof (transcribe_url_scheme u) as Hp.
  by destruct (_transcribe_url u).
Qed.

Section with_lib.
Context `{OtioLib}.

(** X27.  The clip made for a master mob keeps every media reference it is
    given, in order and under pairwise distinct keys, the first of them
    under the default key; the search for an unused key always ends. *)
Theorem master_mob_slot_keeps_every_reference
        mob_name metadata source_range_ first rest global_start_time :
  dict_get metadata "UserComments" = None →
  ∃ references,
    _transcribe_master_mob_slot mob_name metadata source_range_
                                (first :: rest) global_start_time
    = Ok (mkMediaClip mob_name
                      (offset_range source_range_ global_start_time)
                      (Some references))
    ∧ NoDup references.*1
    ∧ references.*2 = (first :: rest).*2
    ∧ (fst <$> head references) = Some DEFAULT_MEDIA_KEY.
Proof.
  intros Hnone. unfold _transcribe_master_mob_slot. rewrite Hnone. cbn.
  destruct (add_references_spec rest [(DEFAULT_MEDIA_KEY, first.2)])
    as (added & -> & Hnd & Hsnd); [apply NoDup_singleton|].
  cbn. eexists. split; [reflexivity|]. split; [exact Hnd|].
  cbn. by rewrite Hsnd.
Qed.

(** X28.  A UNC path among the user comments takes the default slot: it
    becomes an external reference named [UNC Path] with the path as a
    normalised URL and the clip's source range as available range, ahead of
    all the references found in the mob chain, none of which is lost. *)
Theorem unc_path_becomes_the_default_reference
        mob_name metadata user_comments unc_path source_range_
        media_references global_start_time :
  dict_get metadata "UserComments" = Some (PDict user_comments) →
  dict_get user_comments "UNC Path" = Some (PStr unc_path) →
  unc_path ≠ "" →
  ∃ references,
    _transcribe_master_mob_slot mob_name metadata source_range_
                                media_references global_start_time
    = Ok (mkMediaClip mob_name
                      (offset_range source_range_ global_start_time)
                      (Some references))
    ∧ head references
      = Some (DEFAULT_MEDIA_KEY,
              mkRef "UNC Path" (Some (_transcribe_url unc_path))
                    (Some (offset_range source_range_ global_start_time)) [])
    ∧ tail references.*2 = media_references.*2
    ∧ NoDup references.*1.
Proof.
  intros Hcomments Hunc Hne. unfold _transcribe_master_mob_slot.
  rewrite Hcomments. cbn [mbind result_bind Py.bind]. rewrite Hunc.
  cbn [opt_truthy truthy str_truthy negb].
  assert (String.eqb unc_path "" = false) as Hfalse by by apply String.eqb_neq.
  cbn -[_transcribe_url add_references]. rewrite ?Hfalse.
  cbn -[_transcribe_url add_references].
  destruct (add_references_spec media_references
              [(DEFAULT_MEDIA_KEY,
                mkRef "UNC Path" (Some (_transcribe_url unc_path))
                      (Some (offset_range source_range_ global_start_time))
                      [])])
    as (added & -> & Hnd & Hsnd); [apply NoDup_singleton|].
  cbn. eexists. split; [reflexivity|]. split; [reflexivity|].
  split; [exact Hsnd|exact Hnd].
Qed.

(** X29.  A source mob always gives at least one media reference: one
    external reference for each locator with a URL, each with a [file://]
    URL free of backslashes, or else a single missing reference; all of
    them carry the mob's name (or its id when it has no name) and its
    properties. *)
Theorem source_mob_references mob available_range global_start_time :
  let references :=
    _transcribe_source_mob mob available_range global_start_time in
  let name := if str_truthy (mob_name mob) then default "" (mob_name mob)
              else mob_id_str mob in
  references ≠ []
  ∧ length references
    = Nat.max 1 (length (List.filter str_truthy (locator_urls mob)))
  ∧ Forall (λ r, r.1 = name ∧ ref_name r.2 = name
                 ∧ ref_metadata r.2 = [("AAF", PDict (mob_properties mob))]
                 ∧ match target_url r.2 with
                   | Some url => starts_with "file://" url = true
                                 ∧ contains_char backslash url = false
                   | None => List.filter str_truthy (locator_urls mob) = []
                   end)
           references.
Proof.
  cbv zeta. unfold _transcribe_source_mob.
  set (urls := omap _ (locator_urls mob)).
  assert (Hurls : length urls
                  = length (List.filter str_truthy (locator_urls mob))
                  ∧ Forall (λ u, str_truthy (Some u) = true
                                 ∧ starts_with "file://" u = true
                                 ∧ contains_char backslash u = false) urls).
  { subst urls. induction (locator_urls mob) as [|u l [IH1 IH2]];
      [split; [done|constructor]|].
    cbn [omap list_omap List.filter].
    destruct (str_truthy u) eqn:Hu; [|done].
    destruct u as [u|]; [|done]. cbn [fmap option_fmap option_map length].
    split; [by rewrite IH1|].
    constructor; [|done].
    split; [by apply transcribe_url_truthy|].
    split; [by apply transcribe_url_scheme|].
    apply UrlsFacts.replace_char_clean. discriminate. }
  destruct Hurls as [Hlen Hall]. rewrite <- Hlen.
  destruct urls as [|u urls].
  - split; [done|]. split; [done|].
    constructor; [|constructor]. cbn.
    split; [done|]. split; [done|]. split; [done|].
    by destruct (List.filter _ _).
  - split; [done|]. split; [by rewrite !length_fmap|].
    rewrite <- list_fmap_compose. apply Forall_fmap.
    eapply Forall_impl; [exact Hall|].
    intros x (Hx1 & Hx2 & Hx3). unfold compose.
    rewrite Hx1. cbn [fst snd ref_name ref_metadata target_url]. done.
Qed.

End with_lib.

Import MediaRefsExamples.

Lemma master_mob_slot_keeps_every_reference_witness :
  ∃ references,
    _transcribe_master_mob_slot (H := SimpleOtio.simple_otio)
      "clip" [] (day 0 100) same_names None
    = Ok (mkMediaClip "clip" (day 0 100) (Some references))
    ∧ references.*1 = ["DEFAULT_MEDIA"; "B002"; "B002_01"; "DEFAULT_MEDIA_01"].
Proof.
  destruct (master_mob_slot_keeps_every_reference
              (H := SimpleOtio.simple_otio) "clip" [] (day 0 100)
              (essence "A001")
              [essence "B002"; essence "B002"; essence "DEFAULT_MEDIA"]
              None eq_refl)
    as (references & Hrun & _).
  exists references. split; [exact Hrun|].
  vm_compute in Hrun. by injection Hrun as <-.
Defined.

Lemma unc_path_becomes_the_default_reference_witness :
  ∃ references,
    _transcribe_master_mob_slot (H := SimpleOtio.simple_otio)
      "clip" [("UserComments",
               PDict [("UNC Path", PStr "\\server\share\A001.mov")])]
      (day 0 100) [essence "A001"] None
    = Ok (mkMediaClip "clip" (day 0 100) (Some references))
    ∧ (target_url ∘ snd <$> head references)
      = Some (Some "file:////server/share/A001.mov").
Proof.
  destruct (unc_path_becomes_the_default_reference
              (H := SimpleOtio.simple_otio) "clip"
              [("UserComments",
                PDict [("UNC Path", PStr "\\server\share\A001.mov")])]
              [("UNC Path", PStr "\\server\share\A001.mov")]
              "\\server\share\A001.mov" (day 0 100) [essence "A001"] None
              eq_refl eq_refl)
    as (references & Hrun & Hhead & _); [discriminate|].
  exists references. split; [exact Hrun|]. by rewrite Hhead.
Defined.

End MediaRefsFacts.
